(** * fundarb: funding-rate arbitrage between perpetual-futures venues

    A shallow embedding of the core of the repository:
    - [FundingRateArbitrage] (src/strategies/funding_rate_arbitrage.py):
      symbol normalisation, per-venue rate accumulation, the rates table and
      the three display modes;
    - [OrderlyFundingRates._normalize_symbol] (src/orderly/funding_rate.py);
    - [create_order] and [execute_funding_rate_arbitrage] (main.py) together
      with [HyperLiquidOrder.create_market_order] (src/hyperliq/order.py);
    - the venue menus of main.py, [market_close_an_asset] with the close
      methods of the two order adapters, and the loop of
      [BackpackFundingRates.get_backpack_funding_rates]
      (src/backpack/funding_rate.py).

    Python [str] values are modelled as [string] (symbols are ASCII), Python
    [float] values as the kernel's binary64 [float], dictionaries whose
    iteration order is observable as association lists, a pandas frame as
    its column names and its rows of named cells, NaN being the missing
    cell. The order path is a state-and-exception computation over the
    replies of the venues that records the calls made and the lines printed;
    a request that fails is a reply that raises.
    Outside the model: the content and signing of HTTP requests, the
    rendering of a frame by [tabulate], and the menu loop around the venue
    selection. *)

From Stdlib Require Import Bool Arith ZArith Lia List String Ascii Floats.
From Stdlib Require Import Permutation Sorted.
Import ListNotations.

Local Open Scope string_scope.
Local Open Scope list_scope.

(* ===================================================================== *)
(** ** Python string primitives *)
(* ===================================================================== *)

Module PyStr.

(** [c.upper()] on an ASCII character. *)
Definition upper_char (c : ascii) : ascii :=
  let n := nat_of_ascii c in
  if ((97 <=? n)%nat && (n <=? 122)%nat)%bool then ascii_of_nat (n - 32) else c.

(** [s.upper()]. *)
Fixpoint upper (s : string) : string :=
  match s with
  | EmptyString => EmptyString
  | String c r => String (upper_char c) (upper r)
  end.

(** [s[n:]]. *)
Fixpoint drop (n : nat) (s : string) : string :=
  match n, s with
  | O, _ => s
  | S _, EmptyString => EmptyString
  | S k, String _ r => drop k r
  end.

(** [s[:n]]. *)
Fixpoint take (n : nat) (s : string) : string :=
  match n, s with
  | O, _ => EmptyString
  | S _, EmptyString => EmptyString
  | S k, String c r => String c (take k r)
  end.

(** [s.startswith(p)]. *)
Definition startswith (s p : string) : bool := String.prefix p s.

(** [s.endswith(suf)]. *)
Definition endswith (s suf : string) : bool :=
  (String.length suf <=? String.length s)%nat
  && String.eqb (drop (String.length s - String.length suf) s) suf.

(** [s[:-len(suf)]] for a non-empty [suf]. *)
Definition chop (s suf : string) : string :=
  take (String.length s - String.length suf) s.

(** [s.lstrip(chars)], the character set given as a predicate. *)
Fixpoint lstrip (p : ascii -> bool) (s : string) : string :=
  match s with
  | EmptyString => EmptyString
  | String c r => if p c then lstrip p r else s
  end.

(** [s.rstrip(chars)]. *)
Fixpoint rstrip (p : ascii -> bool) (s : string) : string :=
  match s with
  | EmptyString => EmptyString
  | String c r =>
      match rstrip p r with
      | EmptyString => if p c then EmptyString else String c EmptyString
      | r' => String c r'
      end
  end.

(** [s.strip(chars)]. *)
Definition strip (p : ascii -> bool) (s : string) : string :=
  rstrip p (lstrip p s).

(** Membership in the character set of [strip("_- ")]. *)
Definition is_sep (c : ascii) : bool :=
  Ascii.eqb c "_" || Ascii.eqb c "-" || Ascii.eqb c " ".

(** ASCII whitespace, the set removed by [strip()] without argument. *)
Definition is_space (c : ascii) : bool :=
  let n := nat_of_ascii c in
  (n =? 32)%nat || ((9 <=? n)%nat && (n <=? 13)%nat) || ((28 <=? n)%nat && (n <=? 31)%nat).

(** Truthiness of a string: [not s] holds exactly for the empty string. *)
Definition falsy (s : string) : bool :=
  match s with EmptyString => true | _ => false end.

End PyStr.

(* ===================================================================== *)
(** ** Python dictionaries with observable insertion order *)
(* ===================================================================== *)

Module PyDict.

(** [d[k]] as [d.get(k)]: the value of the first (and, for a dictionary,
    only) entry with key [k]. *)
Fixpoint get {V : Type} (k : string) (d : list (string * V)) : option V :=
  match d with
  | [] => None
  | (k', v) :: r => if String.eqb k' k then Some v else get k r
  end.

(** [d[k] = v]: an existing key keeps its position, a new key goes last. *)
Fixpoint set {V : Type} (k : string) (v : V) (d : list (string * V)) : list (string * V) :=
  match d with
  | [] => [(k, v)]
  | (k', v') :: r =>
      if String.eqb k' k then (k, v) :: r else (k', v') :: set k v r
  end.

End PyDict.

(** [x in xs] for a list of strings. *)
Definition str_in (x : string) (xs : list string) : bool :=
  existsb (String.eqb x) xs.

(* ===================================================================== *)
(** ** Rates, missing values and row reductions *)
(* ===================================================================== *)

(** [pd.notna]: a float cell is present unless it is NaN. *)
Definition notna (x : float) : bool := negb (PrimFloat.is_nan x).

(** One row of [DataFrame.max(axis=1, skipna=True)]: the largest value that
    is not NaN, NaN when there is none. *)
Definition nanmax (xs : list float) : float :=
  fold_left
    (fun acc x =>
       if PrimFloat.is_nan x then acc
       else if PrimFloat.is_nan acc then x
       else if PrimFloat.ltb acc x then x else acc)
    xs nan.

(** One row of [DataFrame.min(axis=1, skipna=True)]. *)
Definition nanmin (xs : list float) : float :=
  fold_left
    (fun acc x =>
       if PrimFloat.is_nan x then acc
       else if PrimFloat.is_nan acc then x
       else if PrimFloat.ltb x acc then x else acc)
    xs nan.

(** A venue's rates: symbol to rate, in the order the fetch produced them. *)
Definition RawRates := list (string * float).

(** [self.dex_rates]: venue name to normalised rates. *)
Definition DexRates := list (string * RawRates).

(** A row of a frame: its index label (the [Symbol] column once the index
    is reset) and its numeric cells by column name. *)
Definition Row := (string * list (string * float))%type.

Record DataFrame := mkDataFrame {
  columns : list string;
  rows : list Row
}.

(** [pd.DataFrame()]. *)
Definition empty_frame : DataFrame := mkDataFrame [] [].

(** [df.empty]: some axis has length zero. *)
Definition df_empty (df : DataFrame) : bool :=
  match columns df, rows df with
  | [], _ | _, [] => true
  | _, _ => false
  end.

(** [row[col]]; every column read below exists in the frames that reach it,
    the NaN default is never observed there. *)
Definition cell_of (col : string) (r : Row) : float :=
  match PyDict.get col (snd r) with
  | Some v => v
  | None => nan
  end.

(** [df[col] = f(row)]: the column is overwritten where it exists and
    appended otherwise. *)
Definition assign (col : string) (f : Row -> float) (df : DataFrame) : DataFrame :=
  mkDataFrame
    (if str_in col (columns df) then columns df else columns df ++ [col])
    (map (fun r => (fst r, PyDict.set col (f r) (snd r))) (rows df)).

(** [df[mask]] / [df.loc[mask]]. *)
Definition select (mask : Row -> bool) (df : DataFrame) : DataFrame :=
  mkDataFrame (columns df) (filter mask (rows df)).

(** [df.head(n)]. *)
Definition head (n : nat) (df : DataFrame) : DataFrame :=
  mkDataFrame (columns df) (firstn n (rows df)).

(** The symbols of a frame, in row order. *)
Definition symbols (df : DataFrame) : list string := map fst (rows df).

(** What a display method puts on the terminal: a message, or the frame it
    hands to [tabulate] (the 6-decimal rendering of the cells is not
    modelled). *)
Inductive Shown :=
| Message (text : string)
| Table (df : DataFrame).

Definition shown_rows (s : Shown) : list Row :=
  match s with
  | Message _ => []
  | Table df => rows df
  end.

Definition shown_symbols (s : Shown) : list string := map fst (shown_rows s).

(** [DataFrame.sort_values(by, ascending=...)] is pandas code; it enters the
    model as a function on frames. *)
Definition Sorter := string -> bool -> DataFrame -> DataFrame.

(* ===================================================================== *)
(** ** Symbol normalisation *)
(* ===================================================================== *)

Definition quote_suffixes : list string := ["_USDC"; "_USDT"; "-USDC"; "-USDT"].
Definition perp_suffixes : list string := ["-PERP"; "_PERP"].

(** [for suffix in sufs: if s.endswith(suffix): s = s[:-len(suffix)]; break]. *)
Fixpoint strip_first_suffix (sufs : list string) (s : string) : string :=
  match sufs with
  | [] => s
  | suf :: rest =>
      if PyStr.endswith s suf then PyStr.chop s suf
      else strip_first_suffix rest s
  end.

(** The three stripping stages shared by both normalisers, applied to the
    upper-cased symbol. *)
Definition strip_markers (s : string) : string :=
  let s1 := if PyStr.startswith s "PERP_" then PyStr.drop (String.length "PERP_") s else s in
  let s2 := strip_first_suffix quote_suffixes s1 in
  strip_first_suffix perp_suffixes s2.

Module FundingRateArbitrage.

(** [FundingRateArbitrage._normalize_symbol]. A falsy symbol is returned as
    it is; the result is a [str], the empty string being the falsy one. *)
Definition _normalize_symbol (symbol : string) : string :=
  if PyStr.falsy symbol then symbol
  else strip_markers (PyStr.upper symbol).

(** The loop of [add_dex_rates] that fills [normalized]. *)
Definition normalize_rates (rates : RawRates) : RawRates :=
  fold_left
    (fun normalized sr =>
       let norm_symbol := _normalize_symbol (fst sr) in
       if PyStr.falsy norm_symbol then normalized
       else PyDict.set norm_symbol (snd sr) normalized)
    rates [].

(** [add_dex_rates(dex_name, rates)]; [rates] is [None] or a dictionary. *)
Definition add_dex_rates (self : DexRates) (dex_name : string)
    (rates : option RawRates) : DexRates :=
  match rates with
  | None => self
  | Some [] => self
  | Some rs =>
      match normalize_rates rs with
      | [] => self
      | normalized => PyDict.set dex_name normalized self
      end
  end.

(** The row index of [pd.concat(frames, axis=1)]: the union of the indexes
    of the series, each label at its first appearance. *)
Definition index_union (acc idx : list string) : list string :=
  fold_left (fun a k => if str_in k a then a else a ++ [k]) idx acc.

Definition concat_index (self : DexRates) : list string :=
  fold_left (fun acc dr => index_union acc (map fst (snd dr))) self [].

(** The cell of venue series [rates] at label [sym]: its rate, NaN where the
    series has no such label. *)
Definition series_at (rates : RawRates) (sym : string) : float :=
  match PyDict.get sym rates with
  | Some r => r
  | None => nan
  end.

(** [compile_rates()]: one column per venue, one row per symbol. *)
Definition compile_rates (self : DexRates) : DataFrame :=
  match self with
  | [] => empty_frame
  | _ =>
      mkDataFrame
        (map fst self)
        (map (fun sym => (sym, map (fun dr => (fst dr, series_at (snd dr) sym)) self))
             (concat_index self))
  end.

Definition service_cols : list string :=
  ["Symbol"; "MaxRate"; "MinRate"; "Difference"].

(** [_dex_columns(df)]. *)
Definition _dex_columns (df : DataFrame) : list string :=
  filter (fun c => negb (str_in c service_cols)) (columns df).

(** One row of [df[dex_cols].notna().sum(axis=1)]. *)
Definition non_na_count (dex_cols : list string) (r : Row) : nat :=
  List.length (filter (fun c => notna (cell_of c r)) dex_cols).

(** [create_rates_table(df)]. [MinRate] is taken over the frame that already
    holds [MaxRate], as the source does. *)
Definition create_rates_table (df : DataFrame) : DataFrame :=
  if df_empty df then empty_frame
  else
    let df1 := assign "MaxRate" (fun r => nanmax (map snd (snd r))) df in
    let df2 := assign "MinRate" (fun r => nanmin (map snd (snd r))) df1 in
    let df3 :=
      assign "Difference"
        (fun r => PrimFloat.sub (cell_of "MaxRate" r) (cell_of "MinRate" r)) df2 in
    let dex_cols := _dex_columns df3 in
    match dex_cols with
    | [] => df3
    | _ => select (fun r => 2 <=? non_na_count dex_cols r)%nat df3
    end.

(** [display_rates_table(df)]. *)
Definition display_rates_table (df : DataFrame) : Shown :=
  if df_empty df then Message "No funding rate data available."
  else Table df.

(** [df["Difference"].abs() > 0] on one row. *)
Definition nonzero_difference (r : Row) : bool :=
  PrimFloat.ltb PrimFloat.zero (PrimFloat.abs (cell_of "Difference" r)).

(** [display_top_rates_differences_from_Orderly(df, top_n)]. *)
Definition display_top_rates_differences_from_Orderly
    (sort_values : Sorter) (df : DataFrame) (top_n : nat) : Shown :=
  if df_empty df || negb (str_in "orderly" (columns df)) then
    Message "No Orderly data available for comparison."
  else
    let dex_cols := _dex_columns df in
    match dex_cols with
    | [] => Message "No DEX columns found in the rates table."
    | _ =>
        let mask r :=
          notna (cell_of "orderly" r)
          && (2 <=? non_na_count dex_cols r)%nat
          && nonzero_difference r in
        let top := head top_n (sort_values "Difference" false (select mask df)) in
        if df_empty top then
          Message "No overlapping markets between Orderly and other DEXs with non-zero funding differences found."
        else Table top
    end.

(** [display_top_rates_differences_from_all_DEXs(df, top_n)]. *)
Definition display_top_rates_differences_from_all_DEXs
    (sort_values : Sorter) (df : DataFrame) (top_n : nat) : Shown :=
  if df_empty df then Message "No funding rate data available."
  else
    let dex_cols := _dex_columns df in
    match dex_cols with
    | [] => Message "No DEX columns found in the rates table."
    | _ =>
        let mask r :=
          (2 <=? non_na_count dex_cols r)%nat && nonzero_difference r in
        let top := head top_n (sort_values "Difference" false (select mask df)) in
        if df_empty top then
          Message "No overlapping markets with non-zero funding differences found across DEXs."
        else Table top
    end.

End FundingRateArbitrage.


Module OrderlyFundingRates.

(** [OrderlyFundingRates._extract_symbol], on a row whose symbol field is a
    string: [sym.strip()]. *)
Definition _extract_symbol (sym : string) : string :=
  PyStr.strip PyStr.is_space sym.

(** [OrderlyFundingRates._normalize_symbol]. *)
Definition _normalize_symbol (symbol : string) : option string :=
  if PyStr.falsy symbol then None
  else
    let s := PyStr.strip PyStr.is_sep (strip_markers (PyStr.upper symbol)) in
    if PyStr.falsy s then None else Some s.

End OrderlyFundingRates.

(** The algorithm of the specification, section 4.1, step by step. *)
Definition normalize_spec (rawSymbol : string) : option string :=
  (* 1. trim and upper-case; empty gives none *)
  let s1 := PyStr.upper (PyStr.strip PyStr.is_space rawSymbol) in
  if PyStr.falsy s1 then None
  else
    (* 2. PERP_ prefix *)
    let s2 := if PyStr.startswith s1 "PERP_" then PyStr.drop 5 s1 else s1 in
    (* 3. first matching quote suffix *)
    let s3 := strip_first_suffix ["_USDC"; "_USDT"; "-USDC"; "-USDT"] s2 in
    (* 4. -PERP or _PERP *)
    let s4 := strip_first_suffix ["-PERP"; "_PERP"] s3 in
    (* 5. leading and trailing '_', '-', ' ' *)
    let s5 := PyStr.strip PyStr.is_sep s4 in
    (* 6. empty gives none *)
    if PyStr.falsy s5 then None else Some s5.

(** A [str] result read as an optional symbol: the falsy string is "none",
    as the callers of [_normalize_symbol] read it ([if not norm_symbol]). *)
Definition truthy_symbol (s : string) : option string :=
  if PyStr.falsy s then None else Some s.

(** No marker is left on [s]: it has no [PERP_] prefix and none of the six
    suffixes. *)
Definition marker_free (s : string) : bool :=
  negb (PyStr.startswith s "PERP_")
  && forallb (fun suf => negb (PyStr.endswith s suf)) (quote_suffixes ++ perp_suffixes).


(* ===================================================================== *)
(** ** main.py: the analysis entry point *)
(* ===================================================================== *)

(** [analyze_funding_rate_arbitrage(option)], given what the three fetches
    returned (each fetcher returns a dictionary, the empty one on failure). *)
Definition analyze_funding_rate_arbitrage (sort_values : Sorter)
    (orderly_rates hyperliquid_rates backpack_rates : RawRates)
    (option : nat) : Shown :=
  let dex_rates_list :=
    [("orderly", orderly_rates); ("hyperliquid", hyperliquid_rates);
     ("backpack", backpack_rates)] in
  let fr_arbitrage :=
    fold_left
      (fun self dr => FundingRateArbitrage.add_dex_rates self (fst dr) (Some (snd dr)))
      dex_rates_list [] in
  let compiled_rates := FundingRateArbitrage.compile_rates fr_arbitrage in
  let df := FundingRateArbitrage.create_rates_table compiled_rates in
  match option with
  | 1 => FundingRateArbitrage.display_rates_table df
  | 2 => FundingRateArbitrage.display_top_rates_differences_from_Orderly sort_values df 3
  | _ => FundingRateArbitrage.display_top_rates_differences_from_all_DEXs sort_values df 3
  end.

(* ===================================================================== *)
(** ** main.py: order placement and the two-leg coordinator *)
(* ===================================================================== *)

Inductive Side := BUY | SELL.

(** The Python exceptions that the modelled code can raise:
    [RequestException] stands for the exceptions of [requests] (connection
    errors, timeouts), [ValueError] also for [json.JSONDecodeError], its
    subclass. *)
Inductive PyExn :=
| ValueError (msg : string)
| AttributeError (msg : string)
| KeyError (key : string)
| TypeError (msg : string)
| RequestException (msg : string).

Inductive Outcome (A : Type) :=
| Return (a : A)
| Raise (e : PyExn).
Arguments Return {A} a.
Arguments Raise {A} e.

(** Lines printed by the order path. *)
Inductive Msg :=
| OrderlyFilled (order_id order_quantity mark_price : string)
| AdapterFilled (oid totalSz avgPx : string)     (* printed by the Hyperliquid adapter *)
| HyperliquidFilled (oid totalSz avgPx : string) (* printed by [create_order] *)
| HyperliquidError (error : option string)
| UnsupportedDex (dex : string)
| OrderFailedAborting (dex : string)
| CloseShortManually.

(** What the order path does to the outside: calls of a venue adapter's
    [create_market_order], the mark-price query, the order submitted to the
    Hyperliquid exchange, and printed lines. *)
Inductive Event :=
| OrderCall (dex symbol : string) (quantity : float) (side : Side)
| MarkPriceQuery (symbol : string)
| ExchangeSubmit (symbol : string) (sz_usd : float) (side : Side)
| Print (m : Msg).

(** The reply of Orderly's order endpoint, as [create_order] reads it. The
    two entries are read only to print a filled order; each is the value of
    the look-up, or the exception it raises on a reply that lacks the entry
    ([KeyError], or [TypeError] where ['data'] is no dictionary). *)
Record OrderlyReply := mkOrderlyReply {
  success : bool;                   (* order_result.get("success") is True *)
  order_id : Outcome string;        (* order_result['data']['order_id'] *)
  order_quantity : Outcome string   (* order_result['data']['order_quantity'] *)
}.

(** The decoded reply of Orderly's public futures endpoint, as [create_order]
    reads it: the value of the look-up, or the exception it raises. *)
Record MarkPriceReply := mkMarkPriceReply {
  mark_price : Outcome string       (* response['data']['mark_price'] *)
}.

(** An entry of the Hyperliquid universe. *)
Record Asset := mkAsset {
  name : string;
  markPx : string
}.

(** One element of [order_result["response"]["data"]["statuses"]]: it has a
    ["filled"] entry, or an ["error"] entry, or neither. *)
Inductive HLStatus :=
| Filled (oid totalSz avgPx : string)
| Errored (error : string)
| Other.

Record HLOrderResult := mkHLOrderResult {
  status : string;
  statuses : list HLStatus
}.

(** [HyperLiquidOrder.create_market_order] returns the result dictionary, or
    the string [order_result["status"]] from inside its reporting loop. *)
Inductive HLReturn :=
| RetDict (order_result : HLOrderResult)
| RetStr (s : string).

(** The venues as the order path sees them, over a world [W] that the calls
    may change. [orderly_create_market_order] is the call of the Orderly
    adapter followed by [.get("success")]: it raises where the request or
    the decoding of its body raises, and where the body is no JSON object.
    [orderly_mark_price] is the GET of the mark price and the decoding of
    its body (main.py lines 140-144), which raise likewise. [hl_submit]
    stands for lines 58-73 of [HyperLiquidOrder.create_market_order]: price
    bounds, the order spec and leverage check of [hyperliq_utils], and
    [exchange.order]. *)
Record Venues (W : Type) := mkVenues {
  orderly_create_market_order : string -> float -> Side -> W -> Outcome OrderlyReply * W;
  orderly_mark_price : string -> W -> Outcome MarkPriceReply * W;
  hl_universe : W -> list Asset;
  hl_submit : Asset -> float -> Side -> W -> Outcome HLOrderResult * W
}.
Arguments orderly_create_market_order {W} _ _ _ _ _.
Arguments orderly_mark_price {W} _ _ _.
Arguments hl_universe {W} _ _.
Arguments hl_submit {W} _ _ _ _ _.

(** Computations of the order path: they read and change the world, emit
    events, and return or raise. *)
Definition M (W A : Type) : Type := W -> Outcome A * W * list Event.

Definition ret {W A} (a : A) : M W A := fun w => (Return a, w, []).
Definition raise {W A} (e : PyExn) : M W A := fun w => (Raise e, w, []).
Definition emit {W} (e : Event) : M W unit := fun w => (Return tt, w, [e]).
(** An expression that gives a value or raises, without touching the world. *)
Definition lift {W A} (o : Outcome A) : M W A := fun w => (o, w, []).
Definition bind {W A B} (m : M W A) (k : A -> M W B) : M W B :=
  fun w =>
    match m w with
    | (Return a, w1, l1) =>
        match k a w1 with
        | (r, w2, l2) => (r, w2, l1 ++ l2)
        end
    | (Raise e, w1, l1) => (Raise e, w1, l1)
    end.

Notation "x <- m ;; k" := (bind m (fun x => k))
  (at level 61, m at next level, right associativity).
Notation "m ;;; k" := (bind m (fun _ => k))
  (at level 61, right associativity).

Module HyperLiquidOrder.

(** The reporting loop of [create_market_order] (lines 77-85): [None] when
    every status was reported as filled, otherwise the early return. *)
Fixpoint report_statuses {W} (order_result : HLOrderResult) (sts : list HLStatus)
  : M W (option HLReturn) :=
  match sts with
  | [] => ret None
  | Filled oid totalSz avgPx :: rest =>
      emit (Print (AdapterFilled oid totalSz avgPx)) ;;;
      report_statuses order_result rest
  | Errored error :: _ =>
      emit (Print (HyperliquidError (Some error))) ;;;
      ret (Some (RetStr (status order_result)))
  | Other :: _ => raise (KeyError "error")
  end.

(** [HyperLiquidOrder.create_market_order(symbol, sz_usd, side)]. *)
Definition create_market_order {W} (V : Venues W)
    (symbol : string) (sz_usd : float) (side : Side) : M W HLReturn :=
  fun w =>
    let universe := hl_universe V w in
    match find (fun asset => String.eqb (name asset) symbol) universe with
    | None =>
        raise (ValueError ("Symbol '" ++ symbol ++ "' not found in the Hyperliquid universe.")) w
    | Some symbol_info =>
        (emit (ExchangeSubmit symbol sz_usd side) ;;;
         order_result <- (fun w0 => match hl_submit V symbol_info sz_usd side w0 with
                                    | (r, w1) => (r, w1, [])
                                    end) ;;
         if String.eqb (status order_result) "ok" then
           early <- report_statuses order_result (statuses order_result) ;;
           match early with
           | Some r => ret r
           | None => ret (RetDict order_result)
           end
         else ret (RetDict order_result)) w
    end.

End HyperLiquidOrder.

(** The loop of [create_order] over the statuses of a Hyperliquid result
    (main.py lines 162-174): [false] at the first status without a fill. *)
Fixpoint print_fills {W} (sts : list HLStatus) : M W bool :=
  match sts with
  | [] => ret true
  | Filled oid totalSz avgPx :: rest =>
      emit (Print (HyperliquidFilled oid totalSz avgPx)) ;;; print_fills rest
  | Errored error :: _ =>
      emit (Print (HyperliquidError (Some error))) ;;; ret false
  | Other :: _ =>
      emit (Print (HyperliquidError None)) ;;; ret false
  end.

(** [create_order(dex, symbol, quantity, side)]. *)
Definition create_order {W} (V : Venues W)
    (dex symbol : string) (quantity : float) (side : Side) : M W bool :=
  if String.eqb dex "orderly" then
    emit (OrderCall dex symbol quantity side) ;;;
    order_result <- (fun w => match orderly_create_market_order V symbol quantity side w with
                              | (r, w1) => (r, w1, [])
                              end) ;;
    emit (MarkPriceQuery symbol) ;;;
    response <- (fun w => match orderly_mark_price V symbol w with
                          | (p, w1) => (p, w1, [])
                          end) ;;
    if success order_result then
      id <- lift (order_id order_result) ;;
      filled <- lift (order_quantity order_result) ;;
      price <- lift (mark_price response) ;;
      emit (Print (OrderlyFilled id filled price)) ;;;
      ret true
    else ret false
  else if String.eqb dex "hyperliquid" then
    emit (OrderCall dex symbol quantity side) ;;;
    order_result <- HyperLiquidOrder.create_market_order V symbol quantity side ;;
    match order_result with
    | RetStr _ => raise (AttributeError "'str' object has no attribute 'get'")
    | RetDict r =>
        if String.eqb (status r) "ok" then print_fills (statuses r)
        else ret false
    end
  else
    emit (Print (UnsupportedDex dex)) ;;; ret false.

(** [execute_funding_rate_arbitrage(symbol, short_on_dex, long_on_dex,
    order_quantity)]. *)
Definition execute_funding_rate_arbitrage {W} (V : Venues W)
    (symbol short_on_dex long_on_dex : string) (order_quantity : float) : M W bool :=
  short_ok <- create_order V short_on_dex symbol order_quantity SELL ;;
  if negb short_ok then
    emit (Print (OrderFailedAborting short_on_dex)) ;;; ret false
  else
    long_ok <- create_order V long_on_dex symbol order_quantity BUY ;;
    if negb long_ok then
      emit (Print (OrderFailedAborting long_on_dex)) ;;;
      emit (Print CloseShortManually) ;;;
      ret false
    else ret true.

(* ===================================================================== *)
(** ** Vocabulary of the statements *)
(* ===================================================================== *)

(** Venue series [rates] reports a rate for [sym]: it has the symbol, with a
    value that is not NaN (a NaN cell and a missing one are the same cell of
    the frame). *)
Definition reports (rates : RawRates) (sym : string) : bool :=
  match PyDict.get sym rates with
  | Some r => notna r
  | None => false
  end.

(** The number of venues of [self] that report a rate for [sym]. *)
Definition coverage (self : DexRates) (sym : string) : nat :=
  List.length (filter (fun dr => reports (snd dr) sym) self).

(** No two strings of [xs] are equal. *)
Fixpoint distinct (xs : list string) : bool :=
  match xs with
  | [] => true
  | x :: r => negb (str_in x r) && distinct r
  end.

(** The venue names of [self] are pairwise different (they are keys of a
    dictionary) and none is the name of a service column. *)
Definition venue_names_ok (self : DexRates) : bool :=
  distinct (map fst self)
  && forallb (fun d => negb (str_in d FundingRateArbitrage.service_cols)) (map fst self).

(** The state [self.dex_rates] after a sequence of [add_dex_rates] calls on a
    fresh object. *)
Definition dex_rates_after (adds : list (string * option RawRates)) : DexRates :=
  fold_left (fun self a => FundingRateArbitrage.add_dex_rates self (fst a) (snd a)) adds [].

(** The rates table of a ranking request: [create_rates_table(compile_rates())]. *)
Definition rates_table (self : DexRates) : DataFrame :=
  FundingRateArbitrage.create_rates_table (FundingRateArbitrage.compile_rates self).

(** [a] is placed strictly before [b] by a sort on keys with NaN last. *)
Definition key_before (ascending : bool) (a b : float) : bool :=
  if PrimFloat.is_nan a then false
  else if PrimFloat.is_nan b then true
  else if ascending then PrimFloat.ltb a b else PrimFloat.ltb b a.

(** Row [a] may stand before row [b] in a frame sorted on column [by_]: the
    order does not place [b] strictly before [a]. *)
Definition row_order (by_ : string) (ascending : bool) (a b : Row) : Prop :=
  key_before ascending (cell_of by_ b) (cell_of by_ a) = false.

(** What is assumed of pandas' [sort_values(by, ascending=...)] with its
    default [kind] and [na_position]: it keeps the columns, permutes the
    rows, and leaves them in the order of the key column, NaN keys last.
    Nothing is assumed on the order of rows with equal keys: the default
    kind, quicksort, is not a stable sort. *)
Definition sorter_ok (sort_values : Sorter) : Prop :=
  forall by_ ascending df,
    columns (sort_values by_ ascending df) = columns df
    /\ Permutation (rows (sort_values by_ ascending df)) (rows df)
    /\ Sorted (row_order by_ ascending) (rows (sort_values by_ ascending df)).

(** The venue cells of the table row of [sym]. *)
Definition venue_cells (self : DexRates) (sym : string) : list (string * float) :=
  map (fun dr => (fst dr, FundingRateArbitrage.series_at (snd dr) sym)) self.

(** The row of the rates table for [sym], written out. *)
Definition table_row (self : DexRates) (sym : string) : Row :=
  let cells := venue_cells self sym in
  let mx := nanmax (map snd cells) in
  let mn := nanmin (map snd (cells ++ [("MaxRate", mx)])) in
  (sym, cells ++ [("MaxRate", mx); ("MinRate", mn); ("Difference", PrimFloat.sub mx mn)]).

Fixpoint insert_row (by_ : string) (ascending : bool) (r : Row) (l : list Row) : list Row :=
  match l with
  | [] => [r]
  | x :: rest =>
      if key_before ascending (cell_of by_ x) (cell_of by_ r)
      then x :: insert_row by_ ascending r rest
      else r :: l
  end.

(** A sorter to run the model with: insertion sort on the key column, NaN
    keys last, equal keys in row order. *)
Definition sort_values_insertion : Sorter :=
  fun by_ ascending df =>
    mkDataFrame (columns df) (fold_right (insert_row by_ ascending) [] (rows df)).

Fixpoint insert_row_after (by_ : string) (ascending : bool) (r : Row) (l : list Row)
  : list Row :=
  match l with
  | [] => [r]
  | x :: rest =>
      if key_before ascending (cell_of by_ r) (cell_of by_ x)
      then r :: l
      else x :: insert_row_after by_ ascending r rest
  end.

(** Another sorter: the same insertion sort, except that a row goes after
    the rows with an equal key, so that equal keys come out in reverse row
    order. *)
Definition sort_values_ties_reversed : Sorter :=
  fun by_ ascending df =>
    mkDataFrame (columns df) (fold_right (insert_row_after by_ ascending) [] (rows df)).

(** The order calls among the events of a run. *)
Definition is_order_call (e : Event) : bool :=
  match e with OrderCall _ _ _ _ => true | _ => false end.

Definition order_calls (l : list Event) : list Event := filter is_order_call l.

(** The order calls that reach the adapter of venue [dex]. *)
Definition order_calls_to (dex : string) (l : list Event) : list Event :=
  filter (fun e => match e with
                   | OrderCall d _ _ _ => String.eqb d dex
                   | _ => false
                   end) l.

(** The states of the specification's execution state machine. *)
Inductive ExecutionState :=
| Pending | ShortFilled | BothFilled | ShortFailed | LongFailedAfterShort.

(** The terminal state as the coordinator reports it: its return value
    together with the lines it printed. A run that raises reports none. *)
Definition reported_state (r : Outcome bool) (l : list Event) : option ExecutionState :=
  match r with
  | Return true => Some BothFilled
  | Return false =>
      if existsb (fun e => match e with Print CloseShortManually => true | _ => false end) l
      then Some LongFailedAfterShort
      else Some ShortFailed
  | Raise _ => None
  end.

(** The return value of a run. *)
Definition result_of {W A} (x : Outcome A * W * list Event) : Outcome A := fst (fst x).
(** The events of a run. *)
Definition events_of {W A} (x : Outcome A * W * list Event) : list Event := snd x.

(** The events [create_order] may emit for one leg: order calls of that leg
    only, queries, and the lines of the venues; never a line of the
    coordinator. *)
Definition leg_event (dex symbol : string) (q : float) (side : Side) (e : Event) : Prop :=
  match e with
  | OrderCall d s q' sd => d = dex /\ s = symbol /\ q' = q /\ sd = side
  | MarkPriceQuery _ | ExchangeSubmit _ _ _ => True
  | Print (OrderFailedAborting _) | Print CloseShortManually => False
  | Print _ => True
  end.

(** Venue events: anything but an order call or a coordinator line. *)
Definition venue_event (e : Event) : Prop :=
  match e with
  | OrderCall _ _ _ _ => False
  | Print (OrderFailedAborting _) | Print CloseShortManually => False
  | _ => True
  end.

(** Whether [create_order] has a branch for the venue. *)
Definition supported (dex : string) : bool :=
  String.eqb dex "orderly" || String.eqb dex "hyperliquid".

(** A small world to run the order path in: Orderly answers every order
    with the given success flag, the Hyperliquid universe lists BTC and ETH,
    and the Hyperliquid exchange answers every order with [hl_result]. *)
Definition demo_venues (orderly_ok : bool) (hl_result : HLOrderResult) : Venues unit :=
  mkVenues unit
    (fun _ _ _ w => (Return (mkOrderlyReply orderly_ok (Return "1001") (Return "2")), w))
    (fun _ w => (Return (mkMarkPriceReply (Return "65000.5")), w))
    (fun _ => [mkAsset "BTC" "65000.5"; mkAsset "ETH" "3000.1"])
    (fun _ _ _ w => (Return hl_result, w)).

Definition hl_filled : HLOrderResult :=
  mkHLOrderResult "ok" [Filled "77" "0.002" "65010.0"].

Definition hl_rejected : HLOrderResult :=
  mkHLOrderResult "err" [].

(** Rates to run the analysis on. *)
Definition demo_orderly : RawRates :=
  [("PERP_BTC_USDC", 0x1.a36e2eb1c432dp-14%float);   (* 0.0001 *)
   ("PERP_ETH_USDC", 0x1.a36e2eb1c432dp-13%float);   (* 0.0002 *)
   ("PERP_SOL_USDC", 0x1.a36e2eb1c432dp-14%float)].  (* 0.0001 *)

Definition demo_hyperliquid : RawRates :=
  [("BTC", 0x1.a36e2eb1c432dp-14%float);             (* 0.0001 *)
   ("ETH", 0x1.0624dd2f1a9fcp-11%float);             (* 0.0005 *)
   ("SOL", 0x1.d7dbf487fcb92p-11%float);             (* 0.0009 *)
   ("DOGE", 0x1.a36e2eb1c432dp-12%float)].           (* 0.0004 *)

Definition demo_backpack : RawRates :=
  [("BTC_USDC", 0x1.0624dd2f1a9fcp-11%float);        (* 0.0005 *)
   ("DOGE_USDC", 0x1.a36e2eb1c432dp-12%float)].      (* 0.0004 *)

Definition demo_dex_rates : DexRates :=
  dex_rates_after
    [("orderly", Some demo_orderly); ("hyperliquid", Some demo_hyperliquid);
     ("backpack", Some demo_backpack)].

(** The aggregation scenario of the specification: Orderly reports BTC at
    0.0001, Hyperliquid at 0.0003, and the Backpack fetch fails, so that its
    fetcher returns the empty dictionary. *)
Definition scenario_orderly : RawRates := [("BTC", 0x1.a36e2eb1c432dp-14%float)].
Definition scenario_hyperliquid : RawRates := [("BTC", 0x1.3a92a30553261p-12%float)].
Definition scenario_backpack : RawRates := [].

Definition scenario_dex_rates : DexRates :=
  dex_rates_after
    [("orderly", Some scenario_orderly); ("hyperliquid", Some scenario_hyperliquid);
     ("backpack", Some scenario_backpack)].

(** Rates with a tie: ETH and SOL have the same spread. *)
Definition tie_orderly : RawRates :=
  [("ETH", 0x1.a36e2eb1c432dp-14%float); ("SOL", 0x1.a36e2eb1c432dp-14%float)].
Definition tie_hyperliquid : RawRates :=
  [("ETH", 0x1.0624dd2f1a9fcp-11%float); ("SOL", 0x1.0624dd2f1a9fcp-11%float)].

(** The shared shape of [nanmax] and [nanmin]: a fold that skips NaN and
    replaces the running value where [better] says so. *)
Definition nan_skipping_fold (better : float -> float -> bool) (xs : list float)
    (acc : float) : float :=
  fold_left
    (fun acc x =>
       if PrimFloat.is_nan x then acc
       else if PrimFloat.is_nan acc then x
       else if better acc x then x else acc)
    xs acc.

(* ===================================================================== *)
(** ** Vocabulary of the further properties *)
(* ===================================================================== *)

(** Every character of [s] satisfies [p]. *)
Fixpoint all_chars (p : ascii -> bool) (s : string) : bool :=
  match s with
  | EmptyString => true
  | String c r => p c && all_chars p r
  end.

(** A bare ticker: not empty, upper-case, without ['_'], ['-'] or blank. *)
Definition bare_ticker (b : string) : bool :=
  negb (PyStr.falsy b)
  && all_chars (fun c => negb (PyStr.is_sep c)) b
  && String.eqb (PyStr.upper b) b.

(** The first character of [s], if any, satisfies [p]. *)
Definition first_char (p : ascii -> bool) (s : string) : bool :=
  match s with
  | EmptyString => true
  | String c _ => p c
  end.

(** The last character of [s], if any, satisfies [p]. *)
Fixpoint last_char (p : ascii -> bool) (s : string) : bool :=
  match s with
  | EmptyString => true
  | String c EmptyString => p c
  | String _ r => last_char p r
  end.

(** The rate of the last entry of [rates] whose symbol normalises to [k]. *)
Definition last_rate (k : string) (rates : RawRates) : option float :=
  fold_left
    (fun found sr =>
       if String.eqb (FundingRateArbitrage._normalize_symbol (fst sr)) k
       then Some (snd sr) else found)
    rates None.

(** The loop of [add_dex_rates], from any dictionary built so far. *)
Definition normalize_into (rates normalized : RawRates) : RawRates :=
  fold_left
    (fun normalized sr =>
       let norm_symbol := FundingRateArbitrage._normalize_symbol (fst sr) in
       if PyStr.falsy norm_symbol then normalized
       else PyDict.set norm_symbol (snd sr) normalized)
    rates normalized.

(** The rate of the last entry of [rates] whose symbol normalises to [k],
    [found] if there is none. *)
Definition last_rate_from (k : string) (rates : RawRates) (found : option float)
  : option float :=
  fold_left
    (fun found sr =>
       if String.eqb (FundingRateArbitrage._normalize_symbol (fst sr)) k
       then Some (snd sr) else found)
    rates found.

(** A fetch result that gives [add_dex_rates] nothing to store: [None], or
    a dictionary whose symbols all normalise to the empty string. *)
Definition unusable (rates : option RawRates) : bool :=
  match rates with
  | None => true
  | Some rs => forallb (fun sr => PyStr.falsy (FundingRateArbitrage._normalize_symbol (fst sr))) rs
  end.

(** A binary64 value that is not NaN as a triple of integers, so that the
    order of the values is the lexicographic order of the triples. *)
Definition SFkey (x : spec_float) : Z * Z * Z :=
  match x with
  | S754_infinity true => (-2, 0, 0)%Z
  | S754_finite true m e => (-1, - e, Zneg m)%Z
  | S754_zero _ => (0, 0, 0)%Z
  | S754_nan => (0, 0, 0)%Z
  | S754_finite false m e => (1, e, Zpos m)%Z
  | S754_infinity false => (2, 0, 0)%Z
  end.

(** The lexicographic order on triples. *)
Definition key_lt (a b : Z * Z * Z) : Prop :=
  let '(c1, e1, m1) := a in
  let '(c2, e2, m2) := b in
  (c1 < c2 \/ (c1 = c2 /\ (e1 < e2 \/ (e1 = e2 /\ m1 < m2))))%Z.

(** The mask of the global top-N on the rows of [df]. *)
Definition eligible (df : DataFrame) (r : Row) : bool :=
  (2 <=? FundingRateArbitrage.non_na_count (FundingRateArbitrage._dex_columns df) r)%nat
  && FundingRateArbitrage.nonzero_difference r.

(** The mask of the anchored top-N on the rows of [df]. *)
Definition eligible_anchored (df : DataFrame) (r : Row) : bool :=
  notna (cell_of "orderly" r)
  && (2 <=? FundingRateArbitrage.non_na_count (FundingRateArbitrage._dex_columns df) r)%nat
  && FundingRateArbitrage.nonzero_difference r.

(** The status reports a fill. *)
Definition is_filled (st : HLStatus) : bool :=
  match st with Filled _ _ _ => true | _ => false end.

(** A coordinator line among the events. *)
Definition is_coordinator_line (e : Event) : bool :=
  match e with
  | Print (OrderFailedAborting _) | Print CloseShortManually => true
  | _ => false
  end.

(* ===================================================================== *)
(** ** The venue menus of main.py *)
(* ===================================================================== *)

(** Python's [xs[i]] for an integer [i]: a negative index counts from the
    end of the list; [None] stands for IndexError. *)
Definition py_index {A : Type} (xs : list A) (i : Z) : option A :=
  let n := Z.of_nat (List.length xs) in
  if ((0 <=? i) && (i <? n))%Z then nth_error xs (Z.to_nat i)
  else if ((- n <=? i) && (i <? 0))%Z then nth_error xs (Z.to_nat (n + i))
  else None.

(** The value [prompt_user] returns for the reply typed at its prompt:
    [None] is a reply for which [int] raises ValueError. *)
Definition prompt_user (reply : option Z) : Z :=
  match reply with
  | Some choice => choice
  | None => (-1)%Z
  end.

(** [get_dex_from_dex_options(choice)] over the global [dex_options]. *)
Definition get_dex_from_dex_options (dex_options : list string) (choice : Z)
  : option string :=
  py_index dex_options (choice - 1).

(** [[d for d in local_dex_options if d != short_on_dex]]. *)
Definition remaining_dex (local_dex_options : list string) (short_on_dex : string)
  : list string :=
  filter (fun d => negb (String.eqb d short_on_dex)) local_dex_options.

(** The venue selection of the "Execute Strategy" branch (main.py lines
    465-491) for the two replies typed at the prompts: the short and the
    long venue, or [None] where the branch prints "Aborting!". *)
Definition select_venues (dex_options : list string) (short_reply long_reply : option Z)
  : option (string * string) :=
  let local_dex_options := dex_options in
  let short_choice := prompt_user short_reply in
  match get_dex_from_dex_options dex_options short_choice with
  | None => None
  | Some short_on_dex =>
      if PyStr.falsy short_on_dex then None
      else
        let remaining_dex := remaining_dex local_dex_options short_on_dex in
        let long_choice := prompt_user long_reply in
        let long_on_dex :=
          if ((1 <=? long_choice) && (long_choice <=? Z.of_nat (List.length remaining_dex)))%Z
          then py_index remaining_dex (long_choice - 1)
          else None in
        match long_on_dex with
        | None => None
        | Some long_on_dex =>
            if PyStr.falsy long_on_dex then None
            else Some (short_on_dex, long_on_dex)
        end
  end.

(* ===================================================================== *)
(** ** Closing a position *)
(* ===================================================================== *)

(** Lines printed on the close path. *)
Inductive CloseLine :=
| NoPositionHeld                                   (* Orderly adapter *)
| ReplyMessage (message : option string)           (* print(response.get("message")) *)
| ClosingOnHyperliquid (symbol : string) (size : float) (side : Side)
| NoOpenPosition (symbol : string)                 (* Hyperliquid adapter *)
| UnsupportedDexClose (dex : string).

(** What the close path does to the outside: the position query and the
    order of the Orderly adapter, the events of the Hyperliquid adapter's
    [create_market_order], and printed lines. *)
Inductive CloseEvent :=
| PositionQuery (symbol : string)
| CloseOrder (symbol : string) (order_quantity : float) (side : Side)
| OrderEvent (e : Event)
| ClosePrint (line : CloseLine).

(** Orderly's reply to the closing order, as [market_close_an_asset] of
    main.py reads it. *)
Record CloseReply := mkCloseReply {
  close_success : bool;        (* response.get("success") is True *)
  message : option string      (* response.get("message") *)
}.

(** An element of [user_state["assetPositions"]]. *)
Record HLPosition := mkHLPosition {
  coin : string;               (* position["position"]["coin"] *)
  szi : float                  (* float(position["position"]["szi"]) *)
}.

(** The accounts as the close path sees them. The replies are taken to have
    the entries the code reads, with numbers that [float] accepts;
    transport failures are outside the model. *)
Record Accounts (W : Type) := mkAccounts {
  (* float(get_position(symbol)["data"]["position_qty"]) *)
  orderly_position_qty : string -> W -> float * W;
  (* Order.create_market_order(symbol, order_quantity, side) *)
  orderly_close_order : string -> float -> Side -> W -> CloseReply * W;
  (* info.user_state(address)["assetPositions"] *)
  hl_asset_positions : W -> list HLPosition;
  (* symbol_info["index"] *)
  hl_index : Asset -> string;
  (* float(symbol_info["markPx"]) *)
  hl_mark_px : Asset -> float
}.
Arguments orderly_position_qty {W} _ _ _.
Arguments orderly_close_order {W} _ _ _ _ _.
Arguments hl_asset_positions {W} _ _.
Arguments hl_index {W} _ _.
Arguments hl_mark_px {W} _ _.

(** [Order.market_close_an_asset(symbol)] of orderly/order.py: the reply of
    the closing order, [None] when no position is held. *)
Definition orderly_market_close_an_asset {W} (A : Accounts W) (symbol : string) (w : W)
  : option CloseReply * W * list CloseEvent :=
  let '(order_quantity, w1) := orderly_position_qty A symbol w in
  let side := if PrimFloat.ltb order_quantity PrimFloat.zero then BUY else SELL in
  if negb (PrimFloat.eqb order_quantity PrimFloat.zero) then
    let '(response, w2) := orderly_close_order A symbol (PrimFloat.abs order_quantity) side w1 in
    (Some response, w2,
     [PositionQuery symbol; CloseOrder symbol (PrimFloat.abs order_quantity) side])
  else
    (None, w1, [PositionQuery symbol; ClosePrint NoPositionHeld]).

(** [HyperLiquidOrder.market_close_an_asset(symbol)] of hyperliq/order.py. *)
Definition hyperliquid_market_close_an_asset {W} (V : Venues W) (A : Accounts W)
    (symbol : string) (w : W) : Outcome bool * W * list CloseEvent :=
  let asset_positions := hl_asset_positions A w in
  let universe := hl_universe V w in
  match find (fun asset => String.eqb (name asset) symbol) universe with
  | None =>
      (Raise (ValueError ("Symbol '" ++ symbol
                          ++ "' not found in the Hyperliquid universe.")%string),
       w, [])
  | Some symbol_info =>
      let coin_index := hl_index A symbol_info in
      match find (fun position => String.eqb (coin position) coin_index) asset_positions with
      | Some position =>
          let size := szi position in
          let side := if PrimFloat.ltb PrimFloat.zero size then SELL else BUY in
          let line := ClosePrint (ClosingOnHyperliquid symbol size side) in
          match HyperLiquidOrder.create_market_order V symbol
                  (PrimFloat.mul (PrimFloat.abs size) (hl_mark_px A symbol_info)) side w with
          | (Return _, w1, l) => (Return true, w1, line :: map OrderEvent l)
          | (Raise e, w1, l) => (Raise e, w1, line :: map OrderEvent l)
          end
      | None => (Return false, w, [ClosePrint (NoOpenPosition symbol)])
      end
  end.

(** [market_close_an_asset(dex, symbol)] of main.py. *)
Definition market_close_an_asset {W} (V : Venues W) (A : Accounts W)
    (dex symbol : string) (w : W) : Outcome bool * W * list CloseEvent :=
  if String.eqb dex "orderly" then
    match orderly_market_close_an_asset A symbol w with
    | (Some response, w1, l) =>
        if close_success response then (Return true, w1, l)
        else (Return false, w1, l ++ [ClosePrint (ReplyMessage (message response))])
    | (None, w1, l) =>
        (Raise (AttributeError "'NoneType' object has no attribute 'get'"), w1, l)
    end
  else if String.eqb dex "hyperliquid" then
    hyperliquid_market_close_an_asset V A symbol w
  else
    (Return false, w, [ClosePrint (UnsupportedDexClose dex)]).

(** The closing orders among the events. *)
Definition close_orders (l : list CloseEvent) : list CloseEvent :=
  filter (fun e => match e with
                   | CloseOrder _ _ _ | OrderEvent (ExchangeSubmit _ _ _) => true
                   | _ => false
                   end) l.

(** Accounts to run the close path on: Orderly holds [position_qty] of every
    symbol and answers the closing order with [reply]; Hyperliquid holds
    0.5 of the asset with index 0. *)
Definition demo_accounts (position_qty : float) (reply : CloseReply) : Accounts unit :=
  mkAccounts unit
    (fun _ w => (position_qty, w))
    (fun _ _ _ w => (reply, w))
    (fun _ => [mkHLPosition "0" 0.5%float])
    (fun asset => if String.eqb (name asset) "BTC" then "0" else "1")
    (fun asset => if String.eqb (name asset) "BTC" then 65000.5%float else 3000.5%float).

(* ===================================================================== *)
(** ** backpack/funding_rate.py *)
(* ===================================================================== *)

(** The scan of [s.replace(old, new)] for a non-empty [old], left to right
    over non-overlapping occurrences; [skip] counts the characters of an
    occurrence that are still to be passed over. *)
Fixpoint replace_go (old new : string) (skip : nat) (s : string) : string :=
  match s with
  | EmptyString => EmptyString
  | String c r =>
      match skip with
      | S k => replace_go old new k r
      | O =>
          if PyStr.startswith s old
          then (new ++ replace_go old new (String.length old - 1) r)%string
          else String c (replace_go old new 0 r)
      end
  end.

(** [s.replace(old, new)] for a non-empty [old]. *)
Definition str_replace (old new s : string) : string := replace_go old new 0 s.

(** An element of the payload of [GET /api/v1/markPrices], as the loop of
    [get_backpack_funding_rates] reads it. *)
Record MarkPrice := mkMarkPrice {
  (* item.get("symbol"); [None] also for a symbol that is no string, on
     which [endswith] raises *)
  mark_symbol : option string;
  (* item.get("fundingRate"): [None], [Some None] for a value on which
     [float] raises, or the number *)
  mark_fundingRate : option (option float)
}.

Module BackpackFundingRates.

(** Lines 68-71: the key under which a symbol is stored. *)
Definition symbol_key (symbol : string) : string :=
  if PyStr.endswith symbol "_PERP" then str_replace "_PERP" "" symbol else symbol.

(** [get_backpack_funding_rates()], given the decoded payload; [None] is a
    failed request, a status other than 200, a body that is no JSON or a
    payload that is no list. *)
Definition get_backpack_funding_rates (data : option (list MarkPrice)) : RawRates :=
  match data with
  | None => []
  | Some data =>
      fold_left
        (fun rates item =>
           match mark_symbol item, mark_fundingRate item with
           | Some symbol, Some (Some fr_val) => PyDict.set (symbol_key symbol) fr_val rates
           | _, _ => rates
           end)
        data []
  end.

End BackpackFundingRates.

(* ===================================================================== *)
(** * Properties *)
(* ===================================================================== *)

(** ** Strings *)

Section StringFacts.

Import PyStr.

Lemma upper_char_idem (c : ascii) : upper_char (upper_char c) = upper_char c.
Proof.
  destruct c as [b0 b1 b2 b3 b4 b5 b6 b7].
  destruct b0, b1, b2, b3, b4, b5, b6, b7; reflexivity.
Qed.

Lemma upper_idem (s : string) : upper (upper s) = upper s.
Proof.
  induction s as [|c r IH]; simpl; [reflexivity|].
  now rewrite upper_char_idem, IH.
Qed.

Lemma upper_drop (n : nat) (s : string) : upper (drop n s) = drop n (upper s).
Proof.
  revert s; induction n as [|k IH]; intros [|c r]; simpl; auto.
Qed.

Lemma upper_take (n : nat) (s : string) : upper (take n s) = take n (upper s).
Proof.
  revert s; induction n as [|k IH]; intros [|c r]; simpl; auto.
  now rewrite IH.
Qed.

Lemma upper_fixed_drop (n : nat) (s : string) : upper s = s -> upper (drop n s) = drop n s.
Proof. intros H. now rewrite upper_drop, H. Qed.

Lemma upper_fixed_chop (s suf : string) : upper s = s -> upper (chop s suf) = chop s suf.
Proof. intros H. unfold chop. now rewrite upper_take, H. Qed.

Lemma upper_fixed_strip_first_suffix (sufs : list string) (s : string) :
  upper s = s -> upper (strip_first_suffix sufs s) = strip_first_suffix sufs s.
Proof.
  intros H. induction sufs as [|suf rest IH]; simpl; [exact H|].
  destruct (endswith s suf); [now apply upper_fixed_chop | exact IH].
Qed.

Lemma upper_fixed_strip_markers (s : string) :
  upper s = s -> upper (strip_markers s) = strip_markers s.
Proof.
  intros H. unfold strip_markers.
  apply upper_fixed_strip_first_suffix, upper_fixed_strip_first_suffix.
  destruct (startswith s "PERP_"); [now apply upper_fixed_drop | exact H].
Qed.

(** The strategy normaliser returns an upper-case string on every input
    that is not falsy, and the falsy input unchanged. *)
Lemma normalize_symbol_upper (s : string) :
  upper (FundingRateArbitrage._normalize_symbol s) = FundingRateArbitrage._normalize_symbol s.
Proof.
  unfold FundingRateArbitrage._normalize_symbol.
  destruct s as [|c r]; simpl falsy; cbv iota; [reflexivity|].
  apply upper_fixed_strip_markers, upper_idem.
Qed.

Lemma strip_first_suffix_none (sufs : list string) (s : string) :
  forallb (fun suf => negb (endswith s suf)) sufs = true ->
  strip_first_suffix sufs s = s.
Proof.
  induction sufs as [|suf rest IH]; simpl; [reflexivity|].
  intros H. apply andb_true_iff in H as [H1 H2].
  apply negb_true_iff in H1. rewrite H1. now apply IH.
Qed.

Lemma strip_markers_marker_free (s : string) :
  marker_free s = true -> strip_markers s = s.
Proof.
  unfold marker_free, strip_markers. intros H.
  apply andb_true_iff in H as [Hp Hs].
  apply negb_true_iff in Hp. rewrite Hp.
  rewrite forallb_app in Hs. apply andb_true_iff in Hs as [Hq Hperp].
  rewrite (strip_first_suffix_none _ _ Hq).
  now apply strip_first_suffix_none.
Qed.

(** An upper-case symbol without markers is a fixed point. *)
Lemma normalize_symbol_fixed (s : string) :
  upper s = s -> marker_free s = true ->
  FundingRateArbitrage._normalize_symbol s = s.
Proof.
  intros Hu Hm. unfold FundingRateArbitrage._normalize_symbol.
  destruct (falsy s); [reflexivity|].
  rewrite Hu. now apply strip_markers_marker_free.
Qed.

End StringFacts.

(** ** Symbol normalisation *)

(** C2, as amended. Normalising an already-normalised symbol returns it
    unchanged whenever the normalised symbol carries no further marker (no
    [PERP_] prefix and none of the suffixes [_USDC], [_USDT], [-USDC],
    [-USDT], [-PERP], [_PERP]): on such inputs
    [normalize(normalize(s)) = normalize(s)]. *)
Theorem normalize_idempotent_when_marker_free (s : string) :
  marker_free (FundingRateArbitrage._normalize_symbol s) = true ->
  FundingRateArbitrage._normalize_symbol (FundingRateArbitrage._normalize_symbol s)
  = FundingRateArbitrage._normalize_symbol s.
Proof.
  intros H. apply normalize_symbol_fixed; [apply normalize_symbol_upper | exact H].
Qed.

Lemma normalize_idempotent_when_marker_free_witness :
  FundingRateArbitrage._normalize_symbol "PERP_BTC_USDC" = "BTC"
  /\ FundingRateArbitrage._normalize_symbol
       (FundingRateArbitrage._normalize_symbol "PERP_BTC_USDC")
     = FundingRateArbitrage._normalize_symbol "PERP_BTC_USDC".
Proof.
  split; [reflexivity|].
  apply (normalize_idempotent_when_marker_free "PERP_BTC_USDC"). reflexivity.
Defined.

(** C2 fails as stated: one pass strips one quote suffix and one perpetual
    marker, in that order, so Backpack's native spelling needs two passes. *)
Lemma normalize_not_idempotent :
  FundingRateArbitrage._normalize_symbol "BTC_USDC_PERP" = "BTC_USDC"
  /\ FundingRateArbitrage._normalize_symbol
       (FundingRateArbitrage._normalize_symbol "BTC_USDC_PERP") = "BTC"
  /\ FundingRateArbitrage._normalize_symbol
       (FundingRateArbitrage._normalize_symbol "BTC_USDC_PERP")
     <> FundingRateArbitrage._normalize_symbol "BTC_USDC_PERP".
Proof.
  repeat split; try reflexivity. discriminate.
Qed.

Lemma falsy_upper (s : string) : PyStr.falsy (PyStr.upper s) = PyStr.falsy s.
Proof. destruct s; reflexivity. Qed.

(** C3, as amended. The strategy normaliser performs steps 2 to 4 on the
    upper-cased input and nothing else: the specified algorithm is the trim
    of step 1, then [_normalize_symbol], then the strip of step 5, then
    "none" for an empty result. The four examples hold, the empty input
    giving the empty (falsy) symbol. *)
Theorem normalize_is_spec_without_trim_and_strip :
  (forall s,
      normalize_spec s
      = truthy_symbol
          (PyStr.strip PyStr.is_sep
             (FundingRateArbitrage._normalize_symbol (PyStr.strip PyStr.is_space s))))
  /\ FundingRateArbitrage._normalize_symbol "PERP_ETH_USDC" = "ETH"
  /\ FundingRateArbitrage._normalize_symbol "BTC-PERP" = "BTC"
  /\ FundingRateArbitrage._normalize_symbol "SOL_USDT" = "SOL"
  /\ truthy_symbol (FundingRateArbitrage._normalize_symbol "") = None.
Proof.
  split; [|repeat split; reflexivity].
  intros s. unfold normalize_spec, FundingRateArbitrage._normalize_symbol, truthy_symbol.
  rewrite falsy_upper.
  destruct (PyStr.falsy (PyStr.strip PyStr.is_space s)) eqn:E.
  - destruct (PyStr.strip PyStr.is_space s); [reflexivity | discriminate].
  - reflexivity.
Qed.

(** C3 fails as stated: without steps 1 and 5 a trailing separator and
    surrounding blanks survive. *)
Lemma normalize_skips_trim_and_strip :
  truthy_symbol (FundingRateArbitrage._normalize_symbol "BTC-_USDC") = Some "BTC-"
  /\ normalize_spec "BTC-_USDC" = Some "BTC"
  /\ truthy_symbol (FundingRateArbitrage._normalize_symbol "BTC-_USDC")
     <> normalize_spec "BTC-_USDC"
  /\ truthy_symbol (FundingRateArbitrage._normalize_symbol " eth_usdc ") = Some " ETH_USDC "
  /\ normalize_spec " eth_usdc " = Some "ETH".
Proof. repeat split; try reflexivity. discriminate. Qed.

(** The specified algorithm is the normaliser of the Orderly fetcher, applied
    to the trimmed symbol of [_extract_symbol]. *)
Lemma orderly_normalizer_is_spec (s : string) :
  OrderlyFundingRates._normalize_symbol (OrderlyFundingRates._extract_symbol s)
  = normalize_spec s.
Proof.
  unfold OrderlyFundingRates._normalize_symbol, OrderlyFundingRates._extract_symbol,
    normalize_spec.
  now rewrite falsy_upper.
Qed.

(** ** Order placement *)

Section OrderPath.

Context {W : Type} (V : Venues W).

Lemma report_statuses_events (r : HLOrderResult) (sts : list HLStatus) (w : W) :
  Forall venue_event (events_of (HyperLiquidOrder.report_statuses r sts w)).
Proof.
  induction sts as [|st rest IH]; [constructor|].
  destruct st; cbn in *.
  - unfold bind, emit. cbn.
    destruct (HyperLiquidOrder.report_statuses r rest w) as [[[a|e] w1] l1] eqn:E;
      cbn in *; constructor; auto; exact I.
  - repeat constructor.
  - constructor.
Qed.

Lemma print_fills_events (sts : list HLStatus) (w : W) :
  Forall venue_event (events_of (print_fills sts w)).
Proof.
  induction sts as [|st rest IH]; [constructor|].
  destruct st; cbn in *.
  - unfold bind, emit. cbn.
    destruct (print_fills rest w) as [[[a|e] w1] l1] eqn:E;
      cbn in *; constructor; auto; exact I.
  - repeat constructor.
  - repeat constructor.
Qed.

Lemma hl_create_market_order_events (symbol : string) (q : float) (side : Side) (w : W) :
  Forall venue_event (events_of (HyperLiquidOrder.create_market_order V symbol q side w)).
Proof.
  unfold HyperLiquidOrder.create_market_order.
  destruct (find _ _) as [info|]; [|constructor].
  unfold bind, emit, ret. cbn.
  destruct (hl_submit V info q side w) as [[res|e] w1]; cbn; [|repeat constructor].
  destruct (String.eqb (status res) "ok"); cbn; [|repeat constructor].
  pose proof (report_statuses_events res (statuses res) w1) as H.
  destruct (HyperLiquidOrder.report_statuses res (statuses res) w1) as [[[early|e] w2] l2];
    cbn in *.
  - destruct early; cbn; rewrite app_nil_r; constructor; auto; exact I.
  - constructor; auto; exact I.
Qed.

Lemma venue_event_leg (dex symbol : string) (q : float) (side : Side) (l : list Event) :
  Forall venue_event l -> Forall (leg_event dex symbol q side) l.
Proof.
  apply Forall_impl. intros e He.
  destruct e as [d s q' sd| | |m]; cbn in *; auto; contradiction.
Qed.

Lemma venue_event_no_calls (l : list Event) :
  Forall venue_event l -> order_calls l = [].
Proof.
  induction 1 as [|e l He _ IH]; [reflexivity|].
  cbn. destruct e; cbn in *; try contradiction; exact IH.
Qed.

(** The shape of the events of [create_order]: for a supported venue one
    order call of the leg followed by venue events, for any other venue no
    order call at all. *)
Lemma create_order_shape (dex symbol : string) (q : float) (side : Side) (w : W) :
  exists l,
    Forall venue_event l
    /\ events_of (create_order V dex symbol q side w)
       = if supported dex then OrderCall dex symbol q side :: l else l.
Proof.
  unfold create_order, supported.
  destruct (String.eqb dex "orderly") eqn:Eo; cbn [orb].
  - unfold bind, emit, ret. cbn.
    unfold lift.
    destruct (orderly_create_market_order V symbol q side w) as [[reply|e] w1]; cbn;
      [|eexists; split; [|reflexivity]; constructor].
    destruct (orderly_mark_price V symbol w1) as [[response|e] w2]; cbn;
      [|eexists; split; [|reflexivity]; repeat constructor].
    destruct (success reply); cbn; [|eexists; split; [|reflexivity]; repeat constructor].
    destruct (order_id reply); cbn; [|eexists; split; [|reflexivity]; repeat constructor].
    destruct (order_quantity reply); cbn;
      [|eexists; split; [|reflexivity]; repeat constructor].
    destruct (mark_price response); cbn; eexists; split; try reflexivity;
      repeat constructor.
  - destruct (String.eqb dex "hyperliquid") eqn:Eh.
    + unfold bind at 1. unfold emit at 1. cbn.
      pose proof (hl_create_market_order_events symbol q side w) as H.
      unfold bind.
      destruct (HyperLiquidOrder.create_market_order V symbol q side w)
        as [[[ret_|e] w1] l1]; cbn in *.
      * destruct ret_ as [r|s].
        -- destruct (String.eqb (status r) "ok").
           ++ pose proof (print_fills_events (statuses r) w1) as Hp.
              destruct (print_fills (statuses r) w1) as [[res w2] l2]. cbn in *.
              eexists; split; [|reflexivity]. apply Forall_app; split; assumption.
           ++ cbn. eexists; split; [|reflexivity]. rewrite app_nil_r. assumption.
        -- cbn. eexists; split; [|reflexivity]. rewrite app_nil_r. assumption.
      * eexists; split; [|reflexivity]. assumption.
    + unfold bind, emit, ret. cbn. eexists; split; [|reflexivity].
      repeat constructor.
Qed.

Lemma create_order_footprint (dex symbol : string) (q : float) (side : Side) (w : W) :
  Forall (leg_event dex symbol q side) (events_of (create_order V dex symbol q side w)).
Proof.
  destruct (create_order_shape dex symbol q side w) as [l [Hl ->]].
  destruct (supported dex).
  - constructor; [cbn; auto | now apply venue_event_leg].
  - now apply venue_event_leg.
Qed.

Lemma create_order_calls (dex symbol : string) (q : float) (side : Side) (w : W) :
  order_calls (events_of (create_order V dex symbol q side w))
  = if supported dex then [OrderCall dex symbol q side] else [].
Proof.
  destruct (create_order_shape dex symbol q side w) as [l [Hl ->]].
  pose proof (venue_event_no_calls l Hl) as Hn.
  destruct (supported dex); [|exact Hn].
  unfold order_calls in *. cbn [filter is_order_call]. now rewrite Hn.
Qed.

(** An unsupported venue never fills. *)
Lemma create_order_true_supported (dex symbol : string) (q : float) (side : Side)
    (w w1 : W) (l1 : list Event) :
  create_order V dex symbol q side w = (Return true, w1, l1) -> supported dex = true.
Proof.
  unfold create_order, supported.
  destruct (String.eqb dex "orderly"); [reflexivity|].
  destruct (String.eqb dex "hyperliquid"); [reflexivity|].
  unfold bind, emit, ret. cbn. discriminate.
Qed.

Lemma leg_events_other_venue (dex other symbol : string) (q : float) (side : Side)
    (l : list Event) :
  String.eqb dex other = false ->
  Forall (leg_event dex symbol q side) l -> order_calls_to other l = [].
Proof.
  intros Hne. induction 1 as [|e l He _ IH]; [reflexivity|].
  cbn. destruct e as [d s q' sd| | |m]; cbn in *; try exact IH.
  destruct He as [-> _]. now rewrite Hne.
Qed.

Lemma leg_events_no_close_line (dex symbol : string) (q : float) (side : Side)
    (l : list Event) :
  Forall (leg_event dex symbol q side) l ->
  existsb (fun e => match e with Print CloseShortManually => true | _ => false end) l = false.
Proof.
  induction 1 as [|e l He _ IH]; [reflexivity|].
  cbn. rewrite IH. destruct e as [| | |[]]; cbn in *; try reflexivity; contradiction.
Qed.

End OrderPath.

Lemma leg_events_no_coordinator_line (dex symbol : string) (q : float) (side : Side)
    (l : list Event) :
  Forall (leg_event dex symbol q side) l -> existsb is_coordinator_line l = false.
Proof.
  induction 1 as [|e l He _ IH]; [reflexivity|].
  cbn. rewrite IH. destruct e as [| | |[]]; cbn in *; try reflexivity; contradiction.
Qed.

(** The Orderly leg raises where one of its two requests does, and where a
    reply that reports success lacks an entry the filled line prints. The
    mark price is fetched after the order was sent, so an exception of that
    request leaves a placed order behind. *)
Lemma orderly_leg_raises {W : Type} (V : Venues W)
    (symbol : string) (q : float) (side : Side) (w : W) :
  let run := create_order V "orderly" symbol q side w in
  match orderly_create_market_order V symbol q side w with
  | (Raise e, w1) => run = (Raise e, w1, [OrderCall "orderly" symbol q side])
  | (Return order_result, w1) =>
      match orderly_mark_price V symbol w1 with
      | (Raise e, w2) =>
          run = (Raise e, w2, [OrderCall "orderly" symbol q side; MarkPriceQuery symbol])
      | (Return response, w2) =>
          if success order_result then
            match order_id order_result, order_quantity order_result,
                  mark_price response with
            | Return id, Return filled, Return price =>
                run = (Return true, w2,
                       [OrderCall "orderly" symbol q side; MarkPriceQuery symbol;
                        Print (OrderlyFilled id filled price)])
            | Raise e, _, _ | Return _, Raise e, _ | Return _, Return _, Raise e =>
                run = (Raise e, w2,
                       [OrderCall "orderly" symbol q side; MarkPriceQuery symbol])
            end
          else
            run = (Return false, w2,
                   [OrderCall "orderly" symbol q side; MarkPriceQuery symbol])
      end
  end.
Proof.
  intros run. subst run. unfold create_order. cbn [String.eqb Ascii.eqb Bool.eqb].
  unfold bind, emit, ret, lift.
  destruct (orderly_create_market_order V symbol q side w) as [[reply|e] w1];
    [|reflexivity].
  destruct (orderly_mark_price V symbol w1) as [[response|e] w2]; [|reflexivity].
  destruct (success reply); [|reflexivity].
  destruct (order_id reply); [|reflexivity].
  destruct (order_quantity reply); [|reflexivity].
  destruct (mark_price response); reflexivity.
Qed.

(** ** The two-leg coordinator *)

(** Legs that [create_order] reports as [False]. The coordinator sells on
    the short venue first. When [create_order] returns [False] for that
    order, the run returns [False] after the abort line, and no order call
    reaches the long venue. When the short order is filled and
    [create_order] returns [False] for the buy on the long venue, the run
    returns [False] after telling the operator to close the short by hand,
    and the only order calls of the run are the sell on the short venue and
    the buy on the long venue. (The two venues differ, as the menu
    enforces.) A leg that fails by raising is not among these. *)
Lemma reported_failure_ends_the_run {W : Type} (V : Venues W)
    (symbol short long : string) (q : float) (w : W) :
  String.eqb short long = false ->
  (forall w1 l1,
      create_order V short symbol q SELL w = (Return false, w1, l1) ->
      let run := execute_funding_rate_arbitrage V symbol short long q w in
      run = (Return false, w1, l1 ++ [Print (OrderFailedAborting short)])
      /\ reported_state (result_of run) (events_of run) = Some ShortFailed
      /\ order_calls_to long (events_of run) = [])
  /\ (forall w1 l1 w2 l2,
        create_order V short symbol q SELL w = (Return true, w1, l1) ->
        create_order V long symbol q BUY w1 = (Return false, w2, l2) ->
        let run := execute_funding_rate_arbitrage V symbol short long q w in
        run = (Return false, w2,
               l1 ++ l2 ++ [Print (OrderFailedAborting long); Print CloseShortManually])
        /\ reported_state (result_of run) (events_of run) = Some LongFailedAfterShort
        /\ order_calls (events_of run)
           = OrderCall short symbol q SELL
             :: (if supported long then [OrderCall long symbol q BUY] else [])).
Proof.
  intros Hne. split.
  - intros w1 l1 Hs run.
    assert (Hrun : run = (Return false, w1, l1 ++ [Print (OrderFailedAborting short)])).
    { subst run. unfold execute_funding_rate_arbitrage, bind at 1. rewrite Hs.
      reflexivity. }
    pose proof (create_order_footprint V short symbol q SELL w) as Hf.
    rewrite Hs in Hf. cbn in Hf.
    rewrite Hrun. cbn [result_of events_of fst snd]. repeat split.
    + unfold reported_state. rewrite existsb_app.
      rewrite (leg_events_no_close_line _ _ _ _ _ Hf). reflexivity.
    + unfold order_calls_to. rewrite filter_app. cbn.
      rewrite app_nil_r. exact (leg_events_other_venue _ _ _ _ _ _ Hne Hf).
  - intros w1 l1 w2 l2 Hs Hl run.
    assert (Hrun : run = (Return false, w2,
              l1 ++ l2 ++ [Print (OrderFailedAborting long); Print CloseShortManually])).
    { subst run. unfold execute_funding_rate_arbitrage, bind at 1. rewrite Hs.
      cbn [negb]. unfold bind at 1. rewrite Hl. reflexivity. }
    rewrite Hrun. cbn [result_of events_of fst snd]. repeat split.
    + unfold reported_state. rewrite !existsb_app. cbn.
      now rewrite !orb_true_r.
    + pose proof (create_order_calls V short symbol q SELL w) as Hc1.
      rewrite Hs, (create_order_true_supported V _ _ _ _ _ _ _ Hs) in Hc1.
      pose proof (create_order_calls V long symbol q BUY w1) as Hc2.
      rewrite Hl in Hc2. cbn [events_of snd] in Hc1, Hc2.
      unfold order_calls in *. rewrite !filter_app, Hc1, Hc2. cbn.
      now rewrite app_nil_r.
Qed.

Lemma reported_failure_ends_the_run_example :
  (let run := execute_funding_rate_arbitrage (demo_venues false hl_filled)
                "BTC" "orderly" "hyperliquid" 2%float tt in
   reported_state (result_of run) (events_of run) = Some ShortFailed
   /\ order_calls_to "hyperliquid" (events_of run) = [])
  /\ (let run := execute_funding_rate_arbitrage (demo_venues true hl_rejected)
                   "BTC" "orderly" "hyperliquid" 2%float tt in
      reported_state (result_of run) (events_of run) = Some LongFailedAfterShort
      /\ order_calls (events_of run)
         = [OrderCall "orderly" "BTC" 2%float SELL; OrderCall "hyperliquid" "BTC" 2%float BUY]).
Proof.
  split.
  - destruct (reported_failure_ends_the_run (demo_venues false hl_filled)
                "BTC" "orderly" "hyperliquid" 2%float tt eq_refl) as [Ha _].
    destruct (Ha tt _ eq_refl) as [_ [H1 H2]]. split; [exact H1 | exact H2].
  - destruct (reported_failure_ends_the_run (demo_venues true hl_rejected)
                "BTC" "orderly" "hyperliquid" 2%float tt eq_refl) as [_ Hb].
    destruct (Hb tt _ tt _ eq_refl eq_refl) as [_ [H1 H2]]. split; [exact H1 | exact H2].
Defined.

(** C1 does not hold of the code: a long leg that fails on Hyperliquid
    after a filled short does not end the run in LongFailedAfterShort. When
    the exchange answers the buy "ok" with an error status (a rejected
    order), the adapter prints the error and returns the string ["ok"],
    [create_order] raises AttributeError on it, and the coordinator raises:
    it returns no value and prints neither the abort line nor the request
    to close the short by hand, although the sell on the short venue has
    been placed and filled. *)
Theorem rejected_long_leg_escapes_coordinator {W : Type} (V : Venues W)
    (symbol short : string) (q : float) (w w1 w2 : W) (l1 : list Event)
    (symbol_info : Asset) (order_result : HLOrderResult) (error : string)
    (rest : list HLStatus) :
  create_order V short symbol q SELL w = (Return true, w1, l1) ->
  find (fun asset => String.eqb (name asset) symbol) (hl_universe V w1) = Some symbol_info ->
  hl_submit V symbol_info q BUY w1 = (Return order_result, w2) ->
  status order_result = "ok" ->
  statuses order_result = Errored error :: rest ->
  let run := execute_funding_rate_arbitrage V symbol short "hyperliquid" q w in
  run = (Raise (AttributeError "'str' object has no attribute 'get'"), w2,
         l1 ++ [OrderCall "hyperliquid" symbol q BUY; ExchangeSubmit symbol q BUY;
                Print (HyperliquidError (Some error))])
  /\ reported_state (result_of run) (events_of run) = None
  /\ existsb is_coordinator_line (events_of run) = false
  /\ order_calls (events_of run)
     = [OrderCall short symbol q SELL; OrderCall "hyperliquid" symbol q BUY].
Proof.
  intros Hs Hf Hsub Hst Hsts run.
  assert (Hl : create_order V "hyperliquid" symbol q BUY w1
               = (Raise (AttributeError "'str' object has no attribute 'get'"), w2,
                  [OrderCall "hyperliquid" symbol q BUY; ExchangeSubmit symbol q BUY;
                   Print (HyperliquidError (Some error))])).
  { unfold create_order. cbn [String.eqb Ascii.eqb Bool.eqb].
    unfold HyperLiquidOrder.create_market_order, bind, emit, ret, raise.
    rewrite Hf, Hsub, Hst, Hsts. reflexivity. }
  assert (Hrun : run = (Raise (AttributeError "'str' object has no attribute 'get'"), w2,
                        l1 ++ [OrderCall "hyperliquid" symbol q BUY;
                               ExchangeSubmit symbol q BUY;
                               Print (HyperliquidError (Some error))])).
  { subst run. unfold execute_funding_rate_arbitrage, bind at 1. rewrite Hs.
    cbn [negb]. unfold bind at 1. now rewrite Hl. }
  rewrite Hrun. cbn [result_of events_of fst snd reported_state].
  pose proof (create_order_footprint V short symbol q SELL w) as Hfoot.
  pose proof (create_order_calls V short symbol q SELL w) as Hcalls.
  rewrite Hs in Hfoot, Hcalls. cbn [events_of snd] in Hfoot, Hcalls.
  rewrite (create_order_true_supported V _ _ _ _ _ _ _ Hs) in Hcalls.
  repeat split.
  - rewrite existsb_app, (leg_events_no_coordinator_line _ _ _ _ _ Hfoot). reflexivity.
  - unfold order_calls in *. rewrite filter_app, Hcalls. reflexivity.
Qed.

Lemma rejected_long_leg_escapes_coordinator_witness :
  execute_funding_rate_arbitrage
    (demo_venues true (mkHLOrderResult "ok" [Errored "Insufficient margin"]))
    "BTC" "orderly" "hyperliquid" 2%float tt
  = (Raise (AttributeError "'str' object has no attribute 'get'"), tt,
     [OrderCall "orderly" "BTC" 2%float SELL; MarkPriceQuery "BTC";
      Print (OrderlyFilled "1001" "2" "65000.5");
      OrderCall "hyperliquid" "BTC" 2%float BUY; ExchangeSubmit "BTC" 2%float BUY;
      Print (HyperliquidError (Some "Insufficient margin"))]).
Proof.
  exact (proj1 (rejected_long_leg_escapes_coordinator
                  (demo_venues true (mkHLOrderResult "ok" [Errored "Insufficient margin"]))
                  "BTC" "orderly" 2%float tt tt tt _ (mkAsset "BTC" "65000.5")
                  (mkHLOrderResult "ok" [Errored "Insufficient margin"])
                  "Insufficient margin" [] eq_refl eq_refl eq_refl eq_refl eq_refl)).
Defined.


(** C9 does not hold of the code: for a symbol missing from the Hyperliquid
    universe, [HyperLiquidOrder.create_market_order] raises [ValueError],
    [create_order] does not catch it, and the coordinator raises instead of
    reporting ShortFailed. Nothing is printed; the only event is the order
    call itself. *)
Theorem hyperliquid_unknown_symbol_raises {W : Type} (V : Venues W)
    (symbol long : string) (q : float) (w : W) :
  find (fun asset => String.eqb (name asset) symbol) (hl_universe V w) = None ->
  let e := ValueError ("Symbol '" ++ symbol ++ "' not found in the Hyperliquid universe.") in
  create_order V "hyperliquid" symbol q SELL w
  = (Raise e, w, [OrderCall "hyperliquid" symbol q SELL])
  /\ execute_funding_rate_arbitrage V symbol "hyperliquid" long q w
     = (Raise e, w, [OrderCall "hyperliquid" symbol q SELL])
  /\ reported_state
       (result_of (execute_funding_rate_arbitrage V symbol "hyperliquid" long q w))
       (events_of (execute_funding_rate_arbitrage V symbol "hyperliquid" long q w))
     = None.
Proof.
  intros Hfind e.
  assert (Hc : create_order V "hyperliquid" symbol q SELL w
               = (Raise e, w, [OrderCall "hyperliquid" symbol q SELL])).
  { unfold create_order. cbn [String.eqb Ascii.eqb Bool.eqb].
    unfold bind at 1. unfold emit at 1. cbn.
    unfold bind at 1. unfold HyperLiquidOrder.create_market_order.
    rewrite Hfind. reflexivity. }
  assert (He : execute_funding_rate_arbitrage V symbol "hyperliquid" long q w
               = (Raise e, w, [OrderCall "hyperliquid" symbol q SELL])).
  { unfold execute_funding_rate_arbitrage, bind at 1. now rewrite Hc. }
  rewrite He. repeat split; auto.
Qed.

Lemma hyperliquid_unknown_symbol_raises_witness :
  result_of (execute_funding_rate_arbitrage (demo_venues true hl_filled)
               "DOGE" "hyperliquid" "orderly" 2%float tt)
  = Raise (ValueError "Symbol 'DOGE' not found in the Hyperliquid universe.").
Proof.
  destruct (hyperliquid_unknown_symbol_raises (demo_venues true hl_filled)
              "DOGE" "orderly" 2%float tt eq_refl) as [_ [H _]].
  rewrite H. reflexivity.
Defined.

(** ** Dictionaries *)

Lemma str_in_In (x : string) (xs : list string) : str_in x xs = true <-> In x xs.
Proof.
  unfold str_in. rewrite existsb_exists. split.
  - intros [y [Hy He]]. apply String.eqb_eq in He. now subst.
  - intros H. exists x. split; [exact H | apply String.eqb_refl].
Qed.

Lemma str_in_false (x : string) (xs : list string) : str_in x xs = false <-> ~ In x xs.
Proof.
  rewrite <- str_in_In. destruct (str_in x xs); split; intros H; congruence.
Qed.

Lemma distinct_NoDup (xs : list string) : distinct xs = true <-> NoDup xs.
Proof.
  induction xs as [|x r IH]; cbn.
  - split; [constructor | reflexivity].
  - rewrite andb_true_iff, negb_true_iff, str_in_false, IH. split.
    + intros [H1 H2]. now constructor.
    + intros H. inversion H; subst. now split.
Qed.

Lemma dict_set_fresh {V : Type} (k : string) (v : V) (d : list (string * V)) :
  ~ In k (map fst d) -> PyDict.set k v d = d ++ [(k, v)].
Proof.
  induction d as [|[k' v'] r IH]; cbn; intros H; [reflexivity|].
  destruct (String.eqb_spec k' k) as [->|Hne].
  - exfalso. apply H. now left.
  - rewrite IH; [reflexivity|]. intros Hin. apply H. now right.
Qed.

Lemma dict_get_app {V : Type} (k : string) (d e : list (string * V)) :
  PyDict.get k (d ++ e)
  = match PyDict.get k d with Some v => Some v | None => PyDict.get k e end.
Proof.
  induction d as [|[k' v'] r IH]; cbn; [reflexivity|].
  destruct (String.eqb k' k); [reflexivity | exact IH].
Qed.

Lemma dict_get_absent {V : Type} (k : string) (d : list (string * V)) :
  ~ In k (map fst d) -> PyDict.get k d = None.
Proof.
  induction d as [|[k' v'] r IH]; cbn; intros H; [reflexivity|].
  destruct (String.eqb_spec k' k) as [->|Hne].
  - exfalso. apply H. now left.
  - apply IH. intros Hin. apply H. now right.
Qed.

Lemma dict_get_map {A V : Type} (key : A -> string) (g : A -> V) (l : list A) (a : A) :
  NoDup (map key l) -> In a l ->
  PyDict.get (key a) (map (fun x => (key x, g x)) l) = Some (g a).
Proof.
  induction l as [|x r IH]; cbn; intros Hnd Hin; [contradiction|].
  inversion Hnd as [|? ? Hx Hr]; subst.
  destruct Hin as [->|Hin].
  - now rewrite String.eqb_refl.
  - destruct (String.eqb_spec (key x) (key a)) as [He|Hne].
    + exfalso. apply Hx. rewrite He. now apply in_map.
    + now apply IH.
Qed.

Lemma dict_set_keys {V : Type} (k : string) (v : V) (d : list (string * V)) :
  NoDup (map fst d) -> NoDup (map fst (PyDict.set k v d))
  /\ forall x, In x (map fst (PyDict.set k v d)) <-> x = k \/ In x (map fst d).
Proof.
  induction d as [|[k' v'] r IH]; cbn; intros Hnd.
  - split; [repeat constructor; auto | intros x; split; intros H; intuition].
  - inversion Hnd as [|? ? Hx Hr]; subst.
    destruct (String.eqb_spec k' k) as [->|Hne]; cbn.
    + split; [now constructor | intros x; split; intros H; intuition].
    + destruct (IH Hr) as [IH1 IH2]. split.
      * constructor; [|exact IH1]. rewrite IH2. intros [He|Hin]; [congruence|auto].
      * intros x. rewrite IH2. split; intros H; intuition.
Qed.

(** ** The rates table *)

Section RatesTable.

Import FundingRateArbitrage.

Variable self : DexRates.
Hypothesis names_ok : venue_names_ok self = true.

Lemma venue_names_distinct : NoDup (map fst self).
Proof.
  unfold venue_names_ok in names_ok. apply andb_true_iff in names_ok as [H _].
  now apply distinct_NoDup.
Qed.

Lemma venue_names_not_service (c : string) :
  In c (map fst self) -> ~ In c service_cols.
Proof.
  unfold venue_names_ok in names_ok. apply andb_true_iff in names_ok as [_ H].
  rewrite forallb_forall in H. intros Hin. specialize (H c Hin).
  apply negb_true_iff in H. now apply str_in_false.
Qed.

Lemma service_not_venue (c : string) :
  In c service_cols -> ~ In c (map fst self).
Proof. intros Hs Hv. exact (venue_names_not_service c Hv Hs). Qed.

Lemma venue_cells_keys (sym : string) : map fst (venue_cells self sym) = map fst self.
Proof. unfold venue_cells. rewrite map_map. reflexivity. Qed.

(** The three assignments of [create_rates_table] on a row of the compiled
    frame give the row written out in [table_row]. *)
Lemma assigned_row (sym : string) :
  let r0 : Row := (sym, venue_cells self sym) in
  let r1 : Row := (fst r0, PyDict.set "MaxRate" (nanmax (map snd (snd r0))) (snd r0)) in
  let r2 : Row := (fst r1, PyDict.set "MinRate" (nanmin (map snd (snd r1))) (snd r1)) in
  let r3 : Row :=
    (fst r2, PyDict.set "Difference"
               (PrimFloat.sub (cell_of "MaxRate" r2) (cell_of "MinRate" r2)) (snd r2)) in
  r3 = table_row self sym.
Proof.
  cbv zeta. cbn [fst snd].
  assert (Hmax : ~ In "MaxRate" (map fst (venue_cells self sym))).
  { rewrite venue_cells_keys. apply service_not_venue. cbn. auto. }
  assert (Hmin : ~ In "MinRate" (map fst (venue_cells self sym))).
  { rewrite venue_cells_keys. apply service_not_venue. cbn. auto. }
  assert (Hdif : ~ In "Difference" (map fst (venue_cells self sym))).
  { rewrite venue_cells_keys. apply service_not_venue. cbn. auto 6. }
  rewrite (dict_set_fresh "MaxRate" _ _ Hmax).
  set (mx := nanmax (map snd (venue_cells self sym))).
  set (c1 := venue_cells self sym ++ [("MaxRate", mx)]).
  assert (H1 : ~ In "MinRate" (map fst c1)).
  { unfold c1. rewrite map_app, in_app_iff. cbn. intros [H|[H|[]]]; [auto | discriminate]. }
  rewrite (dict_set_fresh "MinRate" _ _ H1).
  set (mn := nanmin (map snd c1)).
  set (c2 := c1 ++ [("MinRate", mn)]).
  assert (H2 : ~ In "Difference" (map fst c2)).
  { unfold c2, c1. rewrite !map_app, !in_app_iff. cbn.
    intros [[H|[H|[]]]|[H|[]]]; [auto | discriminate | discriminate]. }
  rewrite (dict_set_fresh "Difference" _ _ H2).
  assert (Hgmx : cell_of "MaxRate" (sym, c2) = mx).
  { unfold cell_of, c2, c1. cbn [snd]. rewrite !dict_get_app.
    rewrite (dict_get_absent _ _ Hmax). reflexivity. }
  assert (Hgmn : cell_of "MinRate" (sym, c2) = mn).
  { unfold cell_of, c2, c1. cbn [snd]. rewrite !dict_get_app.
    rewrite (dict_get_absent _ _ Hmin). reflexivity. }
  rewrite Hgmx, Hgmn. unfold table_row. cbv zeta. fold mx. fold c1. fold mn.
  unfold c2, c1. rewrite <- !app_assoc. reflexivity.
Qed.

Lemma compile_rates_columns (s : DexRates) : columns (compile_rates s) = map fst s.
Proof. destruct s; reflexivity. Qed.

Lemma compile_rates_rows (s : DexRates) :
  rows (compile_rates s) = map (fun sym => (sym, venue_cells s sym)) (concat_index s).
Proof. destruct s; reflexivity. Qed.

Lemma filter_venue_columns (extra : list string) :
  Forall (fun c => In c service_cols) extra ->
  filter (fun c => negb (str_in c service_cols)) (map fst self ++ extra) = map fst self.
Proof.
  intros Hex. rewrite filter_app.
  assert (H1 : filter (fun c => negb (str_in c service_cols)) (map fst self) = map fst self).
  { apply forallb_filter_id. apply forallb_forall. intros c Hc.
    apply negb_true_iff, str_in_false. now apply venue_names_not_service. }
  assert (H2 : filter (fun c => negb (str_in c service_cols)) extra = []).
  { induction Hex as [|c l Hc _ IH]; [reflexivity|]. cbn [filter].
    apply str_in_In in Hc. rewrite Hc. exact IH. }
  now rewrite H1, H2, app_nil_r.
Qed.

(** The rows of the rates table: the written-out rows of the symbols that
    at least two venue columns hold, in index order. *)
Lemma rates_table_rows :
  rows (rates_table self)
  = filter (fun r => (2 <=? non_na_count (map fst self) r)%nat)
      (map (table_row self) (concat_index self)).
Proof.
  unfold rates_table, create_rates_table.
  pose proof (compile_rates_columns self) as Hc.
  pose proof (compile_rates_rows self) as Hr.
  set (df := compile_rates self) in *.
  destruct (df_empty df) eqn:E.
  - cbn [rows empty_frame]. unfold df_empty in E. rewrite Hc, Hr in E.
    destruct (map fst self) eqn:Em.
    + apply map_eq_nil in Em. rewrite Em. reflexivity.
    + destruct (concat_index self); [reflexivity | discriminate].
  - assert (Hne : map fst self <> []).
    { intros Em. unfold df_empty in E. rewrite Hc, Em in E. discriminate. }
    set (df1 := assign "MaxRate" _ df).
    set (df2 := assign "MinRate" _ df1).
    set (df3 := assign "Difference" _ df2).
    assert (Hc1 : columns df1 = map fst self ++ ["MaxRate"]).
    { unfold df1, assign. cbn [columns]. rewrite Hc.
      destruct (str_in "MaxRate" (map fst self)) eqn:Ein; [|reflexivity].
      apply str_in_In in Ein. exfalso. revert Ein. apply service_not_venue. cbn; auto. }
    assert (Hc2 : columns df2 = map fst self ++ ["MaxRate"; "MinRate"]).
    { unfold df2, assign. cbn [columns]. rewrite Hc1.
      destruct (str_in "MinRate" _) eqn:Ein; [|now rewrite <- app_assoc].
      apply str_in_In, in_app_iff in Ein. exfalso. destruct Ein as [Ein|[Ein|[]]].
      - revert Ein. apply service_not_venue. cbn; auto.
      - discriminate. }
    assert (Hc3 : columns df3 = map fst self ++ ["MaxRate"; "MinRate"; "Difference"]).
    { unfold df3, assign. cbn [columns]. rewrite Hc2.
      destruct (str_in "Difference" _) eqn:Ein; [|now rewrite <- app_assoc].
      apply str_in_In, in_app_iff in Ein. exfalso. destruct Ein as [Ein|[Ein|[Ein|[]]]].
      - revert Ein. apply service_not_venue. cbn; auto 6.
      - discriminate.
      - discriminate. }
    assert (Hd : _dex_columns df3 = map fst self).
    { unfold _dex_columns. rewrite Hc3. apply filter_venue_columns.
      repeat (apply Forall_cons; [cbn; auto 6|]). apply Forall_nil. }
    rewrite Hd. destruct (map fst self) eqn:Em; [congruence|]. rewrite <- Em.
    cbn [rows select]. f_equal.
    unfold df3, df2, df1, assign. cbn [rows]. rewrite Hr, !map_map.
    apply map_ext. intros sym. exact (assigned_row sym).
Qed.

Lemma rates_table_frame :
  rates_table self = empty_frame
  \/ (map fst self <> []
      /\ columns (rates_table self)
         = map fst self ++ ["MaxRate"; "MinRate"; "Difference"]).
Proof.
  unfold rates_table, create_rates_table.
  pose proof (compile_rates_columns self) as Hc.
  set (df := compile_rates self) in *.
  destruct (df_empty df) eqn:E; [now left | right].
  assert (Hne : map fst self <> []).
  { intros Em. unfold df_empty in E. rewrite Hc, Em in E. discriminate. }
  split; [exact Hne|].
  set (df1 := assign "MaxRate" _ df).
  set (df2 := assign "MinRate" _ df1).
  set (df3 := assign "Difference" _ df2).
  assert (Hc3 : columns df3 = map fst self ++ ["MaxRate"; "MinRate"; "Difference"]).
  { unfold df3, df2, df1, assign. cbn [columns]. rewrite Hc.
    destruct (str_in "MaxRate" (map fst self)) eqn:E1.
    { apply str_in_In in E1. exfalso. revert E1. apply service_not_venue. cbn; auto. }
    destruct (str_in "MinRate" _) eqn:E2.
    { apply str_in_In, in_app_iff in E2. exfalso. destruct E2 as [E2|[E2|[]]].
      - revert E2. apply service_not_venue. cbn; auto.
      - discriminate. }
    destruct (str_in "Difference" _) eqn:E3.
    { apply str_in_In in E3. rewrite !in_app_iff in E3. exfalso.
      destruct E3 as [[E3|[E3|[]]]|[E3|[]]].
      - revert E3. apply service_not_venue. cbn; auto 6.
      - discriminate.
      - discriminate. }
    now rewrite <- !app_assoc. }
  assert (Hd : _dex_columns df3 = map fst self).
  { unfold _dex_columns. rewrite Hc3. apply filter_venue_columns.
    repeat (apply Forall_cons; [cbn; auto 6|]). apply Forall_nil. }
  rewrite Hd. destruct (map fst self) eqn:Em; [congruence|].
  cbn [columns select]. exact Hc3.
Qed.

Lemma rates_table_dex_columns :
  rates_table self <> empty_frame -> _dex_columns (rates_table self) = map fst self.
Proof.
  intros Hne. destruct rates_table_frame as [H|[_ H]]; [contradiction|].
  unfold _dex_columns. rewrite H. apply filter_venue_columns.
  repeat (apply Forall_cons; [cbn; auto 6|]). apply Forall_nil.
Qed.

Lemma notna_series_at (rates : RawRates) (sym : string) :
  notna (series_at rates sym) = reports rates sym.
Proof.
  unfold series_at, reports. destruct (PyDict.get sym rates); reflexivity.
Qed.

(** A venue cell of a table row is that venue's rate for the symbol, NaN
    where the venue has none. *)
Lemma cell_of_venue (dr : string * RawRates) (sym : string) :
  In dr self -> cell_of (fst dr) (table_row self sym) = series_at (snd dr) sym.
Proof.
  intros Hin. unfold cell_of, table_row. cbv zeta. cbn [snd].
  rewrite dict_get_app. unfold venue_cells.
  rewrite (dict_get_map fst (fun dr => series_at (snd dr) sym) self dr
             venue_names_distinct Hin).
  reflexivity.
Qed.

Lemma filter_map_comm {A B : Type} (p : B -> bool) (f : A -> B) (l : list A) :
  filter p (map f l) = map f (filter (fun a => p (f a)) l).
Proof.
  induction l as [|a r IH]; cbn; [reflexivity|].
  destruct (p (f a)); cbn; now rewrite IH.
Qed.

Lemma non_na_count_table_row (sym : string) :
  non_na_count (map fst self) (table_row self sym) = coverage self sym.
Proof.
  unfold non_na_count, coverage.
  rewrite filter_map_comm, length_map. f_equal.
  apply filter_ext_in. intros dr Hin.
  now rewrite (cell_of_venue dr sym Hin), notna_series_at.
Qed.

(** The rows of the rates table are the written-out rows of the symbols
    with coverage at least two, in index order. *)
Lemma rates_table_rows_coverage :
  rows (rates_table self)
  = map (table_row self)
      (filter (fun sym => (2 <=? coverage self sym)%nat) (concat_index self)).
Proof.
  rewrite rates_table_rows, filter_map_comm. f_equal.
  apply filter_ext. intros sym. now rewrite non_na_count_table_row.
Qed.

Lemma rates_table_symbols :
  symbols (rates_table self)
  = filter (fun sym => (2 <=? coverage self sym)%nat) (concat_index self).
Proof.
  unfold symbols. rewrite rates_table_rows_coverage, map_map. cbn. apply map_id.
Qed.

End RatesTable.

(** ** The row index *)

Lemma index_union_In (acc idx : list string) (x : string) :
  In x (FundingRateArbitrage.index_union acc idx) <-> In x acc \/ In x idx.
Proof.
  unfold FundingRateArbitrage.index_union.
  revert acc. induction idx as [|k r IH]; intros acc; cbn.
  - tauto.
  - rewrite IH. destruct (str_in k acc) eqn:E.
    + apply str_in_In in E. split; [tauto|]. intros [H|[<-|H]]; auto.
    + rewrite in_app_iff. cbn. tauto.
Qed.

Lemma index_union_NoDup (acc idx : list string) :
  NoDup acc -> NoDup (FundingRateArbitrage.index_union acc idx).
Proof.
  unfold FundingRateArbitrage.index_union.
  revert acc. induction idx as [|k r IH]; intros acc Hnd; cbn; [exact Hnd|].
  apply IH. destruct (str_in k acc) eqn:E; [exact Hnd|].
  apply str_in_false in E. apply NoDup_app; [exact Hnd | repeat constructor; auto |].
  intros x Hx [<-|[]]. contradiction.
Qed.

Lemma concat_index_fold_In (self : DexRates) (acc : list string) (x : string) :
  In x (fold_left (fun a dr => FundingRateArbitrage.index_union a (map fst (snd dr))) self acc)
  <-> In x acc \/ exists dr, In dr self /\ In x (map fst (snd dr)).
Proof.
  revert acc. induction self as [|dr r IH]; intros acc; cbn.
  - split; [auto | intros [H|[dr [[] _]]]; exact H].
  - rewrite IH, index_union_In. split.
    + intros [[H|H]|[dr' [H1 H2]]]; eauto.
    + intros [H|[dr' [[<-|H1] H2]]]; eauto.
Qed.

Lemma concat_index_In (self : DexRates) (x : string) :
  In x (FundingRateArbitrage.concat_index self)
  <-> exists dr, In dr self /\ In x (map fst (snd dr)).
Proof.
  unfold FundingRateArbitrage.concat_index. rewrite concat_index_fold_In.
  cbn. tauto.
Qed.

Lemma concat_index_NoDup (self : DexRates) : NoDup (FundingRateArbitrage.concat_index self).
Proof.
  unfold FundingRateArbitrage.concat_index.
  assert (H : forall acc, NoDup acc ->
            NoDup (fold_left (fun a dr => FundingRateArbitrage.index_union a (map fst (snd dr)))
                     self acc)).
  { induction self as [|dr r IH]; intros acc Hnd; cbn; [exact Hnd|].
    apply IH. now apply index_union_NoDup. }
  apply H. constructor.
Qed.

Lemma dict_get_Some_In {V : Type} (k : string) (v : V) (d : list (string * V)) :
  PyDict.get k d = Some v -> In k (map fst d).
Proof.
  induction d as [|[k' v'] r IH]; cbn; [discriminate|].
  destruct (String.eqb_spec k' k) as [->|Hne]; [auto|]. intros H. right. auto.
Qed.

Lemma reports_In (rates : RawRates) (sym : string) :
  reports rates sym = true -> In sym (map fst rates).
Proof.
  unfold reports. destruct (PyDict.get sym rates) as [r|] eqn:E; [|discriminate].
  intros _. exact (dict_get_Some_In _ _ _ E).
Qed.

Lemma coverage_pos_In (self : DexRates) (sym : string) :
  1 <= coverage self sym -> In sym (FundingRateArbitrage.concat_index self).
Proof.
  unfold coverage. intros H. apply concat_index_In.
  destruct (filter (fun dr => reports (snd dr) sym) self) as [|dr l] eqn:E;
    [cbn in H; lia|].
  assert (Hin : In dr (filter (fun dr => reports (snd dr) sym) self)) by (rewrite E; now left).
  apply filter_In in Hin as [Hin Hr]. exists dr. split; [exact Hin | now apply reports_In].
Qed.

(** ** The display modes *)

Lemma display_rates_table_symbols (self : DexRates) :
  venue_names_ok self = true ->
  shown_rows (FundingRateArbitrage.display_rates_table (rates_table self))
  = rows (rates_table self).
Proof.
  intros Hok. unfold FundingRateArbitrage.display_rates_table.
  destruct (df_empty (rates_table self)) eqn:E; [|reflexivity].
  cbn [shown_rows]. destruct (rates_table_frame self Hok) as [->|[Hne Hc]]; [reflexivity|].
  unfold df_empty in E. rewrite Hc in E.
  destruct (map fst self); [congruence|].
  cbn in E. destruct (rows (rates_table self)); [reflexivity | discriminate].
Qed.

Lemma firstn_In {A : Type} (n : nat) (l : list A) (x : A) : In x (firstn n l) -> In x l.
Proof.
  revert l; induction n as [|k IH]; intros [|a r]; cbn; try tauto.
  intros [H|H]; auto.
Qed.

(** A row shown by the global top-N passed the mask of the method. *)
Lemma top_all_rows (sort_values : Sorter) (df : DataFrame) (top_n : nat) (r : Row) :
  sorter_ok sort_values ->
  In r (shown_rows
          (FundingRateArbitrage.display_top_rates_differences_from_all_DEXs
             sort_values df top_n)) ->
  In r (rows df)
  /\ (2 <=? FundingRateArbitrage.non_na_count (FundingRateArbitrage._dex_columns df) r)%nat = true
  /\ FundingRateArbitrage.nonzero_difference r = true.
Proof.
  intros Hs. unfold FundingRateArbitrage.display_top_rates_differences_from_all_DEXs.
  destruct (df_empty df); [intros []|].
  destruct (FundingRateArbitrage._dex_columns df) as [|c cs] eqn:Ed; [intros []|].
  match goal with |- context [df_empty ?t] => destruct (df_empty t) end; [intros []|].
  cbn [shown_rows head rows]. intros Hin.
  apply firstn_In in Hin.
  destruct (Hs "Difference" false
              (select (fun r => (2 <=? FundingRateArbitrage.non_na_count (c :: cs) r)%nat
                                && FundingRateArbitrage.nonzero_difference r) df)) as [_ [Hp _]].
  apply (Permutation_in _ Hp) in Hin. cbn [rows select] in Hin.
  apply filter_In in Hin as [Hin Hm]. apply andb_true_iff in Hm as [H1 H2].
  auto.
Qed.

(** A row shown by the anchored top-N passed the mask of the method. *)
Lemma top_orderly_rows (sort_values : Sorter) (df : DataFrame) (top_n : nat) (r : Row) :
  sorter_ok sort_values ->
  In r (shown_rows
          (FundingRateArbitrage.display_top_rates_differences_from_Orderly
             sort_values df top_n)) ->
  In r (rows df)
  /\ notna (cell_of "orderly" r) = true
  /\ (2 <=? FundingRateArbitrage.non_na_count (FundingRateArbitrage._dex_columns df) r)%nat = true
  /\ FundingRateArbitrage.nonzero_difference r = true.
Proof.
  intros Hs. unfold FundingRateArbitrage.display_top_rates_differences_from_Orderly.
  destruct (df_empty df || negb (str_in "orderly" (columns df))); [intros []|].
  destruct (FundingRateArbitrage._dex_columns df) as [|c cs] eqn:Ed; [intros []|].
  match goal with |- context [df_empty ?t] => destruct (df_empty t) end; [intros []|].
  cbn [shown_rows head rows]. intros Hin.
  apply firstn_In in Hin.
  destruct (Hs "Difference" false
              (select (fun r => notna (cell_of "orderly" r)
                                && (2 <=? FundingRateArbitrage.non_na_count (c :: cs) r)%nat
                                && FundingRateArbitrage.nonzero_difference r) df)) as [_ [Hp _]].
  apply (Permutation_in _ Hp) in Hin. cbn [rows select] in Hin.
  apply filter_In in Hin as [Hin Hm].
  apply andb_true_iff in Hm as [Hm H3]. apply andb_true_iff in Hm as [H1 H2].
  auto.
Qed.

(** ** Binary64 facts *)

Lemma SFcompare_finite_Eq s m e s' m' e' :
  SFcompare (S754_finite s m e) (S754_finite s' m' e') = Some Eq ->
  s = s' /\ m = m' /\ e = e'.
Proof.
  cbn. destruct s, s'; try discriminate;
    destruct (Z.compare e e') eqn:Ez; try discriminate;
    intros H; injection H as H; apply Z.compare_eq in Ez; subst.
  - destruct (Pos.compare_cont Eq m m') eqn:Ep; try discriminate.
    apply Pos.compare_eq in Ep. now subst.
  - apply Pos.compare_eq in H. now subst.
Qed.

(** Two rates equal to a third have a difference that is not above zero in
    absolute value: it is a zero, or NaN for two like infinities. *)
Lemma SF_equal_rates_no_spread (X Y R : spec_float) :
  SFeqb X R = true -> SFeqb Y R = true ->
  SFltb (S754_zero false) (SFabs (SF64sub X Y)) = false.
Proof.
  unfold SFeqb. intros HX HY.
  destruct (SFcompare X R) as [[| |]|] eqn:EX; try discriminate.
  destruct (SFcompare Y R) as [[| |]|] eqn:EY; try discriminate.
  clear HX HY.
  destruct X as [sx|sx| |sx mx ex], R as [sr|sr| |sr mr er], Y as [sy|sy| |sy my ey];
    try discriminate;
    try (destruct sx, sr; discriminate);
    try (destruct sy, sr; discriminate);
    try (destruct sx; discriminate);
    try (destruct sy; discriminate);
    try (destruct sr; discriminate).
  - destruct sx, sy; reflexivity.
  - destruct sx, sy, sr; try discriminate; reflexivity.
  - apply SFcompare_finite_Eq in EX as [-> [-> ->]].
    apply SFcompare_finite_Eq in EY as [-> [-> ->]].
    unfold SF64sub, SFsub. rewrite Z.sub_diag. reflexivity.
Qed.

Lemma equal_rates_no_spread (x y r : float) :
  PrimFloat.eqb x r = true -> PrimFloat.eqb y r = true ->
  PrimFloat.ltb PrimFloat.zero (PrimFloat.abs (PrimFloat.sub x y)) = false.
Proof.
  rewrite !eqb_spec, ltb_spec, abs_spec, sub_spec.
  apply SF_equal_rates_no_spread.
Qed.

Lemma SFcompare_antisym (X Y : spec_float) :
  SFcompare Y X = option_map CompOpp (SFcompare X Y).
Proof.
  destruct X as [sx|sx| |sx mx ex], Y as [sy|sy| |sy my ey]; cbn;
    try reflexivity;
    try (destruct sx; reflexivity); try (destruct sy; reflexivity);
    try (destruct sx, sy; reflexivity).
  destruct sx, sy; cbn; try reflexivity;
    rewrite (Z.compare_antisym ex ey);
    destruct (Z.compare ex ey); cbn; try reflexivity;
    rewrite (Pos.compare_cont_antisym _ _ Eq); cbn;
    destruct (Pos.compare_cont Eq mx my); reflexivity.
Qed.

Lemma ltb_asym (x y : float) :
  PrimFloat.ltb x y = true -> PrimFloat.ltb y x = false.
Proof.
  rewrite !ltb_spec. unfold SFltb. rewrite (SFcompare_antisym (Prim2SF x) (Prim2SF y)).
  destruct (SFcompare (Prim2SF x) (Prim2SF y)) as [[| |]|]; cbn; congruence.
Qed.

Lemma SFcompare_refl (X : spec_float) :
  X <> S754_nan -> SFcompare X X = Some Eq.
Proof.
  destruct X as [s|s| |s m e]; cbn; intros H; try congruence.
  - now destruct s.
  - rewrite Z.compare_refl, Pos.compare_cont_refl. now destruct s.
Qed.

Lemma positive_abs_notna (d : float) :
  PrimFloat.ltb PrimFloat.zero (PrimFloat.abs d) = true -> PrimFloat.is_nan d = false.
Proof.
  unfold PrimFloat.is_nan. rewrite ltb_spec, abs_spec, eqb_spec.
  intros H. unfold SFeqb. rewrite SFcompare_refl; [reflexivity|].
  intros E. rewrite E in H. cbn in H. 
  destruct (Prim2SF 0); cbn in H; discriminate.
Qed.

Lemma notna_eqb (x : float) : notna x = PrimFloat.eqb x x.
Proof. unfold notna, PrimFloat.is_nan. apply negb_involutive. Qed.

(** ** Row reductions *)

Lemma nan_skipping_fold_pick (better : float -> float -> bool) (xs : list float)
    (acc : float) :
  let res := nan_skipping_fold better xs acc in
  (PrimFloat.is_nan res = false /\ (In res xs \/ res = acc))
  \/ (PrimFloat.is_nan acc = true /\ res = acc
      /\ Forall (fun x => PrimFloat.is_nan x = true) xs).
Proof.
  revert acc. induction xs as [|x r IH]; intros acc; cbn.
  - destruct (PrimFloat.is_nan acc) eqn:E; [right | left]; auto.
  - unfold nan_skipping_fold in *. cbn in IH.
    destruct (PrimFloat.is_nan x) eqn:Ex.
    + destruct (IH acc) as [[H1 [H2|H2]]|[H1 [H2 H3]]]; auto.
    + destruct (PrimFloat.is_nan acc) eqn:Ea.
      * destruct (IH x) as [[H1 [H2|H2]]|[H1 _]]; [auto | auto | congruence].
      * destruct (better acc x).
        -- destruct (IH x) as [[H1 [H2|H2]]|[H1 _]]; [auto | auto | congruence].
        -- destruct (IH acc) as [[H1 [H2|H2]]|[H1 _]]; [auto | auto | congruence].
Qed.

Lemma is_nan_nan : PrimFloat.is_nan nan = true.
Proof. reflexivity. Qed.

(** [nanmax] returns one of the values that are not NaN, when there is one. *)
Lemma nanmax_pick (xs : list float) (x : float) :
  In x xs -> notna x = true ->
  In (nanmax xs) xs /\ notna (nanmax xs) = true.
Proof.
  intros Hin Hx.
  pose proof (nan_skipping_fold_pick (fun acc y => PrimFloat.ltb acc y) xs nan) as H.
  cbv zeta in H.
  change (nan_skipping_fold (fun acc y => PrimFloat.ltb acc y) xs nan) with (nanmax xs) in H.
  destruct H as [[H1 [H2|H2]]|[_ [_ H3]]].
  - split; [exact H2 | unfold notna; now rewrite H1].
  - rewrite H2 in H1. discriminate.
  - rewrite Forall_forall in H3. specialize (H3 x Hin).
    unfold notna in Hx. rewrite H3 in Hx. discriminate.
Qed.

(** [nanmin] likewise. *)
Lemma nanmin_pick (xs : list float) (x : float) :
  In x xs -> notna x = true ->
  In (nanmin xs) xs /\ notna (nanmin xs) = true.
Proof.
  intros Hin Hx.
  pose proof (nan_skipping_fold_pick (fun acc y => PrimFloat.ltb y acc) xs nan) as H.
  cbv zeta in H.
  change (nan_skipping_fold (fun acc y => PrimFloat.ltb y acc) xs nan) with (nanmin xs) in H.
  destruct H as [[H1 [H2|H2]]|[_ [_ H3]]].
  - split; [exact H2 | unfold notna; now rewrite H1].
  - rewrite H2 in H1. discriminate.
  - rewrite Forall_forall in H3. specialize (H3 x Hin).
    unfold notna in Hx. rewrite H3 in Hx. discriminate.
Qed.

(** ** Rows of the table and the venues behind them *)

Section TableRows.

Import FundingRateArbitrage.

Variable self : DexRates.
Hypothesis names_ok : venue_names_ok self = true.

Lemma venue_cells_values (sym : string) :
  map snd (venue_cells self sym) = map (fun dr => series_at (snd dr) sym) self.
Proof. unfold venue_cells. now rewrite map_map. Qed.

Lemma service_cell (col : string) (sym : string) :
  In col service_cols ->
  PyDict.get col (snd (table_row self sym))
  = PyDict.get col
      (let mx := nanmax (map snd (venue_cells self sym)) in
       let mn := nanmin (map snd (venue_cells self sym ++ [("MaxRate", mx)])) in
       [("MaxRate", mx); ("MinRate", mn); ("Difference", PrimFloat.sub mx mn)]).
Proof.
  intros Hc. unfold table_row. cbv zeta. cbn [snd]. rewrite dict_get_app.
  rewrite dict_get_absent; [reflexivity|].
  rewrite venue_cells_keys. now apply service_not_venue.
Qed.

Lemma cell_of_MaxRate (sym : string) :
  cell_of "MaxRate" (table_row self sym) = nanmax (map snd (venue_cells self sym)).
Proof.
  unfold cell_of. rewrite service_cell; [reflexivity | cbn; auto].
Qed.

Lemma cell_of_MinRate (sym : string) :
  cell_of "MinRate" (table_row self sym)
  = nanmin (map snd (venue_cells self sym)
            ++ [nanmax (map snd (venue_cells self sym))]).
Proof.
  unfold cell_of. rewrite service_cell; [|cbn; auto]. cbv zeta.
  rewrite map_app. reflexivity.
Qed.

Lemma cell_of_Difference (sym : string) :
  cell_of "Difference" (table_row self sym)
  = PrimFloat.sub (cell_of "MaxRate" (table_row self sym))
                  (cell_of "MinRate" (table_row self sym)).
Proof.
  rewrite cell_of_MaxRate, cell_of_MinRate.
  unfold cell_of. rewrite service_cell; [|cbn; auto 6]. cbv zeta.
  rewrite map_app. reflexivity.
Qed.

(** A value of the venue cells that is not NaN is the rate of a venue that
    reports the symbol. *)
Lemma venue_value_reported (sym : string) (v : float) :
  In v (map snd (venue_cells self sym)) -> notna v = true ->
  exists dr, In dr self /\ reports (snd dr) sym = true /\ v = series_at (snd dr) sym.
Proof.
  rewrite venue_cells_values, in_map_iff. intros [dr [<- Hin]] Hv.
  exists dr. rewrite <- notna_series_at. auto.
Qed.

Lemma covered_has_value (sym : string) :
  1 <= coverage self sym ->
  exists v, In v (map snd (venue_cells self sym)) /\ notna v = true.
Proof.
  unfold coverage. intros H.
  destruct (filter (fun dr => reports (snd dr) sym) self) as [|dr l] eqn:E;
    [cbn in H; lia|].
  assert (Hin : In dr (filter (fun dr => reports (snd dr) sym) self)) by (rewrite E; now left).
  apply filter_In in Hin as [Hin Hr].
  exists (series_at (snd dr) sym). split.
  - rewrite venue_cells_values. now apply (in_map (fun dr => series_at (snd dr) sym)).
  - now rewrite notna_series_at.
Qed.

(** [MaxRate] of a covered symbol is the rate of a venue that reports it. *)
Lemma MaxRate_reported (sym : string) :
  1 <= coverage self sym ->
  exists dr, In dr self /\ reports (snd dr) sym = true
             /\ cell_of "MaxRate" (table_row self sym) = series_at (snd dr) sym.
Proof.
  intros Hc. destruct (covered_has_value sym Hc) as [v [Hv Hn]].
  destruct (nanmax_pick _ v Hv Hn) as [H1 H2].
  rewrite cell_of_MaxRate. now apply venue_value_reported.
Qed.

(** So is [MinRate], although the source takes it over the frame that
    already holds [MaxRate]. *)
Lemma MinRate_reported (sym : string) :
  1 <= coverage self sym ->
  exists dr, In dr self /\ reports (snd dr) sym = true
             /\ cell_of "MinRate" (table_row self sym) = series_at (snd dr) sym.
Proof.
  intros Hc. destruct (covered_has_value sym Hc) as [v [Hv Hn]].
  destruct (nanmax_pick _ v Hv Hn) as [Hx1 Hx2].
  assert (Hv' : In v (map snd (venue_cells self sym)
                      ++ [nanmax (map snd (venue_cells self sym))])).
  { apply in_app_iff. now left. }
  destruct (nanmin_pick _ v Hv' Hn) as [H1 H2].
  rewrite cell_of_MinRate. apply venue_value_reported; [|exact H2].
  apply in_app_iff in H1 as [H1|[<-|[]]]; assumption.
Qed.

(** Every row of the rates table is the written-out row of a symbol with
    coverage at least two. *)
Lemma rates_table_row (r : Row) :
  In r (rows (rates_table self)) ->
  r = table_row self (fst r)
  /\ In (fst r) (concat_index self)
  /\ 2 <= coverage self (fst r).
Proof.
  rewrite (rates_table_rows_coverage self names_ok), in_map_iff.
  intros [sym [<- Hin]]. apply filter_In in Hin as [Hin Hc].
  apply Nat.leb_le in Hc. cbn [fst table_row]. auto.
Qed.

(** Equal rates at all reporting venues leave no difference above zero. *)
Lemma equal_rates_zero_difference (sym : string) (rate : float) :
  1 <= coverage self sym ->
  (forall dr, In dr self -> reports (snd dr) sym = true ->
              PrimFloat.eqb (series_at (snd dr) sym) rate = true) ->
  nonzero_difference (table_row self sym) = false.
Proof.
  intros Hc Heq. unfold nonzero_difference. rewrite cell_of_Difference.
  destruct (MaxRate_reported sym Hc) as [d1 [Hi1 [Hr1 ->]]].
  destruct (MinRate_reported sym Hc) as [d2 [Hi2 [Hr2 ->]]].
  apply (equal_rates_no_spread _ _ rate); auto.
Qed.

End TableRows.

(** ** The reference sorter meets the assumption on [sort_values] *)

Lemma key_before_asym (ascending : bool) (a b : float) :
  key_before ascending a b = true -> key_before ascending b a = false.
Proof.
  unfold key_before.
  destruct (PrimFloat.is_nan a) eqn:Ea; [discriminate|].
  destruct (PrimFloat.is_nan b) eqn:Eb; [reflexivity|].
  destruct ascending; apply ltb_asym.
Qed.

Lemma insert_row_perm (by_ : string) (ascending : bool) (r : Row) (l : list Row) :
  Permutation (insert_row by_ ascending r l) (r :: l).
Proof.
  induction l as [|x rest IH]; cbn; [reflexivity|].
  destruct (key_before ascending (cell_of by_ x) (cell_of by_ r)); [|reflexivity].
  rewrite IH. apply perm_swap.
Qed.

Lemma insert_row_sorted (by_ : string) (ascending : bool) (r : Row) (l : list Row) :
  Sorted (row_order by_ ascending) l ->
  Sorted (row_order by_ ascending) (insert_row by_ ascending r l).
Proof.
  induction 1 as [|x rest Hs IH Hhd]; cbn; [repeat constructor|].
  destruct (key_before ascending (cell_of by_ x) (cell_of by_ r)) eqn:E.
  - constructor; [exact IH|].
    destruct rest as [|y rest']; cbn.
    + constructor. unfold row_order. now apply key_before_asym.
    + destruct (key_before ascending (cell_of by_ y) (cell_of by_ r)).
      * constructor. now inversion Hhd.
      * constructor. unfold row_order. now apply key_before_asym.
  - constructor; [now constructor | constructor; exact E].
Qed.

Lemma sort_values_insertion_ok : sorter_ok sort_values_insertion.
Proof.
  intros by_ ascending df. split; [reflexivity|].
  unfold sort_values_insertion. cbn [rows]. split.
  - induction (rows df) as [|r l IH]; cbn; [reflexivity|].
    rewrite insert_row_perm. now constructor.
  - induction (rows df) as [|r l IH]; cbn; [constructor|].
    now apply insert_row_sorted.
Qed.

Lemma insert_row_after_perm (by_ : string) (ascending : bool) (r : Row) (l : list Row) :
  Permutation (insert_row_after by_ ascending r l) (r :: l).
Proof.
  induction l as [|x rest IH]; cbn; [reflexivity|].
  destruct (key_before ascending (cell_of by_ r) (cell_of by_ x)); [reflexivity|].
  rewrite IH. apply perm_swap.
Qed.

Lemma insert_row_after_sorted (by_ : string) (ascending : bool) (r : Row) (l : list Row) :
  Sorted (row_order by_ ascending) l ->
  Sorted (row_order by_ ascending) (insert_row_after by_ ascending r l).
Proof.
  induction 1 as [|x rest Hs IH Hhd]; cbn; [repeat constructor|].
  destruct (key_before ascending (cell_of by_ r) (cell_of by_ x)) eqn:E.
  - constructor; [now constructor|].
    constructor. unfold row_order. now apply key_before_asym.
  - constructor; [exact IH|].
    destruct rest as [|y rest']; cbn.
    + constructor. exact E.
    + destruct (key_before ascending (cell_of by_ r) (cell_of by_ y)).
      * constructor. exact E.
      * constructor. now inversion Hhd.
Qed.

Lemma sort_values_ties_reversed_ok : sorter_ok sort_values_ties_reversed.
Proof.
  intros by_ ascending df. split; [reflexivity|].
  unfold sort_values_ties_reversed. cbn [rows]. split.
  - induction (rows df) as [|r l IH]; cbn; [reflexivity|].
    rewrite insert_row_after_perm. now constructor.
  - induction (rows df) as [|r l IH]; cbn; [constructor|].
    now apply insert_row_after_sorted.
Qed.

(** ** Ranking *)

Lemma shown_symbols_In (s : Shown) (sym : string) :
  In sym (shown_symbols s) <-> exists r, In r (shown_rows s) /\ fst r = sym.
Proof.
  unfold shown_symbols. rewrite in_map_iff. split; intros [r [H1 H2]]; eauto.
Qed.

(** C4, as amended. In the "All" mode the output lists exactly the symbols
    that at least two venues report, in the row order of the table (first
    appearance over the venues), without truncation; it applies no filter on
    the spread and no sort. *)
Theorem all_mode_lists_covered_symbols (self : DexRates) :
  venue_names_ok self = true ->
  shown_symbols (FundingRateArbitrage.display_rates_table (rates_table self))
  = filter (fun sym => (2 <=? coverage self sym)%nat)
      (FundingRateArbitrage.concat_index self)
  /\ forall sym,
       In sym (shown_symbols (FundingRateArbitrage.display_rates_table (rates_table self)))
       <-> 2 <= coverage self sym.
Proof.
  intros Hok.
  assert (H : shown_symbols (FundingRateArbitrage.display_rates_table (rates_table self))
              = filter (fun sym => (2 <=? coverage self sym)%nat)
                  (FundingRateArbitrage.concat_index self)).
  { unfold shown_symbols. rewrite (display_rates_table_symbols self Hok).
    exact (rates_table_symbols self Hok). }
  split; [exact H|]. intros sym. rewrite H, filter_In, Nat.leb_le. split.
  - tauto.
  - intros Hc. split; [|exact Hc]. apply coverage_pos_In. lia.
Qed.

Lemma all_mode_lists_covered_symbols_witness :
  shown_symbols (FundingRateArbitrage.display_rates_table (rates_table demo_dex_rates))
  = ["BTC"; "ETH"; "SOL"; "DOGE"].
Proof.
  destruct (all_mode_lists_covered_symbols demo_dex_rates eq_refl) as [H _].
  rewrite H. reflexivity.
Defined.

(** C4 fails as stated: the "All" mode shows a symbol whose two rates are
    equal, and shows the rows in table order, here by increasing spread. *)
Lemma all_mode_keeps_zero_spread_unsorted :
  let out := analyze_funding_rate_arbitrage sort_values_insertion
               demo_orderly demo_hyperliquid [] 1 in
  shown_symbols out = ["BTC"; "ETH"; "SOL"]
  /\ map FundingRateArbitrage.nonzero_difference (shown_rows out) = [false; true; true]
  /\ map (fun r => PrimFloat.eqb (cell_of "MaxRate" r) (cell_of "MinRate" r)) (shown_rows out)
     = [true; false; false]
  /\ PrimFloat.ltb (cell_of "Difference" (nth 1 (shown_rows out) ("", [])))
                   (cell_of "Difference" (nth 2 (shown_rows out) ("", []))) = true.
Proof. vm_compute. repeat split. Qed.

(** C7. In every mode a shown symbol is reported by at least two venues.
    Missing entries are not rates: the cell of a venue that does not report
    the symbol is NaN, and the maximum and minimum rate of the row are rates
    of venues that do report it. *)
Theorem coverage_invariant (sort_values : Sorter) (self : DexRates) (top_n : nat)
    (r : Row) :
  sorter_ok sort_values ->
  venue_names_ok self = true ->
  In r (shown_rows (FundingRateArbitrage.display_rates_table (rates_table self)))
  \/ In r (shown_rows (FundingRateArbitrage.display_top_rates_differences_from_Orderly
                         sort_values (rates_table self) top_n))
  \/ In r (shown_rows (FundingRateArbitrage.display_top_rates_differences_from_all_DEXs
                         sort_values (rates_table self) top_n)) ->
  2 <= coverage self (fst r)
  /\ (forall dr, In dr self -> reports (snd dr) (fst r) = false ->
                 PrimFloat.is_nan (cell_of (fst dr) r) = true)
  /\ (exists dr, In dr self /\ reports (snd dr) (fst r) = true
                 /\ cell_of "MaxRate" r = FundingRateArbitrage.series_at (snd dr) (fst r))
  /\ (exists dr, In dr self /\ reports (snd dr) (fst r) = true
                 /\ cell_of "MinRate" r = FundingRateArbitrage.series_at (snd dr) (fst r)).
Proof.
  intros Hs Hok Hshown.
  assert (Hin : In r (rows (rates_table self))).
  { destruct Hshown as [H|[H|H]].
    - now rewrite (display_rates_table_symbols self Hok) in H.
    - now apply (top_orderly_rows _ _ _ _ Hs) in H.
    - now apply (top_all_rows _ _ _ _ Hs) in H. }
  destruct (rates_table_row self Hok r Hin) as [Hr [_ Hc]].
  split; [exact Hc|]. rewrite Hr. cbn [fst table_row]. repeat split.
  - intros dr Hdr Hrep. rewrite (cell_of_venue self Hok dr _ Hdr).
    rewrite <- notna_series_at in Hrep. unfold notna in Hrep.
    now apply negb_false_iff in Hrep.
  - apply (MaxRate_reported self Hok). lia.
  - apply (MinRate_reported self Hok). lia.
Qed.

Lemma coverage_invariant_witness :
  2 <= coverage demo_dex_rates "ETH".
Proof.
  refine (proj1 (coverage_invariant sort_values_insertion demo_dex_rates 3
                   (table_row demo_dex_rates "ETH")
                   sort_values_insertion_ok eq_refl _)).
  right. right. vm_compute. repeat (first [left; reflexivity | right]).
Defined.

(** C6, as amended. A symbol for which all reporting venues give the same
    rate (so that its maximum and minimum coincide) is excluded from both
    top-N outputs. Two venues with identical rates do not exclude a symbol
    for which another venue reports a different rate. *)
Theorem equal_rates_excluded (sort_values : Sorter) (self : DexRates) (top_n : nat)
    (sym : string) (rate : float) :
  sorter_ok sort_values ->
  venue_names_ok self = true ->
  (forall dr, In dr self -> reports (snd dr) sym = true ->
              PrimFloat.eqb (FundingRateArbitrage.series_at (snd dr) sym) rate = true) ->
  ~ In sym (shown_symbols
              (FundingRateArbitrage.display_top_rates_differences_from_Orderly
                 sort_values (rates_table self) top_n))
  /\ ~ In sym (shown_symbols
                 (FundingRateArbitrage.display_top_rates_differences_from_all_DEXs
                    sort_values (rates_table self) top_n)).
Proof.
  intros Hs Hok Heq.
  assert (Hrow : forall r, In r (rows (rates_table self)) -> fst r = sym ->
                           FundingRateArbitrage.nonzero_difference r = false).
  { intros r Hin Hsym. destruct (rates_table_row self Hok r Hin) as [Hr [_ Hc]].
    rewrite Hr, Hsym. apply (equal_rates_zero_difference self Hok sym rate); [|exact Heq].
    rewrite <- Hsym. lia. }
  split; intros Hin; apply shown_symbols_In in Hin as [r [Hr Hsym]].
  - apply (top_orderly_rows _ _ _ _ Hs) in Hr as [Hr [_ [_ Hnz]]].
    rewrite (Hrow r Hr Hsym) in Hnz. discriminate.
  - apply (top_all_rows _ _ _ _ Hs) in Hr as [Hr [_ Hnz]].
    rewrite (Hrow r Hr Hsym) in Hnz. discriminate.
Qed.

Lemma equal_rates_excluded_witness :
  ~ In "DOGE" (shown_symbols
                 (FundingRateArbitrage.display_top_rates_differences_from_all_DEXs
                    sort_values_insertion (rates_table demo_dex_rates) 3)).
Proof.
  refine (proj2 (equal_rates_excluded sort_values_insertion demo_dex_rates 3 "DOGE"
                   0x1.a36e2eb1c432dp-12%float sort_values_insertion_ok eq_refl _)).
  intros dr Hin Hrep.
  vm_compute in Hin.
  destruct Hin as [<-|[<-|[<-|[]]]]; [discriminate Hrep | reflexivity | reflexivity].
Defined.

(** C6 fails as stated: Orderly and Hyperliquid report the same rate for
    BTC, Backpack a different one, and BTC is shown by both top-N modes. *)
Lemma two_equal_rates_still_ranked :
  reports demo_orderly "PERP_BTC_USDC" = true
  /\ PrimFloat.eqb (FundingRateArbitrage.series_at demo_orderly "PERP_BTC_USDC")
                   (FundingRateArbitrage.series_at demo_hyperliquid "BTC") = true
  /\ In "BTC" (shown_symbols
                 (analyze_funding_rate_arbitrage sort_values_insertion
                    demo_orderly demo_hyperliquid demo_backpack 3))
  /\ In "BTC" (shown_symbols
                 (analyze_funding_rate_arbitrage sort_values_insertion
                    demo_orderly demo_hyperliquid demo_backpack 2)).
Proof. vm_compute. repeat split; auto. Qed.

(** The global top-N of a frame with a single eligible row shows that row. *)
Lemma top_all_single_row (sort_values : Sorter) (df : DataFrame) (top_n : nat) (r : Row) :
  sorter_ok sort_values ->
  df_empty df = false ->
  FundingRateArbitrage._dex_columns df <> [] ->
  filter (fun r => (2 <=? FundingRateArbitrage.non_na_count
                            (FundingRateArbitrage._dex_columns df) r)%nat
                   && FundingRateArbitrage.nonzero_difference r) (rows df) = [r] ->
  1 <= top_n ->
  shown_rows (FundingRateArbitrage.display_top_rates_differences_from_all_DEXs
                sort_values df top_n) = [r].
Proof.
  intros Hs He Hd Hf Hn.
  unfold FundingRateArbitrage.display_top_rates_differences_from_all_DEXs.
  rewrite He.
  destruct (FundingRateArbitrage._dex_columns df) as [|c cs] eqn:Ed; [congruence|].
  match goal with |- context [sort_values ?b ?a ?x] =>
    destruct (Hs b a x) as [Hc [Hp _]]; set (sorted := sort_values b a x) in * end.
  cbn [rows select] in Hp. rewrite Hf in Hp.
  apply Permutation_sym, Permutation_length_1_inv in Hp.
  assert (Hcols : columns df <> []).
  { unfold df_empty in He. destruct (columns df); [discriminate | congruence]. }
  assert (Hhead : head top_n sorted = mkDataFrame (columns df) [r]).
  { unfold head. rewrite Hc, Hp. cbn [columns select].
    destruct top_n as [|k]; [lia|]. cbn. now rewrite firstn_nil. }
  rewrite Hhead. unfold df_empty. cbn [columns rows].
  destruct (columns df); [congruence | reflexivity].
Qed.

(** C8, as amended. In the aggregation scenario Backpack contributes no
    column; the table has the single row BTC with Orderly at 0.0001 and
    Hyperliquid at 0.0003; the global top-N shows that row; its maximum is
    Hyperliquid's rate and its minimum Orderly's. The spread is the binary64
    difference of the two rates, 0x1.a36e2eb1c432cp-13, one unit in the last
    place below the double nearest to 0.0002 (and shown as 0.000200 at six
    decimals). *)
Theorem aggregation_scenario (sort_values : Sorter) :
  sorter_ok sort_values ->
  let r0001 := 0x1.a36e2eb1c432dp-14%float in
  let r0002 := 0x1.a36e2eb1c432dp-13%float in
  let r0003 := 0x1.3a92a30553261p-12%float in
  let spread := 0x1.a36e2eb1c432cp-13%float in
  let btc : Row :=
    ("BTC", [("orderly", r0001); ("hyperliquid", r0003);
             ("MaxRate", r0003); ("MinRate", r0001); ("Difference", spread)]) in
  scenario_dex_rates = [("orderly", [("BTC", r0001)]); ("hyperliquid", [("BTC", r0003)])]
  /\ columns (rates_table scenario_dex_rates)
     = ["orderly"; "hyperliquid"; "MaxRate"; "MinRate"; "Difference"]
  /\ rows (rates_table scenario_dex_rates) = [btc]
  /\ shown_rows (analyze_funding_rate_arbitrage sort_values
                   scenario_orderly scenario_hyperliquid scenario_backpack 3) = [btc]
  /\ cell_of "MaxRate" btc = cell_of "hyperliquid" btc
  /\ cell_of "MinRate" btc = cell_of "orderly" btc
  /\ cell_of "Difference" btc = PrimFloat.sub r0003 r0001
  /\ PrimFloat.eqb spread r0002 = false
  /\ PrimFloat.eqb (PrimFloat.next_up spread) r0002 = true.
Proof.
  intros Hs. cbv zeta.
  assert (Ht : rates_table scenario_dex_rates
               = mkDataFrame ["orderly"; "hyperliquid"; "MaxRate"; "MinRate"; "Difference"]
                   [("BTC", [("orderly", 0x1.a36e2eb1c432dp-14%float);
                             ("hyperliquid", 0x1.3a92a30553261p-12%float);
                             ("MaxRate", 0x1.3a92a30553261p-12%float);
                             ("MinRate", 0x1.a36e2eb1c432dp-14%float);
                             ("Difference", 0x1.a36e2eb1c432cp-13%float)])])
    by (vm_compute; reflexivity).
  split; [vm_compute; reflexivity|].
  split; [now rewrite Ht|].
  split; [now rewrite Ht|].
  split.
  - change (analyze_funding_rate_arbitrage sort_values
              scenario_orderly scenario_hyperliquid scenario_backpack 3)
      with (FundingRateArbitrage.display_top_rates_differences_from_all_DEXs
              sort_values (rates_table scenario_dex_rates) 3).
    rewrite Ht. apply top_all_single_row; auto; try (vm_compute; reflexivity).
    vm_compute. discriminate.
  - repeat split; vm_compute; reflexivity.
Qed.

Lemma aggregation_scenario_witness :
  shown_symbols (analyze_funding_rate_arbitrage sort_values_insertion
                   scenario_orderly scenario_hyperliquid scenario_backpack 3) = ["BTC"].
Proof.
  destruct (aggregation_scenario sort_values_insertion sort_values_insertion_ok)
    as [_ [_ [_ [H _]]]].
  unfold shown_symbols. rewrite H. reflexivity.
Defined.

(** C8 fails as stated in one respect: the spread of the scenario is not the
    double 0.0002. *)
Lemma scenario_spread_is_not_0_0002 :
  let out := analyze_funding_rate_arbitrage sort_values_insertion
               scenario_orderly scenario_hyperliquid scenario_backpack 3 in
  shown_symbols out = ["BTC"]
  /\ map (fun r => PrimFloat.eqb (cell_of "Difference" r) 0x1.a36e2eb1c432dp-13%float)
         (shown_rows out) = [false]
  /\ map (cell_of "Difference") (shown_rows out) = [0x1.a36e2eb1c432cp-13%float].
Proof. vm_compute. repeat split. Qed.

(** ** Order of the ranked output *)

Lemma Sorted_firstn {A : Type} (R : A -> A -> Prop) (n : nat) (l : list A) :
  Sorted R l -> Sorted R (firstn n l).
Proof.
  revert l. induction n as [|k IH]; intros l Hs; [constructor|].
  destruct l as [|a r]; [constructor|]. cbn.
  inversion Hs as [|? ? Hr Hhd]; subst. constructor; [now apply IH|].
  destruct k; [constructor|]. destruct r as [|b r']; [constructor|].
  cbn. constructor. now inversion Hhd.
Qed.

Lemma firstn_length_le {A : Type} (n : nat) (l : list A) : List.length (firstn n l) <= n.
Proof. rewrite length_firstn. lia. Qed.

Lemma top_all_sorted (sort_values : Sorter) (df : DataFrame) (top_n : nat) :
  sorter_ok sort_values ->
  Sorted (row_order "Difference" false)
    (shown_rows (FundingRateArbitrage.display_top_rates_differences_from_all_DEXs
                   sort_values df top_n))
  /\ List.length
       (shown_rows (FundingRateArbitrage.display_top_rates_differences_from_all_DEXs
                      sort_values df top_n)) <= top_n.
Proof.
  intros Hs. unfold FundingRateArbitrage.display_top_rates_differences_from_all_DEXs.
  destruct (df_empty df); [split; [constructor | cbn; lia]|].
  destruct (FundingRateArbitrage._dex_columns df) as [|c cs]; [split; [constructor | cbn; lia]|].
  match goal with |- context [df_empty ?t] => destruct (df_empty t) end;
    [split; [constructor | cbn; lia]|].
  cbn [shown_rows head rows]. split; [|apply firstn_length_le].
  apply Sorted_firstn.
  match goal with |- context [sort_values ?b ?a ?x] => destruct (Hs b a x) as [_ [_ H]] end.
  exact H.
Qed.

Lemma top_orderly_sorted (sort_values : Sorter) (df : DataFrame) (top_n : nat) :
  sorter_ok sort_values ->
  Sorted (row_order "Difference" false)
    (shown_rows (FundingRateArbitrage.display_top_rates_differences_from_Orderly
                   sort_values df top_n))
  /\ List.length
       (shown_rows (FundingRateArbitrage.display_top_rates_differences_from_Orderly
                      sort_values df top_n)) <= top_n.
Proof.
  intros Hs. unfold FundingRateArbitrage.display_top_rates_differences_from_Orderly.
  destruct (df_empty df || negb (str_in "orderly" (columns df)));
    [split; [constructor | cbn; lia]|].
  destruct (FundingRateArbitrage._dex_columns df) as [|c cs]; [split; [constructor | cbn; lia]|].
  match goal with |- context [df_empty ?t] => destruct (df_empty t) end;
    [split; [constructor | cbn; lia]|].
  cbn [shown_rows head rows]. split; [|apply firstn_length_le].
  apply Sorted_firstn.
  match goal with |- context [sort_values ?b ?a ?x] => destruct (Hs b a x) as [_ [_ H]] end.
  exact H.
Qed.

(** The order of equal spreads is the one [sort_values] returns. ETH is
    inserted before SOL and both have the same spread: the insertion sort
    that keeps equal keys in row order shows ETH first, the one that
    reverses them shows SOL first, and both leave the rows in the order of
    the key. *)
Lemma tie_order_follows_sort_values :
  sorter_ok sort_values_ties_reversed
  /\ sorter_ok sort_values_insertion
  /\ symbols (rates_table (dex_rates_after [("orderly", Some tie_orderly);
                                             ("hyperliquid", Some tie_hyperliquid)]))
     = ["ETH"; "SOL"]
  /\ shown_symbols (analyze_funding_rate_arbitrage sort_values_ties_reversed
                      tie_orderly tie_hyperliquid [] 3) = ["SOL"; "ETH"]
  /\ shown_symbols (analyze_funding_rate_arbitrage sort_values_insertion
                      tie_orderly tie_hyperliquid [] 3) = ["ETH"; "SOL"]
  /\ map (cell_of "Difference")
         (shown_rows (analyze_funding_rate_arbitrage sort_values_ties_reversed
                        tie_orderly tie_hyperliquid [] 3))
     = [0x1.a36e2eb1c432dp-12%float; 0x1.a36e2eb1c432dp-12%float].
Proof.
  split; [exact sort_values_ties_reversed_ok|].
  split; [exact sort_values_insertion_ok|].
  repeat split; vm_compute; reflexivity.
Qed.

(** ** States reached by [add_dex_rates] *)

Lemma add_dex_rates_names (self : DexRates) (dex : string) (rates : option RawRates) :
  NoDup (map fst self) ->
  NoDup (map fst (FundingRateArbitrage.add_dex_rates self dex rates))
  /\ forall x, In x (map fst (FundingRateArbitrage.add_dex_rates self dex rates)) ->
               x = dex \/ In x (map fst self).
Proof.
  intros Hnd. unfold FundingRateArbitrage.add_dex_rates.
  destruct rates as [[|sr rs]|]; [split; auto | | split; auto].
  destruct (FundingRateArbitrage.normalize_rates (sr :: rs)) as [|n ns]; [split; auto|].
  destruct (dict_set_keys dex (n :: ns) self Hnd) as [H1 H2].
  split; [exact H1|]. intros x Hx. now apply H2.
Qed.

(** The venue names of a state built by [add_dex_rates] are pairwise
    different; they are fit for the table as soon as no venue is named like
    a service column. *)
Lemma dex_rates_after_names_ok (adds : list (string * option RawRates)) :
  forallb (fun a => negb (str_in (fst a) FundingRateArbitrage.service_cols)) adds = true ->
  venue_names_ok (dex_rates_after adds) = true.
Proof.
  unfold dex_rates_after.
  assert (H : forall self,
             venue_names_ok self = true ->
             forallb (fun a => negb (str_in (fst a) FundingRateArbitrage.service_cols)) adds
             = true ->
             venue_names_ok
               (fold_left (fun self a =>
                             FundingRateArbitrage.add_dex_rates self (fst a) (snd a))
                  adds self) = true).
  { induction adds as [|a r IH]; intros self Hok Hall; cbn; [exact Hok|].
    cbn in Hall. apply andb_true_iff in Hall as [Ha Hr].
    apply IH; [|exact Hr].
    unfold venue_names_ok in *. apply andb_true_iff in Hok as [Hd Hs].
    apply distinct_NoDup in Hd.
    destruct (add_dex_rates_names self (fst a) (snd a) Hd) as [H1 H2].
    apply andb_true_iff. split; [now apply distinct_NoDup|].
    apply forallb_forall. intros x Hx. destruct (H2 x Hx) as [->|Hin]; [exact Ha|].
    rewrite forallb_forall in Hs. now apply Hs. }
  apply H. reflexivity.
Qed.

(** A second way in which the Hyperliquid path raises: an order that the
    exchange answers with an error status makes the adapter return the
    string ["ok"], on which [create_order] calls [.get]. *)
Lemma hyperliquid_error_status_raises :
  result_of (create_order
               (demo_venues true (mkHLOrderResult "ok" [Errored "Insufficient margin"]))
               "hyperliquid" "BTC" 2%float SELL tt)
  = Raise (AttributeError "'str' object has no attribute 'get'").
Proof. reflexivity. Qed.

(* ===================================================================== *)
(** * Further properties of the code *)
(* ===================================================================== *)

(** ** More on strings *)

Lemma length_drop_take (n : nat) (s : string) :
  String.length (PyStr.take n s) + String.length (PyStr.drop n s) = String.length s.
Proof.
  revert s. induction n as [|k IH]; intros [|c r]; cbn; auto.
Qed.

Lemma drop_app_length (x y : string) : PyStr.drop (String.length x) (x ++ y)%string = y.
Proof. induction x as [|c r IH]; cbn; [now destruct y | exact IH]. Qed.

Lemma take_app_length (x y : string) : PyStr.take (String.length x) (x ++ y)%string = x.
Proof. induction x as [|c r IH]; cbn; [reflexivity | now rewrite IH]. Qed.

Lemma length_app (x y : string) :
  String.length (x ++ y)%string = String.length x + String.length y.
Proof. induction x as [|c r IH]; cbn; auto. Qed.

Lemma upper_app (x y : string) : PyStr.upper (x ++ y)%string = (PyStr.upper x ++ PyStr.upper y)%string.
Proof. induction x as [|c r IH]; cbn; [reflexivity | now rewrite IH]. Qed.

(** A string that ends with the appended suffix, and with no other suffix of
    the same length. *)
Lemma endswith_app (x y suf : string) :
  String.length suf = String.length y ->
  PyStr.endswith (x ++ y)%string suf = String.eqb y suf.
Proof.
  intros Hl. unfold PyStr.endswith. rewrite length_app, Hl.
  replace (String.length x + String.length y - String.length y) with (String.length x) by lia.
  rewrite drop_app_length.
  replace (String.length y <=? String.length x + String.length y)%nat with true; [reflexivity|].
  symmetry. apply Nat.leb_le. lia.
Qed.

Lemma chop_app (x y : string) : PyStr.chop (x ++ y)%string y = x.
Proof.
  unfold PyStr.chop. rewrite length_app.
  replace (String.length x + String.length y - String.length y) with (String.length x) by lia.
  apply take_app_length.
Qed.

Lemma drop_all_chars (p : ascii -> bool) (n : nat) (s : string) :
  all_chars p s = true -> all_chars p (PyStr.drop n s) = true.
Proof.
  revert s. induction n as [|k IH]; intros [|c r]; cbn; auto.
  intros H. apply andb_true_iff in H as [_ H]. now apply IH.
Qed.

(** A string of non-separator characters ends with no suffix that starts
    with a separator. *)
Lemma endswith_sep_free (b suf : string) (c : ascii) (r : string) :
  all_chars (fun c => negb (PyStr.is_sep c)) b = true ->
  suf = String c r -> PyStr.is_sep c = true ->
  PyStr.endswith b suf = false.
Proof.
  intros Hb -> Hc. unfold PyStr.endswith.
  destruct (String.length (String c r) <=? String.length b)%nat; [|reflexivity]. cbn [andb].
  apply String.eqb_neq. intros E.
  pose proof (drop_all_chars _ (String.length b - String.length (String c r)) b Hb) as H.
  rewrite E in H. cbn in H. rewrite Hc in H. discriminate.
Qed.

Lemma prefix_cons (a b : ascii) (p s : string) :
  String.prefix (String a p) (String b s) = (Ascii.eqb a b && String.prefix p s)%bool.
Proof.
  cbn [String.prefix]. destruct (ascii_dec a b) as [->|Hne].
  - now rewrite Ascii.eqb_refl.
  - apply Ascii.eqb_neq in Hne. now rewrite Hne.
Qed.

Ltac split_eqb :=
  repeat match goal with
         | |- context [Ascii.eqb ?a ?b] =>
             destruct (Ascii.eqb_spec a b); [subst|reflexivity]; cbn [andb]
         end.

(** No [PERP_] prefix arises from a string of non-separator characters other
    than PERP itself, whatever separator-led text follows it. *)
Lemma no_perp_prefix (b rest : string) :
  all_chars (fun c => negb (PyStr.is_sep c)) b = true ->
  b <> "PERP" ->
  match rest with EmptyString => True | String c _ => PyStr.is_sep c = true end ->
  PyStr.startswith (b ++ rest)%string "PERP_" = false.
Proof.
  intros Hb Hne Hrest. unfold PyStr.startswith.
  destruct rest as [|c0 r0];
    destruct b as [|c1 [|c2 [|c3 [|c4 [|c5 r]]]]]; cbn [String.append];
    repeat rewrite prefix_cons; cbn [String.prefix]; try reflexivity;
    split_eqb; cbn in *; try discriminate; try congruence; try reflexivity.
Qed.

Lemma bare_ticker_parts (b : string) :
  bare_ticker b = true ->
  PyStr.falsy b = false
  /\ all_chars (fun c => negb (PyStr.is_sep c)) b = true
  /\ PyStr.upper b = b.
Proof.
  unfold bare_ticker. intros H.
  apply andb_true_iff in H as [H H3]. apply andb_true_iff in H as [H1 H2].
  apply negb_true_iff in H1. apply String.eqb_eq in H3. auto.
Qed.

Lemma startswith_app (p x : string) : PyStr.startswith (p ++ x)%string p = true.
Proof.
  unfold PyStr.startswith. induction p as [|c r IH]; cbn [String.append].
  - now destruct x.
  - now rewrite prefix_cons, Ascii.eqb_refl, IH.
Qed.

Lemma sep_free_no_marker_suffix (b : string) :
  all_chars (fun c => negb (PyStr.is_sep c)) b = true ->
  forallb (fun suf => negb (PyStr.endswith b suf)) (quote_suffixes ++ perp_suffixes) = true.
Proof.
  intros Hc. cbn [quote_suffixes perp_suffixes app forallb].
  rewrite (endswith_sep_free b "_USDC" "_" "USDC" Hc eq_refl eq_refl).
  rewrite (endswith_sep_free b "_USDT" "_" "USDT" Hc eq_refl eq_refl).
  rewrite (endswith_sep_free b "-USDC" "-" "USDC" Hc eq_refl eq_refl).
  rewrite (endswith_sep_free b "-USDT" "-" "USDT" Hc eq_refl eq_refl).
  rewrite (endswith_sep_free b "-PERP" "-" "PERP" Hc eq_refl eq_refl).
  rewrite (endswith_sep_free b "_PERP" "_" "PERP" Hc eq_refl eq_refl).
  reflexivity.
Qed.

Lemma bare_ticker_marker_free (b : string) :
  bare_ticker b = true -> b <> "PERP" -> marker_free b = true.
Proof.
  intros Hb Hne. destruct (bare_ticker_parts b Hb) as [_ [Hc _]].
  unfold marker_free. apply andb_true_iff. split.
  - apply negb_true_iff.
    pose proof (no_perp_prefix b "" Hc Hne I) as H.
    replace (b ++ "")%string with b in H; [exact H|].
    clear. induction b as [|c r IH]; cbn; [reflexivity | now rewrite <- IH].
  - exact (sep_free_no_marker_suffix b Hc).
Qed.

Lemma falsy_app (x y : string) :
  PyStr.falsy x = false -> PyStr.falsy (x ++ y)%string = false.
Proof. destruct x; [discriminate | reflexivity]. Qed.

Lemma quote_suffix_shape (b q : string) :
  In q quote_suffixes ->
  strip_first_suffix quote_suffixes (b ++ q)%string = b
  /\ PyStr.upper q = q
  /\ match q with EmptyString => True | String c _ => PyStr.is_sep c = true end.
Proof.
  intros Hq. cbn in Hq. destruct Hq as [<-|[<-|[<-|[<-|[]]]]];
    (split; [|split; reflexivity]);
    cbn [quote_suffixes strip_first_suffix];
    rewrite ?endswith_app by reflexivity; cbn [String.eqb Ascii.eqb Bool.eqb andb];
    apply chop_app.
Qed.

Lemma bare_ticker_no_perp_suffix (b : string) :
  bare_ticker b = true -> strip_first_suffix perp_suffixes b = b.
Proof.
  intros Hb. destruct (bare_ticker_parts b Hb) as [_ [Hc _]].
  apply strip_first_suffix_none.
  pose proof (sep_free_no_marker_suffix b Hc) as H.
  rewrite forallb_app in H. now apply andb_true_iff in H as [_ H].
Qed.

(** A bare ticker with a quote suffix normalises to the ticker. *)
Lemma normalize_quote_suffix (b q : string) :
  bare_ticker b = true -> b <> "PERP" -> In q quote_suffixes ->
  FundingRateArbitrage._normalize_symbol (b ++ q)%string = b.
Proof.
  intros Hb Hne Hq.
  destruct (bare_ticker_parts b Hb) as [Hf [Hc Hu]].
  destruct (quote_suffix_shape b q Hq) as [Hs [Huq Hsep]].
  unfold FundingRateArbitrage._normalize_symbol.
  rewrite (falsy_app _ _ Hf), upper_app, Hu, Huq. unfold strip_markers.
  rewrite (no_perp_prefix b q Hc Hne Hsep), Hs.
  now apply bare_ticker_no_perp_suffix.
Qed.

(** X1. The spellings of the docstring, for every base: a bare ticker [b]
    other than PERP is the normal form of [b] itself, of [b] with a quote
    suffix, of [b] with a perpetual marker, and of [PERP_b] with a quote
    suffix. *)
Theorem venue_spellings_normalize_to_base (b : string) :
  bare_ticker b = true ->
  b <> "PERP" ->
  FundingRateArbitrage._normalize_symbol b = b
  /\ (forall q, In q quote_suffixes ->
        FundingRateArbitrage._normalize_symbol (b ++ q)%string = b
        /\ FundingRateArbitrage._normalize_symbol ("PERP_" ++ b ++ q)%string = b)
  /\ (forall p, In p perp_suffixes ->
        FundingRateArbitrage._normalize_symbol (b ++ p)%string = b).
Proof.
  intros Hb Hne.
  destruct (bare_ticker_parts b Hb) as [Hf [Hc Hu]].
  pose proof (bare_ticker_marker_free b Hb Hne) as Hm.
  assert (Hperp : strip_first_suffix perp_suffixes b = b).
  { apply strip_first_suffix_none.
    pose proof (sep_free_no_marker_suffix b Hc) as H.
    rewrite forallb_app in H. now apply andb_true_iff in H as [_ H]. }
  split; [now apply normalize_symbol_fixed|]. split.
  - intros q Hq.
    destruct (quote_suffix_shape b q Hq) as [Hs [Huq Hsep]]. split.
    + now apply normalize_quote_suffix.
    + unfold FundingRateArbitrage._normalize_symbol.
      cbn [PyStr.falsy String.append].
      change (String "P" (String "E" (String "R" (String "P" (String "_" (b ++ q)%string)))))
        with ("PERP_" ++ (b ++ q))%string.
      rewrite upper_app, upper_app, Hu, Huq. unfold strip_markers.
      change (PyStr.upper "PERP_") with "PERP_".
      rewrite startswith_app, drop_app_length.
      rewrite Hs. exact Hperp.
  - intros p Hp.
    assert (Hp' : strip_first_suffix quote_suffixes (b ++ p)%string = (b ++ p)%string
                  /\ strip_first_suffix perp_suffixes (b ++ p)%string = b
                  /\ PyStr.upper p = p
                  /\ match p with EmptyString => True
                     | String c _ => PyStr.is_sep c = true end).
    { cbn in Hp. destruct Hp as [<-|[<-|[]]];
        (split; [|split; [|split; reflexivity]]);
        cbn [quote_suffixes perp_suffixes strip_first_suffix];
        rewrite ?endswith_app by reflexivity; cbn [String.eqb Ascii.eqb Bool.eqb andb];
        try reflexivity; apply chop_app. }
    destruct Hp' as [Hq [Hs [Hup Hsep]]].
    unfold FundingRateArbitrage._normalize_symbol.
    rewrite (falsy_app _ _ Hf), upper_app, Hu, Hup. unfold strip_markers.
    rewrite (no_perp_prefix b p Hc Hne Hsep), Hq. exact Hs.
Qed.

Lemma venue_spellings_normalize_to_base_witness :
  FundingRateArbitrage._normalize_symbol "PERP_SOL_USDT" = "SOL".
Proof.
  destruct (venue_spellings_normalize_to_base "SOL" eq_refl) as [_ [H _]];
    [discriminate|].
  exact (proj2 (H "_USDT" (or_intror (or_introl eq_refl)))).
Defined.

(** The base PERP is outside the docstring's promise: with a quote suffix
    it reads as the prefix [PERP_]. *)
Example perp_token_loses_its_name :
  FundingRateArbitrage._normalize_symbol "PERP_USDC" = "USDC".
Proof. reflexivity. Qed.

(** X2. Both normalisers ignore the case of the input. *)
Theorem normalize_ignores_case (s : string) :
  FundingRateArbitrage._normalize_symbol (PyStr.upper s)
  = FundingRateArbitrage._normalize_symbol s
  /\ OrderlyFundingRates._normalize_symbol (PyStr.upper s)
     = OrderlyFundingRates._normalize_symbol s.
Proof.
  unfold FundingRateArbitrage._normalize_symbol, OrderlyFundingRates._normalize_symbol.
  rewrite falsy_upper, upper_idem.
  destruct s as [|c r]; split; reflexivity.
Qed.

(** ** [strip] *)

Lemma lstrip_first (p : ascii -> bool) (s : string) :
  first_char (fun c => negb (p c)) (PyStr.lstrip p s) = true.
Proof.
  induction s as [|c r IH]; cbn; [reflexivity|].
  destruct (p c) eqn:E; [exact IH | cbn; now rewrite E].
Qed.

Lemma lstrip_is_drop (p : ascii -> bool) (s : string) :
  exists n, PyStr.lstrip p s = PyStr.drop n s.
Proof.
  induction s as [|c r [n IH]]; cbn; [now exists 0|].
  destruct (p c); [exists (S n); exact IH | now exists 0].
Qed.

Lemma rstrip_is_take (p : ascii -> bool) (s : string) :
  exists n, PyStr.rstrip p s = PyStr.take n s.
Proof.
  induction s as [|c r [n IH]]; cbn; [now exists 0|].
  destruct (PyStr.rstrip p r) as [|c' r'] eqn:E.
  - destruct (p c); [now exists 0 | exists 1; cbn; now destruct r].
  - exists (S n). cbn. now rewrite <- IH.
Qed.

Lemma rstrip_last (p : ascii -> bool) (s : string) :
  last_char (fun c => negb (p c)) (PyStr.rstrip p s) = true.
Proof.
  induction s as [|c r IH]; cbn; [reflexivity|].
  destruct (PyStr.rstrip p r) as [|c' r'] eqn:E.
  - destruct (p c) eqn:Ec; cbn; [reflexivity | now rewrite Ec].
  - exact IH.
Qed.

Lemma rstrip_first (p : ascii -> bool) (s : string) :
  first_char (fun c => negb (p c)) s = true ->
  first_char (fun c => negb (p c)) (PyStr.rstrip p s) = true.
Proof.
  destruct s as [|c r]; cbn; [reflexivity|]. intros H.
  destruct (PyStr.rstrip p r); [|exact H].
  apply negb_true_iff in H. rewrite H. cbn. now rewrite H.
Qed.

Lemma lstrip_fixed (p : ascii -> bool) (s : string) :
  first_char (fun c => negb (p c)) s = true -> PyStr.lstrip p s = s.
Proof.
  destruct s as [|c r]; cbn; [reflexivity|]. intros H.
  apply negb_true_iff in H. now rewrite H.
Qed.

Lemma rstrip_fixed (p : ascii -> bool) (s : string) :
  last_char (fun c => negb (p c)) s = true -> PyStr.rstrip p s = s.
Proof.
  induction s as [|c r IH]; cbn; [reflexivity|].
  destruct r as [|c' r'].
  - cbn. intros H. apply negb_true_iff in H. now rewrite H.
  - intros H. rewrite (IH H). reflexivity.
Qed.

(** [strip] leaves no character of the set at either end, so that stripping
    twice is stripping once. *)
Lemma strip_ends (p : ascii -> bool) (s : string) :
  first_char (fun c => negb (p c)) (PyStr.strip p s) = true
  /\ last_char (fun c => negb (p c)) (PyStr.strip p s) = true
  /\ PyStr.strip p (PyStr.strip p s) = PyStr.strip p s.
Proof.
  unfold PyStr.strip.
  assert (H1 : first_char (fun c => negb (p c)) (PyStr.rstrip p (PyStr.lstrip p s)) = true)
    by apply rstrip_first, lstrip_first.
  assert (H2 : last_char (fun c => negb (p c)) (PyStr.rstrip p (PyStr.lstrip p s)) = true)
    by apply rstrip_last.
  repeat split; auto.
  rewrite (lstrip_fixed p _ H1). now apply rstrip_fixed.
Qed.

Lemma upper_fixed_take (n : nat) (s : string) :
  PyStr.upper s = s -> PyStr.upper (PyStr.take n s) = PyStr.take n s.
Proof. intros H. now rewrite upper_take, H. Qed.

Lemma upper_fixed_strip (p : ascii -> bool) (s : string) :
  PyStr.upper s = s -> PyStr.upper (PyStr.strip p s) = PyStr.strip p s.
Proof.
  intros H. unfold PyStr.strip.
  destruct (lstrip_is_drop p s) as [n ->].
  destruct (rstrip_is_take p (PyStr.drop n s)) as [m ->].
  apply upper_fixed_take. now apply upper_fixed_drop.
Qed.

(** X3. A symbol returned by the Orderly normaliser is never empty, is
    upper-case, and neither starts nor ends with ['_'], ['-'] or a blank;
    stripping it again changes nothing. *)
Theorem orderly_normalized_symbol_is_clean (symbol t : string) :
  OrderlyFundingRates._normalize_symbol symbol = Some t ->
  PyStr.falsy t = false
  /\ PyStr.upper t = t
  /\ first_char (fun c => negb (PyStr.is_sep c)) t = true
  /\ last_char (fun c => negb (PyStr.is_sep c)) t = true
  /\ PyStr.strip PyStr.is_sep t = t.
Proof.
  unfold OrderlyFundingRates._normalize_symbol.
  destruct (PyStr.falsy symbol); [discriminate|].
  destruct (PyStr.falsy (PyStr.strip PyStr.is_sep (strip_markers (PyStr.upper symbol))))
    eqn:E; [discriminate|].
  intros H. injection H as <-.
  destruct (strip_ends PyStr.is_sep (strip_markers (PyStr.upper symbol))) as [H1 [H2 H3]].
  repeat split; auto.
  apply upper_fixed_strip, upper_fixed_strip_markers, upper_idem.
Qed.

Lemma orderly_normalized_symbol_is_clean_witness :
  PyStr.strip PyStr.is_sep "ETH" = "ETH".
Proof.
  exact (proj2 (proj2 (proj2 (proj2
    (orderly_normalized_symbol_is_clean "perp__eth_-usdc" "ETH" eq_refl))))).
Defined.

(** ** Accumulating the rates of a venue *)

Lemma dict_get_set_same {V : Type} (k : string) (v : V) (d : list (string * V)) :
  PyDict.get k (PyDict.set k v d) = Some v.
Proof.
  induction d as [|[k' v'] r IH]; cbn.
  - now rewrite String.eqb_refl.
  - destruct (String.eqb k' k) eqn:E; cbn.
    + now rewrite String.eqb_refl.
    + now rewrite E.
Qed.

Lemma dict_get_set_other {V : Type} (k k0 : string) (v : V) (d : list (string * V)) :
  k0 <> k -> PyDict.get k0 (PyDict.set k v d) = PyDict.get k0 d.
Proof.
  intros Hne. induction d as [|[k' v'] r IH]; cbn.
  - destruct (String.eqb_spec k k0); [congruence | reflexivity].
  - destruct (String.eqb_spec k' k) as [->|Hk]; cbn.
    + destruct (String.eqb_spec k k0); [congruence | reflexivity].
    + destruct (String.eqb k' k0); [reflexivity | exact IH].
Qed.

(** Assigning to a key keeps the positions of the keys already there. *)
Lemma dict_set_keeps_order {V : Type} (k : string) (v : V) (d : list (string * V)) :
  map fst (PyDict.set k v d)
  = if str_in k (map fst d) then map fst d else map fst d ++ [k].
Proof.
  induction d as [|[k' v'] r IH]; [reflexivity|].
  cbn [PyDict.set map fst str_in existsb].
  destruct (String.eqb_spec k' k) as [->|Hne].
  - now rewrite String.eqb_refl.
  - cbn [map fst]. rewrite IH. unfold str_in.
    destruct (String.eqb_spec k k'); [congruence|]. cbn [orb].
    now destruct (existsb (String.eqb k) (map fst r)).
Qed.

Lemma normalize_into_keys (rates acc : RawRates) :
  NoDup (map fst acc) ->
  NoDup (map fst (normalize_into rates acc))
  /\ forall k, In k (map fst (normalize_into rates acc))
               <-> In k (map fst acc)
                   \/ (PyStr.falsy k = false
                       /\ exists sr, In sr rates
                                     /\ FundingRateArbitrage._normalize_symbol (fst sr) = k).
Proof.
  revert acc. induction rates as [|sr rest IH]; intros acc Hnd; cbn.
  - split; [exact Hnd|]. intros k. split; [auto|]. intros [H|[_ [sr [[] _]]]]. exact H.
  - destruct (PyStr.falsy (FundingRateArbitrage._normalize_symbol (fst sr))) eqn:E.
    + destruct (IH acc Hnd) as [H1 H2]. split; [exact H1|].
      intros k. rewrite H2. split.
      * intros [H|[Hk [sr' [Hin Hn]]]]; [auto|]. right. split; [exact Hk|]. eauto.
      * intros [H|[Hk [sr' [[<-|Hin] Hn]]]]; [auto | congruence |].
        right. split; [exact Hk|]. eauto.
    + destruct (dict_set_keys (FundingRateArbitrage._normalize_symbol (fst sr)) (snd sr)
                  acc Hnd) as [Hnd' Hk'].
      destruct (IH _ Hnd') as [H1 H2]. split; [exact H1|].
      intros k. rewrite H2, Hk'. split.
      * intros [[->|H]|[Hk [sr' [Hin Hn]]]]; [right; split; eauto | auto |].
        right. split; [exact Hk|]. eauto.
      * intros [H|[Hk [sr' [[<-|Hin] Hn]]]]; [auto | auto |].
        right. split; [exact Hk|]. eauto.
Qed.

(** X4. The dictionary a venue is stored with has pairwise distinct keys;
    they are exactly the normal forms of the venue's raw symbols that are
    not empty, and they are upper-case. *)
Theorem normalized_rates_keys (rates : RawRates) :
  NoDup (map fst (FundingRateArbitrage.normalize_rates rates))
  /\ forall k,
       In k (map fst (FundingRateArbitrage.normalize_rates rates))
       <-> PyStr.falsy k = false
           /\ PyStr.upper k = k
           /\ exists sr, In sr rates /\ FundingRateArbitrage._normalize_symbol (fst sr) = k.
Proof.
  change (FundingRateArbitrage.normalize_rates rates) with (normalize_into rates []).
  destruct (normalize_into_keys rates [] (NoDup_nil _)) as [H1 H2].
  split; [exact H1|]. intros k. rewrite H2. cbn. split.
  - intros [[]|[Hk [sr [Hin Hn]]]]. repeat split; eauto.
    rewrite <- Hn. apply normalize_symbol_upper.
  - intros [Hk [_ Hex]]. auto.
Qed.

Lemma normalize_into_lookup (k : string) (rates acc : RawRates) :
  PyStr.falsy k = false ->
  PyDict.get k (normalize_into rates acc) = last_rate_from k rates (PyDict.get k acc).
Proof.
  intros Hk. revert acc. induction rates as [|sr rest IH]; intros acc; [reflexivity|].
  cbn. destruct (PyStr.falsy (FundingRateArbitrage._normalize_symbol (fst sr))) eqn:E.
  - destruct (String.eqb_spec (FundingRateArbitrage._normalize_symbol (fst sr)) k) as [He|Hne].
    + rewrite He in E. congruence.
    + apply IH.
  - rewrite IH.
    destruct (String.eqb_spec (FundingRateArbitrage._normalize_symbol (fst sr)) k) as [He|Hne].
    + rewrite He, dict_get_set_same. reflexivity.
    + rewrite dict_get_set_other by congruence. reflexivity.
Qed.

(** X5. Last write wins: where several raw symbols of a venue have the same
    normal form, the venue is stored with the rate of the last of them; a
    normal form that no raw symbol has is not stored. *)
Theorem normalized_rates_last_write_wins (k : string) (rates : RawRates) :
  PyStr.falsy k = false ->
  PyDict.get k (FundingRateArbitrage.normalize_rates rates) = last_rate k rates.
Proof.
  intros Hk. exact (normalize_into_lookup k rates [] Hk).
Qed.

Lemma normalized_rates_last_write_wins_witness :
  PyDict.get "BTC"
    (FundingRateArbitrage.normalize_rates
       [("BTC_USDC", 1%float); ("ETH", 2%float); ("PERP_BTC_USDT", 3%float)])
  = Some 3%float.
Proof.
  rewrite (normalized_rates_last_write_wins "BTC" _ eq_refl). reflexivity.
Defined.

Lemma unusable_normalizes_to_nothing (rs acc : RawRates) :
  forallb (fun sr => PyStr.falsy (FundingRateArbitrage._normalize_symbol (fst sr))) rs = true ->
  normalize_into rs acc = acc.
Proof.
  revert acc. induction rs as [|sr rest IH]; intros acc H; [reflexivity|].
  cbn in *. apply andb_true_iff in H as [H1 H2]. rewrite H1. now apply IH.
Qed.

(** X6. A fetch that brings nothing usable ([None], the empty dictionary, or
    symbols that all normalise to the empty string) leaves the accumulated
    rates as they were, and a run of [add_dex_rates] calls ends in the same
    state with or without it: the venue is absent, not empty, and rates it
    was stored with earlier stay. *)
Theorem unusable_fetch_is_skipped (self : DexRates) (dex : string)
    (rates : option RawRates) :
  unusable rates = true ->
  FundingRateArbitrage.add_dex_rates self dex rates = self
  /\ forall before after,
       dex_rates_after (before ++ (dex, rates) :: after)
       = dex_rates_after (before ++ after).
Proof.
  intros Hu.
  assert (Hadd : forall s, FundingRateArbitrage.add_dex_rates s dex rates = s).
  { intros s. unfold FundingRateArbitrage.add_dex_rates.
    destruct rates as [[|sr rs]|]; try reflexivity.
    change (FundingRateArbitrage.normalize_rates (sr :: rs)) with (normalize_into (sr :: rs) []).
    now rewrite (unusable_normalizes_to_nothing (sr :: rs) [] Hu). }
  split; [apply Hadd|].
  intros before after. unfold dex_rates_after.
  rewrite !fold_left_app. cbn [fold_left fst snd]. now rewrite Hadd.
Qed.

Lemma unusable_fetch_is_skipped_witness :
  dex_rates_after [("orderly", Some scenario_orderly); ("backpack", Some [("_PERP", 1%float)]);
                   ("hyperliquid", Some scenario_hyperliquid)]
  = dex_rates_after [("orderly", Some scenario_orderly);
                     ("hyperliquid", Some scenario_hyperliquid)].
Proof.
  exact (proj2 (unusable_fetch_is_skipped [] "backpack" (Some [("_PERP", 1%float)]) eq_refl)
           [("orderly", Some scenario_orderly)] [("hyperliquid", Some scenario_hyperliquid)]).
Defined.

(** X7. A fetch with at least one usable symbol stores the venue: its entry
    is then the normalised dictionary of this fetch (an earlier one is
    replaced), the entries of the other venues are untouched, and the venue
    keeps its position if it had one and goes last otherwise. *)
Theorem usable_fetch_is_stored (self : DexRates) (dex : string) (rs : RawRates) :
  FundingRateArbitrage.normalize_rates rs <> [] ->
  let self' := FundingRateArbitrage.add_dex_rates self dex (Some rs) in
  PyDict.get dex self' = Some (FundingRateArbitrage.normalize_rates rs)
  /\ (forall other, other <> dex -> PyDict.get other self' = PyDict.get other self)
  /\ map fst self'
     = if str_in dex (map fst self) then map fst self else map fst self ++ [dex].
Proof.
  intros Hne self'. subst self'. unfold FundingRateArbitrage.add_dex_rates.
  destruct rs as [|sr rs']; [now contradiction Hne|].
  destruct (FundingRateArbitrage.normalize_rates (sr :: rs')) as [|n ns] eqn:E;
    [now contradiction Hne|].
  repeat split.
  - apply dict_get_set_same.
  - intros other Ho. now apply dict_get_set_other.
  - apply dict_set_keeps_order.
Qed.

Lemma usable_fetch_is_stored_witness :
  PyDict.get "orderly"
    (FundingRateArbitrage.add_dex_rates demo_dex_rates "orderly" (Some scenario_orderly))
  = Some (FundingRateArbitrage.normalize_rates scenario_orderly).
Proof.
  refine (proj1 (usable_fetch_is_stored demo_dex_rates "orderly" scenario_orderly _)).
  discriminate.
Defined.

(** ** The order of binary64 values *)

Lemma SFltb_key (X Y : spec_float) :
  X <> S754_nan -> Y <> S754_nan ->
  (SFltb X Y = true <-> key_lt (SFkey X) (SFkey Y)).
Proof.
  intros HX HY. unfold SFltb.
  destruct X as [sx|sx| |sx mx ex], Y as [sy|sy| |sy my ey]; try congruence;
    try destruct sx; try destruct sy; cbn; try (split; [discriminate | lia]);
    try (split; [lia | discriminate]); try (split; intros; [lia | reflexivity]).
  - rewrite Pos.compare_cont_spec; cbn [Pos.switch_Eq].
    destruct (Z.compare_spec ex ey) as [E|E|E]; cbn.
    + subst. destruct (Pos.compare_spec mx my) as [E'|E'|E']; cbn;
        (split; [try discriminate; intros _|try reflexivity; intros H]); try lia.
    + split; [discriminate | lia].
    + split; [lia | reflexivity].
  - rewrite Pos.compare_cont_spec; cbn [Pos.switch_Eq].
    destruct (Z.compare_spec ex ey) as [E|E|E]; cbn.
    + subst. destruct (Pos.compare_spec mx my) as [E'|E'|E']; cbn;
        (split; [try discriminate; intros _|try reflexivity; intros H]); try lia.
    + split; [lia | reflexivity].
    + split; [discriminate | lia].
Qed.

Lemma Prim2SF_notna (x : float) : PrimFloat.is_nan x = false -> Prim2SF x <> S754_nan.
Proof.
  unfold PrimFloat.is_nan. rewrite eqb_spec. intros H E. rewrite E in H. discriminate.
Qed.

(** On floats that are not NaN, "not below" is transitive. *)
Lemma not_ltb_trans (a b c : float) :
  PrimFloat.is_nan a = false -> PrimFloat.is_nan b = false -> PrimFloat.is_nan c = false ->
  PrimFloat.ltb a b = false -> PrimFloat.ltb b c = false -> PrimFloat.ltb a c = false.
Proof.
  intros Ha Hb Hc. apply Prim2SF_notna in Ha, Hb, Hc.
  rewrite !ltb_spec. intros H1 H2.
  destruct (SFltb (Prim2SF a) (Prim2SF c)) eqn:E; [|reflexivity].
  apply (SFltb_key _ _ Ha Hc) in E.
  assert (N1 : ~ key_lt (SFkey (Prim2SF a)) (SFkey (Prim2SF b))).
  { intros K. apply (SFltb_key _ _ Ha Hb) in K. congruence. }
  assert (N2 : ~ key_lt (SFkey (Prim2SF b)) (SFkey (Prim2SF c))).
  { intros K. apply (SFltb_key _ _ Hb Hc) in K. congruence. }
  exfalso. revert E N1 N2.
  destruct (SFkey (Prim2SF a)) as [[c1 e1] m1], (SFkey (Prim2SF b)) as [[c2 e2] m2],
    (SFkey (Prim2SF c)) as [[c3 e3] m3].
  unfold key_lt. lia.
Qed.

Lemma ltb_irrefl (a : float) : PrimFloat.ltb a a = false.
Proof.
  rewrite ltb_spec. unfold SFltb.
  destruct (SFcompare (Prim2SF a) (Prim2SF a)) as [[| |]|] eqn:E; try reflexivity.
  exfalso. destruct (Prim2SF a) as [s|s| |s m e]; cbn in E; try discriminate.
  - destruct s; discriminate.
  - rewrite Z.compare_refl, Pos.compare_cont_refl in E. destruct s; discriminate.
Qed.

(** ** The compiled frame *)

(** X8. The frame of [compile_rates] has one column per venue, in the order
    the venues were stored, and one row per symbol that some venue has, each
    symbol once; a cell holds the venue's rate for the symbol and NaN where
    the venue has none. *)
Theorem compiled_frame_shape (self : DexRates) :
  distinct (map fst self) = true ->
  columns (FundingRateArbitrage.compile_rates self) = map fst self
  /\ NoDup (symbols (FundingRateArbitrage.compile_rates self))
  /\ (forall sym, In sym (symbols (FundingRateArbitrage.compile_rates self))
                  <-> exists dr, In dr self /\ In sym (map fst (snd dr)))
  /\ (forall r dr, In r (rows (FundingRateArbitrage.compile_rates self)) -> In dr self ->
        cell_of (fst dr) r
        = match PyDict.get (fst r) (snd dr) with Some rate => rate | None => nan end).
Proof.
  intros Hd. apply distinct_NoDup in Hd.
  assert (Hs : symbols (FundingRateArbitrage.compile_rates self)
               = FundingRateArbitrage.concat_index self).
  { unfold symbols. rewrite compile_rates_rows, map_map. cbn. apply map_id. }
  split; [apply compile_rates_columns|]. rewrite Hs.
  split; [apply concat_index_NoDup|].
  split; [apply concat_index_In|].
  intros r dr Hr Hdr. rewrite compile_rates_rows in Hr.
  apply in_map_iff in Hr as [sym [<- _]]. unfold cell_of, venue_cells. cbn [fst snd].
  now rewrite (dict_get_map fst (fun dr => FundingRateArbitrage.series_at (snd dr) sym)
                 self dr Hd Hdr).
Qed.

Lemma compiled_frame_shape_witness :
  symbols (FundingRateArbitrage.compile_rates demo_dex_rates) = ["BTC"; "ETH"; "SOL"; "DOGE"]
  /\ columns (FundingRateArbitrage.compile_rates demo_dex_rates)
     = ["orderly"; "hyperliquid"; "backpack"].
Proof.
  split; [reflexivity|].
  exact (proj1 (compiled_frame_shape demo_dex_rates eq_refl)).
Defined.

(** ** Extrema of a row *)

Section SkippingFold.

Variable better : float -> float -> bool.
Hypothesis better_asym : forall a b, better a b = true -> better b a = false.
Hypothesis better_trans :
  forall a b c,
    PrimFloat.is_nan a = false -> PrimFloat.is_nan b = false -> PrimFloat.is_nan c = false ->
    better a b = false -> better b c = false -> better a c = false.

Lemma nan_skipping_fold_notna (xs : list float) (acc : float) :
  PrimFloat.is_nan acc = false ->
  PrimFloat.is_nan (nan_skipping_fold better xs acc) = false.
Proof.
  intros Ha. destruct (nan_skipping_fold_pick better xs acc) as [[H _]|[H _]];
    [exact H | congruence].
Qed.

Lemma nan_skipping_fold_cons (x : float) (xs : list float) (acc : float) :
  nan_skipping_fold better (x :: xs) acc
  = nan_skipping_fold better xs
      (if PrimFloat.is_nan x then acc
       else if PrimFloat.is_nan acc then x
       else if better acc x then x else acc).
Proof. reflexivity. Qed.

(** The result of the fold is not bettered by the starting value nor by any
    element, NaN apart. *)
Lemma nan_skipping_fold_bound (xs : list float) (acc : float) :
  (PrimFloat.is_nan acc = false -> better (nan_skipping_fold better xs acc) acc = false)
  /\ forall y, In y xs -> PrimFloat.is_nan y = false ->
               better (nan_skipping_fold better xs acc) y = false.
Proof.
  revert acc. induction xs as [|x r IH]; intros acc.
  - split; [|intros y []]. intros Ha. cbn.
    destruct (better acc acc) eqn:E; [|reflexivity]. now rewrite (better_asym _ _ E) in E.
  - rewrite nan_skipping_fold_cons.
    destruct (PrimFloat.is_nan x) eqn:Ex.
    + destruct (IH acc) as [H1 H2]. split; [exact H1|].
      intros y [<-|Hy] Hn; [congruence | now apply H2].
    + destruct (PrimFloat.is_nan acc) eqn:Ea.
      * destruct (IH x) as [H1 H2]. split; [discriminate|].
        intros y [<-|Hy] Hn; [now apply H1 | now apply H2].
      * destruct (better acc x) eqn:Eb.
        -- destruct (IH x) as [H1 H2].
           pose proof (nan_skipping_fold_notna r x Ex) as Hres. split.
           ++ intros _. apply (better_trans _ x acc Hres Ex Ea (H1 Ex)).
              now apply better_asym.
           ++ intros y [<-|Hy] Hn; [now apply H1 | now apply H2].
        -- destruct (IH acc) as [H1 H2].
           pose proof (nan_skipping_fold_notna r acc Ea) as Hres.
           split; [intros _; exact (H1 Ea)|].
           intros y [<-|Hy] Hn; [|now apply H2].
           exact (better_trans _ acc x Hres Ea Ex (H1 Ea) Eb).
Qed.

End SkippingFold.

(** [nanmax] is not below any value of the row that is not NaN. *)
Lemma nanmax_upper_bound (xs : list float) (x : float) :
  In x xs -> notna x = true -> PrimFloat.ltb (nanmax xs) x = false.
Proof.
  intros Hin Hx. unfold notna in Hx. apply negb_true_iff in Hx.
  exact (proj2 (nan_skipping_fold_bound (fun acc y => PrimFloat.ltb acc y)
                  ltb_asym not_ltb_trans xs nan) x Hin Hx).
Qed.

(** [nanmin] is not above any value of the row that is not NaN. *)
Lemma nanmin_lower_bound (xs : list float) (x : float) :
  In x xs -> notna x = true -> PrimFloat.ltb x (nanmin xs) = false.
Proof.
  intros Hin Hx. unfold notna in Hx. apply negb_true_iff in Hx.
  refine (proj2 (nan_skipping_fold_bound (fun acc y => PrimFloat.ltb y acc) _ _ xs nan)
            x Hin Hx).
  - intros a b. apply ltb_asym.
  - intros a b c Ha Hb Hc H1 H2. now apply (not_ltb_trans c b a).
Qed.

(** The minimum of a row is the same with the maximum of the row added to
    it. *)
Lemma nanmin_with_nanmax (xs : list float) :
  nanmin (xs ++ [nanmax xs]) = nanmin xs.
Proof.
  unfold nanmin at 1. rewrite fold_left_app. fold (nanmin xs). cbn [fold_left].
  destruct (PrimFloat.is_nan (nanmax xs)) eqn:Emax; [reflexivity|].
  destruct (nan_skipping_fold_pick (fun acc y => PrimFloat.ltb acc y) xs nan)
    as [[_ [Hin|Hnan]]|[_ [Hnan _]]];
    change (nan_skipping_fold (fun acc y => PrimFloat.ltb acc y) xs nan) with (nanmax xs) in *;
    try (rewrite Hnan in Emax; discriminate).
  assert (Hn : notna (nanmax xs) = true) by (unfold notna; now rewrite Emax).
  destruct (nanmin_pick xs _ Hin Hn) as [Hmin Hminn].
  unfold notna in Hminn. apply negb_true_iff in Hminn. rewrite Hminn.
  rewrite (nanmax_upper_bound xs (nanmin xs) Hmin); [reflexivity|].
  unfold notna. now rewrite Hminn.
Qed.

(** X9. In every row of the rates table, [MaxRate] is not below and
    [MinRate] is not above the rate of any venue that reports the symbol,
    and [MaxRate] is not below [MinRate]. *)
Theorem table_extrema_bound_the_rates (self : DexRates) (r : Row) :
  venue_names_ok self = true ->
  In r (rows (rates_table self)) ->
  (forall dr, In dr self -> reports (snd dr) (fst r) = true ->
     PrimFloat.ltb (cell_of "MaxRate" r) (FundingRateArbitrage.series_at (snd dr) (fst r)) = false
     /\ PrimFloat.ltb (FundingRateArbitrage.series_at (snd dr) (fst r)) (cell_of "MinRate" r)
        = false)
  /\ PrimFloat.ltb (cell_of "MaxRate" r) (cell_of "MinRate" r) = false.
Proof.
  intros Hok Hin.
  destruct (rates_table_row self Hok r Hin) as [Hr [_ Hc]].
  set (sym := fst r) in *. rewrite Hr.
  rewrite (cell_of_MaxRate self Hok), (cell_of_MinRate self Hok), nanmin_with_nanmax.
  rewrite (venue_cells_values self).
  assert (Hb : forall dr, In dr self -> reports (snd dr) sym = true ->
            PrimFloat.ltb
              (nanmax (map (fun dr => FundingRateArbitrage.series_at (snd dr) sym) self))
              (FundingRateArbitrage.series_at (snd dr) sym) = false
            /\ PrimFloat.ltb (FundingRateArbitrage.series_at (snd dr) sym)
                 (nanmin (map (fun dr => FundingRateArbitrage.series_at (snd dr) sym) self))
               = false).
  { intros dr Hdr Hrep. rewrite <- notna_series_at in Hrep.
    assert (Hv : In (FundingRateArbitrage.series_at (snd dr) sym)
                   (map (fun dr => FundingRateArbitrage.series_at (snd dr) sym) self))
      by now apply (in_map (fun dr => FundingRateArbitrage.series_at (snd dr) sym)).
    split; [now apply nanmax_upper_bound | now apply nanmin_lower_bound]. }
  split; [exact Hb|].
  assert (Hc1 : 1 <= coverage self sym) by lia.
  destruct (MinRate_reported self Hok sym Hc1) as [dr [Hdr [Hrep Hmin]]].
  rewrite (cell_of_MinRate self Hok), nanmin_with_nanmax, (venue_cells_values self) in Hmin.
  rewrite Hmin. exact (proj1 (Hb dr Hdr Hrep)).
Qed.

Lemma table_extrema_bound_the_rates_witness :
  PrimFloat.ltb (cell_of "MaxRate" (table_row demo_dex_rates "BTC"))
                (cell_of "MinRate" (table_row demo_dex_rates "BTC")) = false.
Proof.
  refine (proj2 (table_extrema_bound_the_rates demo_dex_rates
                   (table_row demo_dex_rates "BTC") eq_refl _)).
  vm_compute. left. reflexivity.
Defined.

(** X10. [MinRate] is the minimum over the venue columns alone, although the
    source takes it over the frame that already holds [MaxRate]; [MaxRate]
    is the maximum over the venue columns, and [Difference] their
    difference. *)
Theorem table_service_columns (self : DexRates) (r : Row) :
  venue_names_ok self = true ->
  In r (rows (rates_table self)) ->
  let rates := map (fun dr => FundingRateArbitrage.series_at (snd dr) (fst r)) self in
  cell_of "MaxRate" r = nanmax rates
  /\ cell_of "MinRate" r = nanmin rates
  /\ cell_of "Difference" r = PrimFloat.sub (nanmax rates) (nanmin rates).
Proof.
  intros Hok Hin rates.
  destruct (rates_table_row self Hok r Hin) as [Hr _].
  assert (Hmax : cell_of "MaxRate" r = nanmax rates).
  { rewrite Hr at 1. now rewrite (cell_of_MaxRate self Hok), (venue_cells_values self). }
  assert (Hmin : cell_of "MinRate" r = nanmin rates).
  { rewrite Hr at 1.
    now rewrite (cell_of_MinRate self Hok), nanmin_with_nanmax, (venue_cells_values self). }
  repeat split; auto.
  rewrite <- Hmax, <- Hmin. rewrite Hr at 1. rewrite (cell_of_Difference self Hok).
  now rewrite <- Hr.
Qed.

Lemma table_service_columns_witness :
  cell_of "MinRate" (table_row demo_dex_rates "DOGE")
  = nanmin (map (fun dr => FundingRateArbitrage.series_at (snd dr) "DOGE") demo_dex_rates).
Proof.
  refine (proj1 (proj2 (table_service_columns demo_dex_rates
                          (table_row demo_dex_rates "DOGE") eq_refl _))).
  vm_compute. do 3 right. left. reflexivity.
Defined.

(** ** More on the ranked outputs *)

Lemma eqb_true_notna (x y : float) :
  PrimFloat.eqb x y = true -> PrimFloat.eqb y y = true.
Proof.
  rewrite !eqb_spec. unfold SFeqb. intros H.
  rewrite SFcompare_refl; [reflexivity|].
  intros E. rewrite E in H. destruct (Prim2SF x); discriminate.
Qed.

(** X11. A row shown by either top-N mode has a maximum and a minimum rate
    that differ, and a difference that is a number. *)
Theorem ranked_rows_have_a_spread (sort_values : Sorter) (self : DexRates) (top_n : nat)
    (r : Row) :
  sorter_ok sort_values ->
  venue_names_ok self = true ->
  In r (shown_rows (FundingRateArbitrage.display_top_rates_differences_from_Orderly
                      sort_values (rates_table self) top_n))
  \/ In r (shown_rows (FundingRateArbitrage.display_top_rates_differences_from_all_DEXs
                         sort_values (rates_table self) top_n)) ->
  PrimFloat.eqb (cell_of "MaxRate" r) (cell_of "MinRate" r) = false
  /\ PrimFloat.is_nan (cell_of "Difference" r) = false.
Proof.
  intros Hs Hok Hshown.
  assert (H : In r (rows (rates_table self))
              /\ FundingRateArbitrage.nonzero_difference r = true).
  { destruct Hshown as [H|H].
    - apply (top_orderly_rows _ _ _ _ Hs) in H. tauto.
    - apply (top_all_rows _ _ _ _ Hs) in H. tauto. }
  destruct H as [Hin Hnz].
  split; [|now apply positive_abs_notna].
  destruct (rates_table_row self Hok r Hin) as [Hr _].
  destruct (PrimFloat.eqb (cell_of "MaxRate" r) (cell_of "MinRate" r)) eqn:E; [|reflexivity].
  unfold FundingRateArbitrage.nonzero_difference in Hnz.
  rewrite Hr in Hnz at 1. rewrite (cell_of_Difference self Hok), <- Hr in Hnz.
  rewrite (equal_rates_no_spread _ _ (cell_of "MinRate" r) E (eqb_true_notna _ _ E)) in Hnz.
  discriminate.
Qed.

Lemma ranked_rows_have_a_spread_witness :
  PrimFloat.eqb (cell_of "MaxRate" (table_row demo_dex_rates "SOL"))
                (cell_of "MinRate" (table_row demo_dex_rates "SOL")) = false.
Proof.
  refine (proj1 (ranked_rows_have_a_spread sort_values_insertion demo_dex_rates 3
                   (table_row demo_dex_rates "SOL") sort_values_insertion_ok eq_refl _)).
  right. vm_compute. left. reflexivity.
Defined.

(** X12. The anchored top-N shows only symbols that the venue stored as
    ["orderly"] reports; without such a venue it shows no row. *)
Theorem anchored_rows_are_reported_by_orderly (sort_values : Sorter) (self : DexRates)
    (top_n : nat) (r : Row) :
  sorter_ok sort_values ->
  venue_names_ok self = true ->
  In r (shown_rows (FundingRateArbitrage.display_top_rates_differences_from_Orderly
                      sort_values (rates_table self) top_n)) ->
  exists rates, In ("orderly", rates) self /\ reports rates (fst r) = true.
Proof.
  intros Hs Hok Hshown.
  apply (top_orderly_rows _ _ _ _ Hs) in Hshown as [Hin [Hna _]].
  destruct (rates_table_row self Hok r Hin) as [Hr _].
  assert (Hna' : notna (cell_of "orderly" (table_row self (fst r))) = true)
    by (rewrite <- Hr; exact Hna).
  assert (Hv : In "orderly" (map fst self)).
  { unfold cell_of in Hna'.
    destruct (PyDict.get "orderly" (snd (table_row self (fst r)))) as [v|] eqn:E;
      [|discriminate].
    unfold table_row in E. cbv zeta in E. cbn [snd] in E. rewrite dict_get_app in E.
    destruct (PyDict.get "orderly" (venue_cells self (fst r))) as [v'|] eqn:Ev;
      [|cbn in E; discriminate].
    apply dict_get_Some_In in Ev. now rewrite venue_cells_keys in Ev. }
  apply in_map_iff in Hv as [[d rates] [Hd Hdr]]. cbn in Hd. subst d.
  exists rates. split; [exact Hdr|].
  rewrite <- notna_series_at.
  now rewrite (cell_of_venue self Hok ("orderly", rates) _ Hdr) in Hna'.
Qed.

Lemma anchored_rows_are_reported_by_orderly_witness :
  exists rates, In ("orderly", rates) demo_dex_rates /\ reports rates "ETH" = true.
Proof.
  refine (anchored_rows_are_reported_by_orderly sort_values_insertion demo_dex_rates 3
            (table_row demo_dex_rates "ETH") sort_values_insertion_ok eq_refl _).
  vm_compute. repeat (first [left; reflexivity | right]).
Defined.

Lemma no_dex_columns_no_eligible (df : DataFrame) :
  FundingRateArbitrage._dex_columns df = [] -> filter (eligible df) (rows df) = [].
Proof.
  intros Hd. unfold eligible. rewrite Hd.
  induction (rows df) as [|r l IH]; [reflexivity|]. cbn. exact IH.
Qed.

(** With room for all of them, the global top-N shows the eligible rows, in
    some order. *)
Lemma top_all_permutes_eligible (sort_values : Sorter) (df : DataFrame)
    (top_n : nat) :
  sorter_ok sort_values ->
  List.length (filter (eligible df) (rows df)) <= top_n ->
  Permutation
    (shown_rows (FundingRateArbitrage.display_top_rates_differences_from_all_DEXs
                   sort_values df top_n))
    (filter (eligible df) (rows df)).
Proof.
  intros Hs Hlen.
  unfold FundingRateArbitrage.display_top_rates_differences_from_all_DEXs.
  destruct (df_empty df) eqn:Ee.
  { cbn [shown_rows]. unfold df_empty in Ee.
    destruct (columns df) as [|c cs] eqn:Ec.
    - rewrite no_dex_columns_no_eligible; [constructor|].
      unfold FundingRateArbitrage._dex_columns. now rewrite Ec.
    - destruct (rows df); [constructor | discriminate]. }
  destruct (FundingRateArbitrage._dex_columns df) as [|c cs] eqn:Ed.
  { cbn [shown_rows]. rewrite no_dex_columns_no_eligible; [constructor | exact Ed]. }
  assert (Hmask : filter (eligible df) (rows df)
                  = filter (fun r => (2 <=? FundingRateArbitrage.non_na_count (c :: cs) r)%nat
                                     && FundingRateArbitrage.nonzero_difference r) (rows df)).
  { unfold eligible. now rewrite Ed. }
  rewrite Hmask in *.
  match goal with |- context [sort_values ?b ?a ?x] =>
    destruct (Hs b a x) as [Hc [Hp _]]; set (sorted := sort_values b a x) in * end.
  cbn [rows select columns] in Hp, Hc.
  assert (Hall : firstn top_n (rows sorted) = rows sorted).
  { apply firstn_all2. rewrite (Permutation_length Hp). exact Hlen. }
  destruct (df_empty (head top_n sorted)) eqn:Et; cbn [shown_rows head rows].
  - unfold df_empty, head in Et. cbn [columns rows] in Et. rewrite Hc, Hall in Et.
    unfold df_empty in Ee.
    destruct (columns df); [discriminate|].
    destruct (rows sorted) eqn:Er; [exact Hp | discriminate].
  - rewrite Hall. exact Hp.
Qed.

(** X13. The global top-N leaves out an eligible row for lack of room only:
    when N is at least the number of rows with two or more venues and a
    spread above zero, it shows exactly those rows, in some order; a symbol
    is then shown if and only if it has an eligible row. *)
Theorem top_all_shows_every_eligible_row (sort_values : Sorter) (df : DataFrame)
    (top_n : nat) :
  sorter_ok sort_values ->
  List.length (filter (eligible df) (rows df)) <= top_n ->
  Permutation
    (shown_rows (FundingRateArbitrage.display_top_rates_differences_from_all_DEXs
                   sort_values df top_n))
    (filter (eligible df) (rows df))
  /\ forall sym,
       In sym (shown_symbols
                 (FundingRateArbitrage.display_top_rates_differences_from_all_DEXs
                    sort_values df top_n))
       <-> exists r, In r (rows df) /\ eligible df r = true /\ fst r = sym.
Proof.
  intros Hs Hlen.
  pose proof (top_all_permutes_eligible sort_values df top_n Hs Hlen) as Hp.
  split; [exact Hp|]. intros sym. rewrite shown_symbols_In. split.
  - intros [r [Hr Hsym]]. exists r. apply (Permutation_in _ Hp), filter_In in Hr. tauto.
  - intros [r [Hr [He Hsym]]]. exists r. split; [|exact Hsym].
    apply (Permutation_in _ (Permutation_sym Hp)), filter_In. tauto.
Qed.

Lemma top_all_shows_every_eligible_row_witness :
  Permutation
    (shown_rows (FundingRateArbitrage.display_top_rates_differences_from_all_DEXs
                   sort_values_insertion (rates_table demo_dex_rates) 3))
    (filter (eligible (rates_table demo_dex_rates)) (rows (rates_table demo_dex_rates))).
Proof.
  refine (proj1 (top_all_shows_every_eligible_row sort_values_insertion
                   (rates_table demo_dex_rates) 3 sort_values_insertion_ok _)).
  vm_compute. repeat constructor.
Defined.

(** X14. What the anchored top-N shows is eligible for the global top-N: if
    N is at least the number of eligible rows, every row of the anchored
    output is a row of the global output. *)
Theorem anchored_rows_are_in_global_output (sort_values : Sorter) (df : DataFrame)
    (top_n : nat) (r : Row) :
  sorter_ok sort_values ->
  List.length (filter (eligible df) (rows df)) <= top_n ->
  In r (shown_rows (FundingRateArbitrage.display_top_rates_differences_from_Orderly
                      sort_values df top_n)) ->
  In r (shown_rows (FundingRateArbitrage.display_top_rates_differences_from_all_DEXs
                      sort_values df top_n)).
Proof.
  intros Hs Hlen Hin.
  apply (top_orderly_rows _ _ _ _ Hs) in Hin as [Hr [_ [Hc Hnz]]].
  apply (Permutation_in _ (Permutation_sym (top_all_permutes_eligible _ _ _ Hs Hlen))).
  apply filter_In. split; [exact Hr|]. unfold eligible. now rewrite Hc, Hnz.
Qed.

Lemma anchored_rows_are_in_global_output_witness :
  In (table_row demo_dex_rates "ETH")
     (shown_rows (FundingRateArbitrage.display_top_rates_differences_from_all_DEXs
                    sort_values_insertion (rates_table demo_dex_rates) 3)).
Proof.
  apply (anchored_rows_are_in_global_output sort_values_insertion (rates_table demo_dex_rates) 3
           (table_row demo_dex_rates "ETH") sort_values_insertion_ok).
  - vm_compute. repeat constructor.
  - vm_compute. repeat (first [left; reflexivity | right]).
Defined.

(** ** More on the order path *)

Lemma report_statuses_outcome {W : Type} (res : HLOrderResult) (sts : list HLStatus) (w : W) :
  exists l,
    HyperLiquidOrder.report_statuses res sts w
    = (match find (fun st => negb (is_filled st)) sts with
       | None => Return None
       | Some (Errored _) => Return (Some (RetStr (status res)))
       | Some _ => Raise (KeyError "error")
       end, w, l).
Proof.
  induction sts as [|st rest [l IH]]; [eexists; reflexivity|].
  destruct st; cbn -[find].
  - unfold bind, emit. rewrite IH. cbn [find is_filled negb].
    destruct (find (fun st => negb (is_filled st)) rest) as [[| |]|]; eexists; reflexivity.
  - eexists; reflexivity.
  - eexists; reflexivity.
Qed.

Lemma print_fills_all_filled {W : Type} (sts : list HLStatus) (w : W) :
  forallb is_filled sts = true ->
  exists l, print_fills sts w = (Return true, w, l).
Proof.
  induction sts as [|st rest IH]; cbn; [eexists; reflexivity|].
  destruct st; cbn; try discriminate. intros H. destruct (IH H) as [l Hl].
  unfold bind, emit. rewrite Hl. eexists; reflexivity.
Qed.

Lemma find_unfilled_none (sts : list HLStatus) :
  find (fun st => negb (is_filled st)) sts = None <-> forallb is_filled sts = true.
Proof.
  induction sts as [|st rest IH]; cbn; [tauto|].
  destruct (is_filled st); cbn; [exact IH | split; discriminate].
Qed.

(** X15. The outcomes of [create_order] on Hyperliquid. An unknown symbol
    raises [ValueError]. Otherwise the order is submitted; the call returns
    [True] when the exchange answers "ok" with fills only, [False] when the
    answer is not "ok", and raises when the answer is "ok" with a status that
    is not a fill: it never returns [False] for an order that the exchange
    answered "ok", so the [return False] of the loop in [create_order] is
    not reached. *)
Theorem hyperliquid_order_outcomes {W : Type} (V : Venues W)
    (symbol : string) (q : float) (side : Side) (w : W) :
  let run := create_order V "hyperliquid" symbol q side w in
  match find (fun asset => String.eqb (name asset) symbol) (hl_universe V w) with
  | None =>
      result_of run
      = Raise (ValueError ("Symbol '" ++ symbol ++ "' not found in the Hyperliquid universe."))
  | Some info =>
      match hl_submit V info q side w with
      | (Raise e, _) => result_of run = Raise e
      | (Return res, _) =>
          if String.eqb (status res) "ok" then
            if forallb is_filled (statuses res) then result_of run = Return true
            else result_of run = Raise (AttributeError "'str' object has no attribute 'get'")
                 \/ result_of run = Raise (KeyError "error")
          else result_of run = Return false
      end
  end.
Proof.
  intros run. subst run. unfold create_order.
  cbn [String.eqb Ascii.eqb Bool.eqb].
  unfold HyperLiquidOrder.create_market_order, result_of, bind, emit, ret, raise.
  destruct (find (fun asset => String.eqb (name asset) symbol) (hl_universe V w))
    as [info|]; [|reflexivity].
  destruct (hl_submit V info q side w) as [[res|e] w1]; [|reflexivity].
  destruct (String.eqb (status res) "ok") eqn:Es.
  - destruct (report_statuses_outcome res (statuses res) w1) as [l ->].
    destruct (find (fun st => negb (is_filled st)) (statuses res)) as [[| |]|] eqn:Ef.
    + apply find_some in Ef as [_ Ef]. discriminate.
    + assert (Hn : forallb is_filled (statuses res) = false).
      { destruct (forallb is_filled (statuses res)) eqn:E; [|reflexivity].
        apply find_unfilled_none in E. congruence. }
      rewrite Hn. left. reflexivity.
    + assert (Hn : forallb is_filled (statuses res) = false).
      { destruct (forallb is_filled (statuses res)) eqn:E; [|reflexivity].
        apply find_unfilled_none in E. congruence. }
      rewrite Hn. right. reflexivity.
    + apply find_unfilled_none in Ef. rewrite Ef. cbn.
      rewrite Es. destruct (print_fills_all_filled (statuses res) w1 Ef) as [l' ->].
      reflexivity.
  - cbn. rewrite Es. reflexivity.
Qed.

(** X16. One call of [create_order] makes one call of an adapter's
    [create_market_order], on the venue it names and with the symbol,
    quantity and side it was given, when the venue is Orderly or
    Hyperliquid; for any other venue it makes none, prints the
    "Unsupported DEX" line and returns [False]. It prints no line of the
    coordinator. *)
Theorem create_order_places_one_order {W : Type} (V : Venues W)
    (dex symbol : string) (q : float) (side : Side) (w : W) :
  let run := create_order V dex symbol q side w in
  existsb is_coordinator_line (events_of run) = false
  /\ if supported dex
     then order_calls (events_of run) = [OrderCall dex symbol q side]
     else run = (Return false, w, [Print (UnsupportedDex dex)]).
Proof.
  intros run. split.
  - apply (leg_events_no_coordinator_line dex symbol q side), create_order_footprint.
  - pose proof (create_order_calls V dex symbol q side w) as Hc. fold run in Hc.
    destruct (supported dex) eqn:Es; [exact Hc|].
    subst run. unfold create_order. unfold supported in Es.
    apply orb_false_iff in Es as [-> ->]. reflexivity.
Qed.

(** X17. Both legs filled: the coordinator returns [True]; the order calls of
    the run are the sell on the short venue followed by the buy on the long
    venue; it prints no line of its own. *)
Theorem both_legs_filled {W : Type} (V : Venues W)
    (symbol short long : string) (q : float) (w w1 w2 : W) (l1 l2 : list Event) :
  create_order V short symbol q SELL w = (Return true, w1, l1) ->
  create_order V long symbol q BUY w1 = (Return true, w2, l2) ->
  let run := execute_funding_rate_arbitrage V symbol short long q w in
  run = (Return true, w2, l1 ++ l2)
  /\ reported_state (result_of run) (events_of run) = Some BothFilled
  /\ order_calls (events_of run)
     = [OrderCall short symbol q SELL; OrderCall long symbol q BUY]
  /\ existsb is_coordinator_line (events_of run) = false.
Proof.
  intros Hs Hl run.
  assert (Hrun : run = (Return true, w2, l1 ++ l2)).
  { subst run. unfold execute_funding_rate_arbitrage, bind at 1. rewrite Hs.
    cbn [negb]. unfold bind at 1. rewrite Hl. cbn. now rewrite app_nil_r. }
  rewrite Hrun. cbn [result_of events_of fst snd]. repeat split.
  - pose proof (create_order_calls V short symbol q SELL w) as Hc1.
    rewrite Hs, (create_order_true_supported V _ _ _ _ _ _ _ Hs) in Hc1.
    pose proof (create_order_calls V long symbol q BUY w1) as Hc2.
    rewrite Hl, (create_order_true_supported V _ _ _ _ _ _ _ Hl) in Hc2.
    cbn [events_of snd] in Hc1, Hc2.
    unfold order_calls in *. now rewrite filter_app, Hc1, Hc2.
  - pose proof (create_order_footprint V short symbol q SELL w) as Hf1.
    pose proof (create_order_footprint V long symbol q BUY w1) as Hf2.
    rewrite Hs in Hf1. rewrite Hl in Hf2. cbn [events_of snd] in Hf1, Hf2.
    rewrite existsb_app.
    now rewrite (leg_events_no_coordinator_line _ _ _ _ _ Hf1),
      (leg_events_no_coordinator_line _ _ _ _ _ Hf2).
Qed.

Lemma both_legs_filled_witness :
  execute_funding_rate_arbitrage (demo_venues true hl_filled)
    "BTC" "orderly" "hyperliquid" 2%float tt
  = (Return true, tt,
     [OrderCall "orderly" "BTC" 2%float SELL; MarkPriceQuery "BTC";
      Print (OrderlyFilled "1001" "2" "65000.5");
      OrderCall "hyperliquid" "BTC" 2%float BUY; ExchangeSubmit "BTC" 2%float BUY;
      Print (AdapterFilled "77" "0.002" "65010.0");
      Print (HyperliquidFilled "77" "0.002" "65010.0")]).
Proof.
  exact (proj1 (both_legs_filled (demo_venues true hl_filled)
                  "BTC" "orderly" "hyperliquid" 2%float tt tt tt _ _ eq_refl eq_refl)).
Defined.

(** X18. A long leg that raises after a filled short: the run raises the
    same exception, after the sell on the short venue was placed, and the
    coordinator prints neither the abort line nor the request to close the
    short by hand. *)
Theorem long_leg_raises_after_filled_short {W : Type} (V : Venues W)
    (symbol short long : string) (q : float) (w w1 w2 : W) (l1 l2 : list Event)
    (e : PyExn) :
  create_order V short symbol q SELL w = (Return true, w1, l1) ->
  create_order V long symbol q BUY w1 = (Raise e, w2, l2) ->
  let run := execute_funding_rate_arbitrage V symbol short long q w in
  run = (Raise e, w2, l1 ++ l2)
  /\ reported_state (result_of run) (events_of run) = None
  /\ order_calls (events_of run) = OrderCall short symbol q SELL :: order_calls l2
  /\ existsb is_coordinator_line (events_of run) = false.
Proof.
  intros Hs Hl run.
  assert (Hrun : run = (Raise e, w2, l1 ++ l2)).
  { subst run. unfold execute_funding_rate_arbitrage, bind at 1. rewrite Hs.
    cbn [negb]. unfold bind at 1. now rewrite Hl. }
  rewrite Hrun. cbn [result_of events_of fst snd]. repeat split.
  - pose proof (create_order_calls V short symbol q SELL w) as Hc1.
    rewrite Hs, (create_order_true_supported V _ _ _ _ _ _ _ Hs) in Hc1.
    cbn [events_of snd] in Hc1.
    unfold order_calls in *. now rewrite filter_app, Hc1.
  - pose proof (create_order_footprint V short symbol q SELL w) as Hf1.
    pose proof (create_order_footprint V long symbol q BUY w1) as Hf2.
    rewrite Hs in Hf1. rewrite Hl in Hf2. cbn [events_of snd] in Hf1, Hf2.
    rewrite existsb_app.
    now rewrite (leg_events_no_coordinator_line _ _ _ _ _ Hf1),
      (leg_events_no_coordinator_line _ _ _ _ _ Hf2).
Qed.

Lemma long_leg_raises_after_filled_short_witness :
  execute_funding_rate_arbitrage (demo_venues true hl_filled)
    "DOGE" "orderly" "hyperliquid" 2%float tt
  = (Raise (ValueError "Symbol 'DOGE' not found in the Hyperliquid universe."), tt,
     [OrderCall "orderly" "DOGE" 2%float SELL; MarkPriceQuery "DOGE";
      Print (OrderlyFilled "1001" "2" "65000.5");
      OrderCall "hyperliquid" "DOGE" 2%float BUY]).
Proof.
  exact (proj1 (long_leg_raises_after_filled_short (demo_venues true hl_filled)
                  "DOGE" "orderly" "hyperliquid" 2%float tt tt tt _ _ _ eq_refl eq_refl)).
Defined.

(* ===================================================================== *)
(** ** The venue menus *)
(* ===================================================================== *)

Lemma py_index_None {A : Type} (xs : list A) (i : Z) :
  py_index xs i = None
  <-> (i < - Z.of_nat (List.length xs) \/ Z.of_nat (List.length xs) <= i)%Z.
Proof.
  unfold py_index.
  destruct ((0 <=? i) && (i <? Z.of_nat (List.length xs)))%Z eqn:E1.
  - apply andb_true_iff in E1 as [H1 H2].
    apply Z.leb_le in H1. apply Z.ltb_lt in H2.
    rewrite nth_error_None. split; lia.
  - destruct ((- Z.of_nat (List.length xs) <=? i) && (i <? 0))%Z eqn:E2.
    + apply andb_true_iff in E2 as [H1 H2].
      apply Z.leb_le in H1. apply Z.ltb_lt in H2.
      rewrite nth_error_None. split; lia.
    + apply andb_false_iff in E1. apply andb_false_iff in E2.
      rewrite Z.leb_gt, Z.ltb_ge in E1, E2. split; [lia | reflexivity].
Qed.

Lemma py_index_In {A : Type} (xs : list A) (i : Z) (x : A) :
  py_index xs i = Some x -> In x xs.
Proof.
  unfold py_index.
  destruct ((0 <=? i) && (i <? Z.of_nat (List.length xs)))%Z;
    [apply nth_error_In|].
  destruct ((- Z.of_nat (List.length xs) <=? i) && (i <? 0))%Z;
    [apply nth_error_In | discriminate].
Qed.

(** X19. [get_dex_from_dex_options] rejects a choice only when it is above
    the number of options or not above its negation: a choice from
    [-n + 1] to [0] is not rejected but counted from the end of the list,
    [0] being the last option. *)
Theorem choice_is_rejected_only_outside_range (dex_options : list string) (choice : Z) :
  let n := Z.of_nat (List.length dex_options) in
  (get_dex_from_dex_options dex_options choice = None
   <-> (choice <= - n \/ n < choice)%Z)
  /\ ((1 <= choice <= n)%Z ->
      get_dex_from_dex_options dex_options choice
      = nth_error dex_options (Z.to_nat (choice - 1)))
  /\ ((- n < choice <= 0)%Z ->
      get_dex_from_dex_options dex_options choice
      = nth_error dex_options (Z.to_nat (n + choice - 1))
      /\ get_dex_from_dex_options dex_options choice <> None).
Proof.
  intros n. unfold get_dex_from_dex_options. split; [|split].
  - rewrite py_index_None. fold n. lia.
  - intros H. unfold py_index. fold n.
    replace ((0 <=? choice - 1) && (choice - 1 <? n))%Z with true; [reflexivity|].
    symmetry. apply andb_true_iff. rewrite Z.leb_le, Z.ltb_lt. lia.
  - intros H. split.
    + unfold py_index. fold n.
      replace ((0 <=? choice - 1) && (choice - 1 <? n))%Z with false.
      * replace ((- n <=? choice - 1) && (choice - 1 <? 0))%Z with true.
        -- f_equal. f_equal. lia.
        -- symmetry. apply andb_true_iff. rewrite Z.leb_le, Z.ltb_lt. lia.
      * symmetry. apply andb_false_iff. rewrite Z.leb_gt. lia.
    + rewrite py_index_None. fold n. lia.
Qed.

(** X20. A reply that is not a number does not abort the selection of a
    venue when there are at least two options: [prompt_user] returns [-1]
    for it, and [get_dex_from_dex_options] takes the option before the
    last. With one option or none the choice is rejected. *)
Theorem reply_that_is_no_number_selects_a_venue (dex_options : list string) :
  (2 <= List.length dex_options)%nat ->
  get_dex_from_dex_options dex_options (prompt_user None)
  = nth_error dex_options (List.length dex_options - 2)
  /\ exists dex, get_dex_from_dex_options dex_options (prompt_user None) = Some dex
                 /\ In dex dex_options.
Proof.
  intros Hn.
  assert (H : get_dex_from_dex_options dex_options (prompt_user None)
              = nth_error dex_options (List.length dex_options - 2)).
  { unfold get_dex_from_dex_options, prompt_user, py_index.
    replace ((0 <=? -1 - 1) && (-1 - 1 <? Z.of_nat (List.length dex_options)))%Z with false
      by reflexivity.
    replace ((- Z.of_nat (List.length dex_options) <=? -1 - 1) && (-1 - 1 <? 0))%Z with true.
    - f_equal. lia.
    - symmetry. apply andb_true_iff. rewrite Z.leb_le, Z.ltb_lt. lia. }
  split; [exact H|].
  destruct (nth_error dex_options (List.length dex_options - 2)) as [dex|] eqn:E.
  - exists dex. split; [exact H|]. now apply nth_error_In in E.
  - apply nth_error_None in E. lia.
Qed.

Lemma reply_that_is_no_number_selects_a_venue_witness :
  get_dex_from_dex_options ["orderly"; "hyperliquid"] (prompt_user None) = Some "orderly".
Proof.
  exact (proj1 (reply_that_is_no_number_selects_a_venue ["orderly"; "hyperliquid"]
                  (le_n 2))).
Defined.

Lemma few_options_reject_no_number (dex_options : list string) :
  (List.length dex_options <= 1)%nat ->
  get_dex_from_dex_options dex_options (prompt_user None) = None.
Proof.
  intros Hn. unfold get_dex_from_dex_options. apply py_index_None. cbn. lia.
Qed.

(** X21. The venues that the "Execute Strategy" branch hands to
    [execute_funding_rate_arbitrage] are two different options of the menu,
    neither of them the empty string; the long venue is taken only for a
    choice from [1] to the number of remaining options. *)
Theorem selected_venues_are_distinct (dex_options : list string)
    (short_reply long_reply : option Z) (short_on_dex long_on_dex : string) :
  select_venues dex_options short_reply long_reply = Some (short_on_dex, long_on_dex) ->
  In short_on_dex dex_options
  /\ In long_on_dex dex_options
  /\ short_on_dex <> long_on_dex
  /\ PyStr.falsy short_on_dex = false
  /\ PyStr.falsy long_on_dex = false
  /\ (1 <= prompt_user long_reply
      <= Z.of_nat (List.length (remaining_dex dex_options short_on_dex)))%Z.
Proof.
  unfold select_venues. intros H.
  destruct (get_dex_from_dex_options dex_options (prompt_user short_reply))
    as [s|] eqn:Es; [|discriminate].
  destruct (PyStr.falsy s) eqn:Efs; [discriminate|].
  destruct ((1 <=? prompt_user long_reply)
            && (prompt_user long_reply <=? Z.of_nat (List.length (remaining_dex dex_options s))))%Z
    eqn:Eb; [|discriminate].
  destruct (py_index (remaining_dex dex_options s) (prompt_user long_reply - 1))
    as [l|] eqn:El; [|discriminate].
  destruct (PyStr.falsy l) eqn:Efl; [discriminate|].
  injection H as <- <-.
  apply py_index_In in Es. apply py_index_In in El.
  unfold remaining_dex in El. apply filter_In in El as [Hin Hne].
  apply negb_true_iff, String.eqb_neq in Hne.
  apply andb_true_iff in Eb as [H1 H2]. apply Z.leb_le in H1, H2.
  repeat split; auto.
Qed.

Lemma selected_venues_are_distinct_witness :
  select_venues ["orderly"; "hyperliquid"] (Some 1%Z) (Some 1%Z)
  = Some ("orderly", "hyperliquid")
  /\ In "hyperliquid" ["orderly"; "hyperliquid"].
Proof.
  split; [reflexivity|].
  exact (proj1 (proj2
    (selected_venues_are_distinct ["orderly"; "hyperliquid"] (Some 1%Z) (Some 1%Z)
       "orderly" "hyperliquid" eq_refl))).
Defined.

(* ===================================================================== *)
(** ** Closing a position *)
(* ===================================================================== *)

Lemma nonzero_abs_positive (q : float) :
  PrimFloat.eqb q PrimFloat.zero = false -> notna q = true ->
  PrimFloat.ltb PrimFloat.zero (PrimFloat.abs q) = true.
Proof.
  unfold notna, PrimFloat.is_nan.
  rewrite ltb_spec, abs_spec, !eqb_spec. intros H0 Hn.
  apply negb_true_iff, negb_false_iff in Hn.
  change (Prim2SF PrimFloat.zero) with (S754_zero false) in *.
  destruct (Prim2SF q) as [s|s| |s m e]; cbn in *; try discriminate; reflexivity.
Qed.

(** X22. Closing a flat Orderly position: the adapter places no order and
    returns [None], and [market_close_an_asset] of main.py raises
    AttributeError on it instead of returning [False]. *)
Theorem flat_orderly_position_raises {W : Type} (V : Venues W) (A : Accounts W)
    (symbol : string) (w w1 : W) (position_qty : float) :
  orderly_position_qty A symbol w = (position_qty, w1) ->
  PrimFloat.eqb position_qty PrimFloat.zero = true ->
  market_close_an_asset V A "orderly" symbol w
  = (Raise (AttributeError "'NoneType' object has no attribute 'get'"), w1,
     [PositionQuery symbol; ClosePrint NoPositionHeld]).
Proof.
  intros Hq H0. unfold market_close_an_asset, orderly_market_close_an_asset.
  cbn [String.eqb Ascii.eqb Bool.eqb]. now rewrite Hq, H0.
Qed.

Lemma flat_orderly_position_raises_witness :
  market_close_an_asset (demo_venues true hl_filled)
    (demo_accounts (-0)%float (mkCloseReply true None)) "orderly" "ETH" tt
  = (Raise (AttributeError "'NoneType' object has no attribute 'get'"), tt,
     [PositionQuery "ETH"; ClosePrint NoPositionHeld]).
Proof.
  exact (flat_orderly_position_raises (demo_venues true hl_filled)
           (demo_accounts (-0)%float (mkCloseReply true None)) "ETH" tt tt (-0)%float
           eq_refl eq_refl).
Defined.

(** X23. Closing an Orderly position that is not flat places one order, of
    positive quantity (the absolute position) and on the side opposite to
    the position: a buy for a short position, a sell for a long one. The
    result is the success flag of the reply. *)
Theorem orderly_close_opposes_the_position {W : Type} (V : Venues W) (A : Accounts W)
    (symbol : string) (w w1 w2 : W) (position_qty : float) (side : Side)
    (response : CloseReply) :
  orderly_position_qty A symbol w = (position_qty, w1) ->
  PrimFloat.eqb position_qty PrimFloat.zero = false ->
  notna position_qty = true ->
  side = (if PrimFloat.ltb position_qty PrimFloat.zero then BUY else SELL) ->
  orderly_close_order A symbol (PrimFloat.abs position_qty) side w1 = (response, w2) ->
  let run := market_close_an_asset V A "orderly" symbol w in
  fst run = (Return (close_success response), w2)
  /\ close_orders (snd run) = [CloseOrder symbol (PrimFloat.abs position_qty) side]
  /\ PrimFloat.ltb PrimFloat.zero (PrimFloat.abs position_qty) = true
  /\ (side = SELL <-> PrimFloat.ltb PrimFloat.zero position_qty = true).
Proof.
  intros Hq H0 Hn Hside Ho run. repeat split.
  - subst run side. unfold market_close_an_asset, orderly_market_close_an_asset.
    cbn [String.eqb Ascii.eqb Bool.eqb]. rewrite Hq, H0. cbn [negb]. rewrite Ho.
    now destruct (close_success response).
  - subst run side. unfold market_close_an_asset, orderly_market_close_an_asset.
    cbn [String.eqb Ascii.eqb Bool.eqb]. rewrite Hq, H0. cbn [negb]. rewrite Ho.
    now destruct (close_success response).
  - now apply nonzero_abs_positive.
  - subst side. intros H. revert H0 Hn H. unfold notna, PrimFloat.is_nan.
    rewrite !ltb_spec, !eqb_spec.
    change (Prim2SF PrimFloat.zero) with (S754_zero false).
    destruct (Prim2SF position_qty) as [s|[]| |[] m e]; cbn; try discriminate; reflexivity.
  - subst side. revert H0 Hn. unfold notna, PrimFloat.is_nan.
    rewrite !ltb_spec, !eqb_spec.
    change (Prim2SF PrimFloat.zero) with (S754_zero false).
    destruct (Prim2SF position_qty) as [s|[]| |[] m e]; cbn; try discriminate; reflexivity.
Qed.

Lemma orderly_close_opposes_the_position_witness :
  fst (market_close_an_asset (demo_venues true hl_filled)
         (demo_accounts (-1.5)%float (mkCloseReply false (Some "rejected")))
         "orderly" "ETH" tt)
  = (Return false, tt).
Proof.
  exact (proj1 (orderly_close_opposes_the_position (demo_venues true hl_filled)
           (demo_accounts (-1.5)%float (mkCloseReply false (Some "rejected")))
           "ETH" tt tt tt (-1.5)%float BUY (mkCloseReply false (Some "rejected"))
           eq_refl eq_refl eq_refl eq_refl eq_refl)).
Defined.

Lemma create_order_hyperliquid_rejected {W : Type} (V : Venues W)
    (symbol : string) (sz_usd : float) (side : Side) (w w1 : W)
    (symbol_info : Asset) (order_result : HLOrderResult) :
  find (fun asset => String.eqb (name asset) symbol) (hl_universe V w) = Some symbol_info ->
  hl_submit V symbol_info sz_usd side w = (Return order_result, w1) ->
  String.eqb (status order_result) "ok" = false ->
  HyperLiquidOrder.create_market_order V symbol sz_usd side w
  = (Return (RetDict order_result), w1, [ExchangeSubmit symbol sz_usd side])
  /\ create_order V "hyperliquid" symbol sz_usd side w
     = (Return false, w1,
        [OrderCall "hyperliquid" symbol sz_usd side; ExchangeSubmit symbol sz_usd side]).
Proof.
  intros Hf Hs Hst.
  assert (H : HyperLiquidOrder.create_market_order V symbol sz_usd side w
              = (Return (RetDict order_result), w1, [ExchangeSubmit symbol sz_usd side])).
  { unfold HyperLiquidOrder.create_market_order. rewrite Hf.
    unfold bind, emit, ret. rewrite Hs, Hst. reflexivity. }
  split; [exact H|].
  unfold create_order. cbn [String.eqb Ascii.eqb Bool.eqb].
  unfold bind at 1. unfold emit at 1. unfold bind at 1. rewrite H, Hst.
  reflexivity.
Qed.

(** X24. Hyperliquid: a closing order that the exchange rejects (a reply
    whose status is not "ok") is reported as closed. [market_close_an_asset]
    returns [True] as soon as a position is found, whatever
    [create_market_order] returns; the same reply makes [create_order]
    return [False]. *)
Theorem rejected_hyperliquid_close_returns_true {W : Type} (V : Venues W)
    (A : Accounts W) (symbol : string) (w w1 : W) (symbol_info : Asset)
    (position : HLPosition) (order_result : HLOrderResult) :
  let sz_usd := PrimFloat.mul (PrimFloat.abs (szi position)) (hl_mark_px A symbol_info) in
  let side := if PrimFloat.ltb PrimFloat.zero (szi position) then SELL else BUY in
  find (fun asset => String.eqb (name asset) symbol) (hl_universe V w) = Some symbol_info ->
  find (fun position => String.eqb (coin position) (hl_index A symbol_info))
       (hl_asset_positions A w) = Some position ->
  hl_submit V symbol_info sz_usd side w = (Return order_result, w1) ->
  String.eqb (status order_result) "ok" = false ->
  market_close_an_asset V A "hyperliquid" symbol w
  = (Return true, w1,
     [ClosePrint (ClosingOnHyperliquid symbol (szi position) side);
      OrderEvent (ExchangeSubmit symbol sz_usd side)])
  /\ result_of (create_order V "hyperliquid" symbol sz_usd side w) = Return false.
Proof.
  intros sz_usd side Hf Hp Hs Hst.
  destruct (create_order_hyperliquid_rejected V symbol sz_usd side w w1 symbol_info
              order_result Hf Hs Hst) as [Hm Hc].
  split; [|now rewrite Hc].
  unfold market_close_an_asset, hyperliquid_market_close_an_asset.
  cbn [String.eqb Ascii.eqb Bool.eqb]. rewrite Hf, Hp.
  fold sz_usd side. now rewrite Hm.
Qed.

Lemma rejected_hyperliquid_close_returns_true_witness :
  result_of (create_order (demo_venues true hl_rejected) "hyperliquid" "BTC"
               (PrimFloat.mul (PrimFloat.abs 0.5%float) 65000.5%float) SELL tt)
  = Return false.
Proof.
  exact (proj2 (rejected_hyperliquid_close_returns_true (demo_venues true hl_rejected)
           (demo_accounts 0%float (mkCloseReply true None)) "BTC" tt tt
           (mkAsset "BTC" "65000.5") (mkHLPosition "0" 0.5%float) hl_rejected
           eq_refl eq_refl eq_refl eq_refl)).
Defined.

(* ===================================================================== *)
(** ** The Backpack fetcher *)
(* ===================================================================== *)

Lemma all_chars_impl (p q : ascii -> bool) (s : string) :
  (forall c, p c = true -> q c = true) ->
  all_chars p s = true -> all_chars q s = true.
Proof.
  intros Hpq. induction s as [|c r IH]; cbn; [reflexivity|].
  intros H. apply andb_true_iff in H as [H1 H2]. now rewrite (Hpq c H1), IH.
Qed.

(** A stretch without the first character of [old] is copied. *)
Lemma replace_go_free (c0 : ascii) (r0 new s t : string) :
  all_chars (fun c => negb (Ascii.eqb c0 c)) s = true ->
  replace_go (String c0 r0) new 0 (s ++ t)%string
  = (s ++ replace_go (String c0 r0) new 0 t)%string.
Proof.
  induction s as [|c r IH]; [reflexivity|].
  cbn [all_chars]. intros H. apply andb_true_iff in H as [H1 H2].
  apply negb_true_iff in H1.
  cbn [String.append replace_go]. unfold PyStr.startswith.
  rewrite prefix_cons, H1. cbn [andb]. now rewrite IH.
Qed.

Lemma sep_free_no_underscore (b : string) :
  all_chars (fun c => negb (PyStr.is_sep c)) b = true ->
  all_chars (fun c => negb (Ascii.eqb "_" c)) b = true.
Proof.
  apply all_chars_impl. intros c H. apply negb_true_iff in H. apply negb_true_iff.
  destruct (Ascii.eqb_spec "_" c) as [<-|]; [discriminate H | reflexivity].
Qed.

Lemma append_assoc (x y z : string) : ((x ++ y) ++ z = x ++ (y ++ z))%string.
Proof. induction x as [|c r IH]; cbn; [reflexivity | now rewrite IH]. Qed.

Lemma symbol_key_quote_perp (b q : string) :
  all_chars (fun c => negb (PyStr.is_sep c)) b = true ->
  In q quote_suffixes ->
  BackpackFundingRates.symbol_key (b ++ q ++ "_PERP")%string = (b ++ q)%string.
Proof.
  intros Hc Hq. unfold BackpackFundingRates.symbol_key.
  rewrite <- append_assoc, endswith_app by reflexivity.
  cbn [String.eqb Ascii.eqb Bool.eqb andb].
  rewrite append_assoc. unfold str_replace.
  rewrite (replace_go_free "_" "PERP" "" b _ (sep_free_no_underscore b Hc)).
  f_equal. cbn in Hq. destruct Hq as [<-|[<-|[<-|[<-|[]]]]]; reflexivity.
Qed.

(** X25. Backpack reports a perpetual as base, quote suffix and [_PERP].
    The fetcher removes [_PERP] before the strategy normalises the symbol,
    and the two steps together give the bare ticker; the strategy's
    normaliser alone would stop at the base with its quote suffix. *)
Theorem backpack_symbol_reaches_the_base (b q : string) :
  bare_ticker b = true ->
  b <> "PERP" ->
  In q quote_suffixes ->
  FundingRateArbitrage._normalize_symbol
    (BackpackFundingRates.symbol_key (b ++ q ++ "_PERP")%string) = b
  /\ FundingRateArbitrage._normalize_symbol (b ++ q ++ "_PERP")%string = (b ++ q)%string.
Proof.
  intros Hb Hne Hq.
  destruct (bare_ticker_parts b Hb) as [Hf [Hc Hu]].
  split.
  - rewrite (symbol_key_quote_perp b q Hc Hq). now apply normalize_quote_suffix.
  - destruct (quote_suffix_shape b q Hq) as [_ [Huq Hsep]].
    unfold FundingRateArbitrage._normalize_symbol.
    rewrite (falsy_app _ _ Hf), !upper_app, Hu, Huq.
    change (PyStr.upper "_PERP") with "_PERP". unfold strip_markers.
    assert (Hsep' : match (q ++ "_PERP")%string with
                    | EmptyString => True
                    | String c _ => PyStr.is_sep c = true
                    end) by (destruct q; [reflexivity | exact Hsep]).
    rewrite (no_perp_prefix b _ Hc Hne Hsep').
    rewrite <- append_assoc.
    cbn [quote_suffixes perp_suffixes strip_first_suffix].
    rewrite !endswith_app by reflexivity.
    cbn [String.eqb Ascii.eqb Bool.eqb andb].
    rewrite !endswith_app by reflexivity.
    cbn [String.eqb Ascii.eqb Bool.eqb andb].
    apply chop_app.
Qed.

Lemma backpack_symbol_reaches_the_base_witness :
  FundingRateArbitrage._normalize_symbol
    (BackpackFundingRates.symbol_key "BTC_USDC_PERP") = "BTC"
  /\ FundingRateArbitrage._normalize_symbol "BTC_USDC_PERP" = "BTC_USDC".
Proof.
  apply (backpack_symbol_reaches_the_base "BTC" "_USDC"); cbn; auto. discriminate.
Defined.

Lemma dict_set_In_keys {V : Type} (k k0 : string) (v : V) (d : list (string * V)) :
  In k0 (map fst (PyDict.set k v d)) <-> k0 = k \/ In k0 (map fst d).
Proof.
  rewrite dict_set_keeps_order.
  destruct (str_in k (map fst d)) eqn:E.
  - apply str_in_In in E. split; [auto|]. intros [->|H]; auto.
  - rewrite in_app_iff. cbn. split.
    + intros [H|[H|[]]]; auto.
    + intros [H|H]; auto.
Qed.

Lemma dict_get_In_Some {V : Type} (k : string) (d : list (string * V)) :
  In k (map fst d) -> exists v, PyDict.get k d = Some v.
Proof.
  induction d as [|[k' v'] r IH]; cbn; [intros []|].
  destruct (String.eqb_spec k' k) as [->|Hne]; [eauto|].
  intros [H|H]; [contradiction | auto].
Qed.

(** The keys of the dictionary that the loop of [get_backpack_funding_rates]
    builds: the keys of the items that have a symbol and a funding rate
    that [float] accepts. *)
Lemma backpack_loop_keys (data : list MarkPrice) (rates : RawRates) (k : string) :
  In k (map fst
          (fold_left
             (fun rates item =>
                match mark_symbol item, mark_fundingRate item with
                | Some symbol, Some (Some fr_val) =>
                    PyDict.set (BackpackFundingRates.symbol_key symbol) fr_val rates
                | _, _ => rates
                end)
             data rates))
  <-> In k (map fst rates)
      \/ exists item symbol fr_val,
           In item data /\ mark_symbol item = Some symbol
           /\ mark_fundingRate item = Some (Some fr_val)
           /\ BackpackFundingRates.symbol_key symbol = k.
Proof.
  revert rates. induction data as [|item rest IH]; intros rates; cbn [fold_left].
  - split; [auto|]. intros [H|[item [s [x [[] _]]]]]. exact H.
  - rewrite IH. clear IH.
    destruct (mark_symbol item) as [symbol|] eqn:Es;
      [destruct (mark_fundingRate item) as [[fr_val|]|] eqn:Ef|].
    + rewrite dict_set_In_keys. split.
      * intros [[->|H]|[i [s [x [Hi H]]]]]; auto.
        -- right. exists item, symbol, fr_val. cbn. auto.
        -- right. exists i, s, x. cbn. auto.
      * intros [H|[i [s [x [[<-|Hi] [H1 [H2 H3]]]]]]]; auto.
        -- left. left. rewrite Es in H1. injection H1 as <-. now subst.
        -- right. exists i, s, x. auto.
    + split.
      * intros [H|[i [s [x [Hi H]]]]]; auto. right. exists i, s, x. cbn. auto.
      * intros [H|[i [s [x [[<-|Hi] [H1 [H2 H3]]]]]]]; auto; [congruence|].
        right. exists i, s, x. auto.
    + split.
      * intros [H|[i [s [x [Hi H]]]]]; auto. right. exists i, s, x. cbn. auto.
      * intros [H|[i [s [x [[<-|Hi] [H1 [H2 H3]]]]]]]; auto; [congruence|].
        right. exists i, s, x. auto.
    + split.
      * intros [H|[i [s [x [Hi H]]]]]; auto. right. exists i, s, x. cbn. auto.
      * intros [H|[i [s [x [[<-|Hi] [H1 [H2 H3]]]]]]]; auto; [congruence|].
        right. exists i, s, x. auto.
Qed.

(** X26. From the payload to the strategy: a Backpack perpetual of a bare
    ticker, listed with a funding rate that [float] accepts, gives the venue
    "backpack" a rate under the bare ticker once the fetched dictionary is
    added to the strategy. Items without symbol or rate, and those whose
    rate [float] rejects, do not stand in the way. *)
Theorem backpack_market_is_stored_under_base (self : DexRates)
    (data : list MarkPrice) (item : MarkPrice) (b q : string) (fr_val : float) :
  bare_ticker b = true ->
  b <> "PERP" ->
  In q quote_suffixes ->
  In item data ->
  mark_symbol item = Some (b ++ q ++ "_PERP")%string ->
  mark_fundingRate item = Some (Some fr_val) ->
  exists rates rate,
    PyDict.get "backpack"
      (FundingRateArbitrage.add_dex_rates self "backpack"
         (Some (BackpackFundingRates.get_backpack_funding_rates (Some data))))
    = Some rates
    /\ PyDict.get b rates = Some rate.
Proof.
  intros Hb Hne Hq Hin Hs Hf.
  destruct (bare_ticker_parts b Hb) as [Hfy [Hc Hu]].
  set (fetched := BackpackFundingRates.get_backpack_funding_rates (Some data)).
  assert (Hk : In (b ++ q)%string (map fst fetched)).
  { unfold fetched, BackpackFundingRates.get_backpack_funding_rates.
    apply backpack_loop_keys. right. exists item, (b ++ q ++ "_PERP")%string, fr_val.
    repeat split; auto. now apply symbol_key_quote_perp. }
  assert (Hn : In b (map fst (FundingRateArbitrage.normalize_rates fetched))).
  { change (FundingRateArbitrage.normalize_rates fetched) with (normalize_into fetched []).
    apply (proj2 (normalize_into_keys fetched [] (NoDup_nil _))). right.
    split; [exact Hfy|].
    apply in_map_iff in Hk as [sr [Hsr Hin']]. exists sr. split; [exact Hin'|].
    rewrite Hsr. now apply normalize_quote_suffix. }
  destruct (dict_get_In_Some b _ Hn) as [rate Hrate].
  exists (FundingRateArbitrage.normalize_rates fetched), rate. split; [|exact Hrate].
  unfold FundingRateArbitrage.add_dex_rates.
  destruct fetched as [|sr0 rest] eqn:Ef; [destruct Hk|].
  destruct (FundingRateArbitrage.normalize_rates (sr0 :: rest)) as [|n0 nrest] eqn:En;
    [destruct Hn|].
  apply dict_get_set_same.
Qed.

Lemma backpack_market_is_stored_under_base_witness :
  exists rates rate,
    PyDict.get "backpack"
      (FundingRateArbitrage.add_dex_rates [] "backpack"
         (Some (BackpackFundingRates.get_backpack_funding_rates
                  (Some [mkMarkPrice None None;
                         mkMarkPrice (Some "SOL_USDC_PERP") (Some None);
                         mkMarkPrice (Some "BTC_USDC_PERP") (Some (Some 0.5%float))]))))
    = Some rates
    /\ PyDict.get "BTC" rates = Some rate.
Proof.
  apply (backpack_market_is_stored_under_base [] _
           (mkMarkPrice (Some "BTC_USDC_PERP") (Some (Some 0.5%float))) "BTC" "_USDC"
           0.5%float); cbn; auto.
  discriminate.
Defined.
